(** * Voltron: the event broker of [voltron.py]

    A shallow embedding of the server side of [voltron.py] (the
    [ClientHandler] connection handler, the [Server] accept handler and the
    dispatch loop of [ServerThread.run]) and of the client-side [Client]
    reader, together with the properties of the broker that follow from the
    code.

    Python values are embedded as the inductive [pyval]; a method of a
    class is a computation in a state-and-exception monad whose state holds
    the object ([self]) and the module-level logger.  The two libraries the
    code calls but does not define, [pickle] and the socket layer of
    [asyncore.dispatcher], are interfaces ([Pickle], [Transport]): the
    general theorems hold for all their implementations, and the examples
    run the code on the socket and the pickle of the module [Sim]. *)

From Stdlib Require Import ZArith String Ascii List Bool Lia DecimalString.
From stdpp Require Import base option list strings relations.

Set Warnings "-register-all".

Local Open Scope Z_scope.
Local Open Scope string_scope.
Local Open Scope list_scope.

(** ** Python values and exceptions *)

(** The fragment of Python values that travels in the wire messages:
    [None], integers, byte strings, lists and string-keyed dictionaries. *)
Inductive pyval : Type :=
| PyNone
| PyInt (n : Z)
| PyStr (s : string)
| PyList (items : list pyval)
| PyDict (items : list (string * pyval)).

Inductive exn : Type :=
| AttributeError (attr : string)
| KeyError (key : string)
| TypeError
| UnpicklingError
| UnboundLocalError (var : string)
| SocketError (errno : Z).

Inductive result (A : Type) : Type :=
| Ok (a : A)
| Raise (e : exn).
Arguments Ok {A} a.
Arguments Raise {A} e.

(** [d[k]] on the items of a dictionary. *)
Fixpoint assoc (k : string) (d : list (string * pyval)) : option pyval :=
  match d with
  | [] => None
  | (k', v) :: rest => if String.eqb k k' then Some v else assoc k rest
  end.

(** [v[k]] for a string key [k]: only a dictionary can be indexed by a
    string, and a missing key is a [KeyError]. *)
Definition py_getitem (v : pyval) (k : string) : result pyval :=
  match v with
  | PyDict d => match assoc k d with
                | Some x => Ok x
                | None => Raise (KeyError k)
                end
  | _ => Raise TypeError
  end.

(** [a == b]. *)
Fixpoint py_eq (a b : pyval) {struct a} : bool :=
  match a, b with
  | PyNone, PyNone => true
  | PyInt m, PyInt n => Z.eqb m n
  | PyStr s, PyStr t => String.eqb s t
  | PyList xs, PyList ys =>
      (fix all2 (xs ys : list pyval) {struct xs} : bool :=
         match xs, ys with
         | [], [] => true
         | x :: xs', y :: ys' => py_eq x y && all2 xs' ys'
         | _, _ => false
         end) xs ys
  | PyDict d, PyDict d' =>
      Nat.eqb (length d) (length d') &&
      (fix sub (d : list (string * pyval)) : bool :=
         match d with
         | [] => true
         | (k, v) :: rest =>
             match assoc k d' with
             | Some v' => py_eq v v'
             | None => false
             end && sub rest
         end) d
  | _, _ => false
  end.

(** [x in c]: membership in a list, substring of a string, key of a
    dictionary (a list or a dictionary is not hashable and cannot be
    looked up); [None] and integers are not iterable. *)
Definition py_contains (x c : pyval) : result bool :=
  match c with
  | PyList items => Ok (existsb (py_eq x) items)
  | PyStr s => match x with
               | PyStr t => Ok (match String.index 0 t s with Some _ => true | None => false end)
               | _ => Raise TypeError
               end
  | PyDict d => match x with
                | PyStr k => Ok (match assoc k d with Some _ => true | None => false end)
                | PyNone | PyInt _ => Ok false
                | PyList _ | PyDict _ => Raise TypeError
                end
  | PyNone | PyInt _ => Raise TypeError
  end.

(** [s + v] for a string literal [s]: concatenation, defined on strings. *)
Definition py_add_str (s : string) (v : pyval) : result string :=
  match v with
  | PyStr t => Ok (s +:+ t)
  | _ => Raise TypeError
  end.

(** [str.strip()]: drops leading and trailing whitespace. *)
Definition is_space (c : ascii) : bool :=
  let n := nat_of_ascii c in
  (Nat.eqb n 32 || (Nat.leb 9 n && Nat.leb n 13))%bool.

Fixpoint lstrip (s : string) : string :=
  match s with
  | String c rest => if is_space c then lstrip rest else s
  | EmptyString => EmptyString
  end.

Fixpoint rstrip (s : string) : string :=
  match s with
  | String c rest =>
      match rstrip rest with
      | EmptyString => if is_space c then EmptyString else String c EmptyString
      | r => String c r
      end
  | EmptyString => EmptyString
  end.

Definition strip (s : string) : string := rstrip (lstrip s).

(** ** The state-and-exception monad

    A raised exception keeps the state reached so far: assignments made
    before a [raise] stay made. *)
Section Monad.
Context {S : Type}.

Definition M (A : Type) : Type := S -> result A * S.

Definition ret {A} (a : A) : M A := fun s => (Ok a, s).

Definition raise {A} (e : exn) : M A := fun s => (Raise e, s).

Definition bind {A B} (m : M A) (k : A -> M B) : M B :=
  fun s => match m s with
           | (Ok a, s') => k a s'
           | (Raise e, s') => (Raise e, s')
           end.

Definition lift {A} (r : result A) : M A := fun s => (r, s).

(** [try: body / except: handler], with a bare [except]. *)
Definition try_except {A} (body handler : M A) : M A :=
  fun s => match body s with
           | (Ok a, s') => (Ok a, s')
           | (Raise _, s') => handler s'
           end.

(** Reading a local variable that may not have been assigned. *)
Definition local {A} (name : string) (v : option A) : M A :=
  match v with
  | Some a => ret a
  | None => raise (UnboundLocalError name)
  end.
End Monad.
Arguments M : clear implicits.

Notation "'let!' x ':=' m 'in' k" := (bind m (fun x => k))
  (at level 10, x name, m at level 100, k at level 200).
Notation "m ';;;' k" := (bind m (fun _ => k))
  (at level 100, k at level 200, right associativity).

(** ** Logging, pickling and the socket layer *)

Inductive level : Type := DEBUG | ERROR.

(** What a logging call interpolates in its text: the object itself
    ([self]), the client handler just made, or a value. *)
Inductive logarg : Type :=
| ArgSelf
| ArgClient
| ArgVal (v : pyval).

(** A call of [log.debug] or [log.error]: the literal text and the
    arguments formatted into it. *)
Record logrec : Type := { lvl : level; text : string; args : list logarg }.

(** A call made on a socket: [recv(bufsize)] or [send(data)]. *)
Inductive io_call : Type :=
| Recv (bufsize : Z)
| Send (data : string).

(** [asyncore.dispatcher.send] and [asyncore.dispatcher.recv] on a socket:
    the result, or the exception they let through, and the socket
    afterwards. *)
Class Transport (socket : Type) : Type := {
  sock_send : socket -> string -> result Z * socket;
  sock_recv : socket -> Z -> result string * socket
}.

(** [pickle.dumps] and [pickle.loads]; [None] stands for any exception of
    [pickle.loads]. *)
Class Pickle : Type := {
  dumps : pyval -> string;
  loads : string -> option pyval
}.

(** [view.render(msg)] on a view in the state [v]: whether it returns or
    which exception it lets through, and the view afterwards. *)
Class View (screen : Type) : Type := {
  view_render : screen -> pyval -> result unit * screen
}.

Definition SOCK : string := "/tmp/voltron.sock".
Definition READ_MAX : Z := 0xFFFF.

(** An [asyncore.dispatcher]: its socket, and the calls made on it so far
    (oldest first). *)
Record dispatcher (socket : Type) : Type :=
  { sock : socket; calls : list io_call }.
Arguments sock {socket} d.
Arguments calls {socket} d.

(** The classes that derive from [asyncore.dispatcher]. *)
Class Channel (socket : Type) (C : Type) : Type := {
  chan : C -> dispatcher socket;
  with_chan : dispatcher socket -> C -> C
}.

(** The state a method runs in: its object and the module-level logger. *)
Record Env (C : Type) : Type := { self : C; logged : list logrec }.
Arguments self {C} e.
Arguments logged {C} e.

Definition log_call {C} (l : level) (t : string) (a : list logarg)
  : M (Env C) unit :=
  fun s => (Ok tt, {| self := self s;
                      logged := logged s ++ [{| lvl := l; text := t; args := a |}] |}).

Section Dispatcher.
Context {socket : Type} {T : Transport socket}.
Context {C : Type} {H : Channel socket C}.

(** [self.recv(bufsize)] *)
Definition recv (bufsize : Z) : M (Env C) string :=
  fun s =>
    let d := chan (self s) in
    let '(r, sk) := sock_recv (sock d) bufsize in
    (r, {| self := with_chan {| sock := sk; calls := calls d ++ [Recv bufsize] |} (self s);
           logged := logged s |}).

(** [self.send(data)]; the number of bytes written is dropped by every
    caller. *)
Definition send (data : string) : M (Env C) unit :=
  fun s =>
    let d := chan (self s) in
    let '(r, sk) := sock_send (sock d) data in
    (match r with Ok _ => Ok tt | Raise e => Raise e end,
     {| self := with_chan {| sock := sk; calls := calls d ++ [Send data] |} (self s);
        logged := logged s |}).
End Dispatcher.

(** ** Server side *)

Section Server.
Context {socket : Type} {T : Transport socket} {P : Pickle}.

(** [class ClientHandler (asyncore.dispatcher)]: the class has no
    [__init__], so a new handler has no [registration] attribute
    ([None] here) until [handle_register] assigns it. *)
Record ClientHandler : Type :=
  { handler_chan : dispatcher socket; registration : option pyval }.

#[global] Instance ClientHandler_channel : Channel socket ClientHandler := {
  chan := handler_chan;
  with_chan d c := {| handler_chan := d; registration := registration c |}
}.

(** Reading the attribute [self.registration]. *)
Definition get_registration : M (Env ClientHandler) pyval :=
  fun s => match registration (self s) with
           | Some msg => (Ok msg, s)
           | None => (Raise (AttributeError "registration"), s)
           end.

(** [self.registration = msg] *)
Definition set_registration (msg : pyval) : M (Env ClientHandler) unit :=
  fun s => (Ok tt, {| self := {| handler_chan := handler_chan (self s);
                                 registration := Some msg |};
                      logged := logged s |}).

(** [ClientHandler.handle_register] *)
Definition handle_register (msg : pyval) : M (Env ClientHandler) unit :=
  let! for_types := lift (py_getitem msg "for_types") in
  log_call DEBUG "Registering client {} for types: {}" [ArgSelf; ArgVal for_types] ;;;
  set_registration msg.

(** [ClientHandler.handle_read] *)
Definition handle_read : M (Env ClientHandler) unit :=
  let! data := recv READ_MAX in
  if negb (String.eqb (strip data) "") then
    let! msg :=
      try_except
        (log_call DEBUG "Received msg: " [ArgVal (PyStr data)] ;;;
         match loads data with
         | Some m => ret (Some m)
         | None => raise UnpicklingError
         end)
        (log_call ERROR "Invalid message data: " [ArgVal (PyStr data)] ;;;
         ret None) in
    let! msg := local "msg" msg in
    let! msg_type := lift (py_getitem msg "msg_type") in
    if py_eq msg_type (PyStr "register") then
      handle_register msg
    else
      let! line := lift (py_add_str "Invalid message type: " msg_type) in
      log_call ERROR line []
  else ret tt.

(** [ClientHandler.send_event] *)
Definition send_event (event : pyval) : M (Env ClientHandler) unit :=
  log_call DEBUG "Sending event to client {}: {}" [ArgSelf; ArgVal event] ;;;
  send (dumps event).

(** The module-level state of the server: the global list [clients], the
    global [queue] (first element = next to leave) and the logger. *)
Record World : Type :=
  { clients : list ClientHandler; queue : list pyval; wlog : list logrec }.

(** [Server.handle_accept]; [pair] is what [self.accept()] returned, the
    socket of the pair when it is not [None]. *)
Definition handle_accept (pair : option socket) : M World unit :=
  fun w =>
    match pair with
    | Some sk =>
        let client := {| handler_chan := {| sock := sk; calls := [] |};
                         registration := None |} in
        (Ok tt, {| clients := clients w ++ [client];
                   queue := queue w;
                   wlog := wlog w ++ [{| lvl := DEBUG; text := "Received connection: ";
                                         args := [ArgClient] |}] |})
    | None => (Ok tt, w)
    end.

(** [queue.put(event)] *)
Definition put (event : pyval) : M World unit :=
  fun w => (Ok tt, {| clients := clients w; queue := queue w ++ [event]; wlog := wlog w |}).

(** The body of [for client in clients] in [ServerThread.run], for one
    client: [wanted] is the condition of its [if], [and] evaluating its
    right operand only when the left one is true, [in] its left operand
    before its right one. *)
Definition wanted (event : pyval) : M (Env ClientHandler) bool :=
  let! msg_type := lift (py_getitem event "msg_type") in
  if py_eq msg_type (PyStr "update") then
    let! update_type := lift (py_getitem event "update_type") in
    let! reg := get_registration in
    let! for_types := lift (py_getitem reg "for_types") in
    lift (py_contains update_type for_types)
  else ret false.

(** [if <condition>: client.send_event(event)] *)
Definition dispatch (event : pyval) : M (Env ClientHandler) unit :=
  let! hit := wanted event in
  if hit then send_event event else ret tt.

(** [for client in clients: body]: the clients in list order; an
    exception leaves the loop, the clients not yet visited untouched. *)
Fixpoint for_client_in (body : M (Env ClientHandler) unit)
    (cs : list ClientHandler) (lg : list logrec)
  : result unit * (list ClientHandler * list logrec) :=
  match cs with
  | [] => (Ok tt, ([], lg))
  | client :: rest =>
      match body {| self := client; logged := lg |} with
      | (Ok _, s) =>
          let '(r, (rest', lg')) := for_client_in body rest (logged s) in
          (r, (self s :: rest', lg'))
      | (Raise e, s) => (Raise e, (self s :: rest, logged s))
      end
  end.

(** The [for] loop of [ServerThread.run] for one [event] taken from the
    queue, over the global [clients]. *)
Definition fan_out (event : pyval) : M World unit :=
  fun w =>
    let '(r, (cs, lg)) := for_client_in (dispatch event) (clients w) (wlog w) in
    (r, {| clients := cs; queue := queue w; wlog := lg |}).

(** [while not queue.empty(): event = queue.get(); for client in ...],
    by recursion on the content [q] of the queue: the loop body puts
    nothing on the queue ([fan_out_queue]). *)
Fixpoint drain (q : list pyval) (w : World) : result unit * World :=
  match q with
  | [] => (Ok tt, w)
  | event :: rest =>
      match fan_out event {| clients := clients w; queue := rest; wlog := wlog w |} with
      | (Ok _, w') => drain rest w'
      | (Raise e, w') => (Raise e, w')
      end
  end.

(** "Process any events in the queue": the inner loop of
    [ServerThread.run]. *)
Definition process_queue : M World unit := fun w => drain (queue w) w.

(** [asyncore.loop] finding the [i]-th client readable and calling its
    [handle_read]; the result is what [handle_read] returned or raised
    ([asyncore] itself catches what a handler raises, and closes the
    connection). *)
Definition readable (i : nat) : M World unit :=
  fun w =>
    match clients w !! i with
    | Some client =>
        let '(r, s) := handle_read {| self := client; logged := wlog w |} in
        (r, {| clients := <[i := self s]> (clients w); queue := queue w; wlog := logged s |})
    | None => (Ok tt, w)
    end.
End Server.

(** ** Client side *)

Section Client.
Context {socket : Type} {T : Transport socket} {P : Pickle}.
Context {screen : Type} {V : View screen}.

(** [class Client (asyncore.dispatcher)]: [view] is [self.view], [None]
    when there is none, and [rendered] lists the messages handed to
    [self.view.render], oldest first. *)
Record Client : Type :=
  { client_chan : dispatcher socket;
    view : option screen;
    types : pyval;
    rendered : list pyval }.

#[global] Instance Client_channel : Channel socket Client := {
  chan := client_chan;
  with_chan d c := {| client_chan := d; view := view c; types := types c;
                      rendered := rendered c |}
}.

(** [self.view.render(msg)]: what [render] raises leaves through the
    caller. *)
Definition render (msg : pyval) : M (Env Client) unit :=
  fun s =>
    match view (self s) with
    | Some v =>
        let '(r, v') := view_render v msg in
        (r, {| self := {| client_chan := client_chan (self s);
                          view := Some v';
                          types := types (self s);
                          rendered := rendered (self s) ++ [msg] |};
               logged := logged s |})
    | None => (Raise (AttributeError "render"), s)
    end.

(** [Client.register] *)
Definition Client_register : M (Env Client) unit :=
  fun s =>
    (log_call DEBUG "Client {} registering for types: {}" [ArgSelf; ArgVal (types (self s))] ;;;
     let msg := PyDict [("msg_type", PyStr "register"); ("for_types", types (self s))] in
     log_call DEBUG "Sending: " [ArgVal msg] ;;;
     send (dumps msg)) s.

(** [Client.handle_read] *)
Definition Client_handle_read : M (Env Client) unit :=
  let! data := recv READ_MAX in
  let! msg :=
    try_except
      (match loads data with
       | Some m => log_call DEBUG "Received message: " [ArgVal m] ;;; ret (Some m)
       | None => raise UnpicklingError
       end)
      (log_call DEBUG "Invalid message: " [ArgVal (PyStr data)] ;;; ret None) in
  fun s =>
    (match view (self s) with
     | Some _ =>
         let! msg := local "msg" msg in
         render msg
     | None => ret tt
     end) s.
End Client.

(** ** Producer side *)

Section Producer.
Context {socket : Type}.

Definition update (update_type : string) (data : pyval) : pyval :=
  PyDict [("msg_type", PyStr "update"); ("update_type", PyStr update_type);
          ("data", data)].

(** [VoltronCommand.stop_handler]; [regs], [disasm], [stack] and [bt]
    are what [get_registers], [get_disasm], [get_stack] and
    [get_backtrace] returned. *)
Definition stop_handler (regs disasm stack bt : pyval) : M (@World socket) unit :=
  put (update "register" regs) ;;;
  put (update "disasm" disasm) ;;;
  let! rsp := lift (py_getitem regs "rsp") in
  put (update "stack" (PyDict [("data", stack); ("sp", rsp)])) ;;;
  put (update "bt" bt).
End Producer.

(** ** The server thread at work *)

Section Schedule.
Context {socket : Type} {T : Transport socket} {P : Pickle}.

(** What happens around the queue: the debugger thread puts an event on
    it, or the server thread goes through "process any events in the
    queue".  A put that lands while the queue is being processed is taken
    by the same loop, as a put made just before it. *)
Inductive activity : Type :=
| Produce (event : pyval)
| Process.

(** The activities in turn; an exception of the dispatch loop ends
    [ServerThread.run], nothing is processed after it. *)
Fixpoint serve (schedule : list activity) : M (@World socket) unit :=
  match schedule with
  | [] => ret tt
  | Produce event :: rest => put event ;;; serve rest
  | Process :: rest => process_queue ;;; serve rest
  end.

(** The events a schedule puts on the queue, in the order of the puts. *)
Fixpoint produced (schedule : list activity) : list pyval :=
  match schedule with
  | [] => []
  | Produce event :: rest => event :: produced rest
  | Process :: rest => produced rest
  end.

(** [asyncore.loop] finding a handler readable [n] times in a row. *)
Fixpoint handle_reads (n : nat) : M (Env (@ClientHandler socket)) unit :=
  match n with
  | O => ret tt
  | S k => handle_read ;;; handle_reads k
  end.

(** The successive [recv(READ_MAX)] on [sk] return the chunks [chunks]. *)
Fixpoint arrive (sk : socket) (chunks : list string) : Prop :=
  match chunks with
  | [] => True
  | data :: rest =>
      exists sk', sock_recv sk READ_MAX = (Ok data, sk') /\ arrive sk' rest
  end.
End Schedule.

(** * Properties *)

(** ** Vocabulary *)

Section Vocabulary.
Context {socket : Type} {T : Transport socket} {P : Pickle}.
Implicit Types (c : @ClientHandler socket) (event tag : pyval).

(** [client.registration['for_types']], when the client has both. *)
Definition subscription c : option pyval :=
  match registration c with
  | Some msg => match py_getitem msg "for_types" with
                | Ok for_types => Some for_types
                | Raise _ => None
                end
  | None => None
  end.

(** [tag] is in the subscription of [c]. *)
Definition member tag c : Prop :=
  exists for_types, subscription c = Some for_types /\
                    py_contains tag for_types = Ok true.

(** [event] is an update event tagged [tag]. *)
Definition is_update event tag : Prop :=
  exists msg_type, py_getitem event "msg_type" = Ok msg_type /\
                   py_eq msg_type (PyStr "update") = true /\
                   py_getitem event "update_type" = Ok tag.

(** [msg] is a subscribe message for the types [for_types]. *)
Definition is_subscribe (msg for_types : pyval) : Prop :=
  exists msg_type, py_getitem msg "msg_type" = Ok msg_type /\
                   py_eq msg_type (PyStr "register") = true /\
                   py_getitem msg "for_types" = Ok for_types.

(** The chunk [data] is not blank and unpickles to [msg]. *)
Definition carries (data : string) (msg : pyval) : Prop :=
  strip data <> "" /\ loads data = Some msg.

(** The value of the condition of the dispatch loop for one client. *)
Definition wants c event : result bool :=
  fst (wanted event {| self := c; logged := [] |}).

(** The dispatch loop hands [event] to [c]. *)
Definition accepts c event : bool :=
  match wants c event with
  | Ok true => true
  | _ => false
  end.

(** The client after [self.send(data)] left its socket as [sk]. *)
Definition after_send c (data : string) (sk : socket) : ClientHandler :=
  {| handler_chan := {| sock := sk; calls := calls (handler_chan c) ++ [Send data] |};
     registration := registration c |}.

Definition sending_line event : logrec :=
  {| lvl := DEBUG; text := "Sending event to client {}: {}";
     args := [ArgSelf; ArgVal event] |}.

(** [c'] is [c] once it has been handed [event]: one more [send], of the
    pickled event. *)
Definition handed event c c' : Prop :=
  calls (handler_chan c') = calls (handler_chan c) ++ [Send (dumps event)].

(** The payloads of the events, as handed to [send] one after the other. *)
Definition sends (events : list pyval) : list io_call :=
  map (fun event => Send (dumps event)) events.

(** [self.send] on the socket of [c] returns (it raises nothing). *)
Definition send_returns c (data : string) : Prop :=
  exists n, fst (sock_send (sock (handler_chan c)) data) = Ok n.

(** [self.send] on the socket of [c] raises [x]. *)
Definition send_raises c (data : string) (x : exn) : Prop :=
  fst (sock_send (sock (handler_chan c)) data) = Raise x.

(** [c] has a subscription in which [tag] can be looked for. *)
Definition subscribed tag c : Prop :=
  exists for_types hit, subscription c = Some for_types /\
                        py_contains tag for_types = Ok hit.

(** Nothing stops the loop at [c]: the condition has a value, and the
    send, if there is one, returns. *)
Definition passes event c : Prop :=
  exists hit, wants c event = Ok hit /\
              (hit = true -> send_returns c (dumps event)).

(** The loop stops at [c] with the exception [x]. *)
Definition stops event c (x : exn) : Prop :=
  wants c event = Raise x \/
  (wants c event = Ok true /\ send_raises c (dumps event) x).

(** [c'] is [c] after a pass that may have handed it [event]: a client
    is handed the event at most once, and only when it wants it. *)
Definition touched event c c' : Prop :=
  registration c' = registration c /\
  ((handed event c c' /\ wants c event = Ok true) \/ c' = c).

(** [c'] is [c] after a pass that went by it: handed the event if it
    wants it, left as it was if not. *)
Definition served event c c' : Prop :=
  registration c' = registration c /\
  ((handed event c c' /\ wants c event = Ok true) \/
   (c' = c /\ wants c event = Ok false)).

(** The client after [self.recv(bufsize)] left its socket as [sk]. *)
Definition after_recv c (bufsize : Z) (sk : socket) : ClientHandler :=
  {| handler_chan := {| sock := sk; calls := calls (handler_chan c) ++ [Recv bufsize] |};
     registration := registration c |}.

Definition received_line (data : string) : logrec :=
  {| lvl := DEBUG; text := "Received msg: "; args := [ArgVal (PyStr data)] |}.

Definition invalid_line (data : string) : logrec :=
  {| lvl := ERROR; text := "Invalid message data: "; args := [ArgVal (PyStr data)] |}.

Definition registering_line (for_types : pyval) : logrec :=
  {| lvl := DEBUG; text := "Registering client {} for types: {}";
     args := [ArgSelf; ArgVal for_types] |}.
End Vocabulary.

(** ** A socket and a pickle to run the code on *)

Module Sim.
(** Error numbers (Linux). *)
Definition EBADF : Z := 9.
Definition EWOULDBLOCK : Z := 11.
Definition EPIPE : Z := 32.
Definition ECONNABORTED : Z := 103.
Definition ECONNRESET : Z := 104.
Definition ENOBUFS : Z := 105.
Definition ENOTCONN : Z := 107.
Definition ESHUTDOWN : Z := 108.

(** The errors that [asyncore] takes for a disconnection. *)
Definition DISCONNECTED : list Z :=
  [ECONNRESET; ENOTCONN; ESHUTDOWN; ECONNABORTED; EPIPE; EBADF].

(** A socket whose peer has written the chunks [inbox], on which the
    system call [send] fails with the error number [fault], if any, and
    which has been closed or not. *)
Record socket : Type := { inbox : list string; fault : option Z; closed : bool }.

Definition close (sk : socket) : socket :=
  {| inbox := inbox sk; fault := fault sk; closed := true |}.

(** The transport of the examples, after [asyncore.dispatcher]: [send]
    returns 0 when the socket would block, closes the socket and returns
    0 on a disconnection, and lets any other error through; [recv] on a
    socket with nothing to read, the peer having closed, closes the socket
    and returns the empty string. *)
#[global] Instance transport : Transport socket := {
  sock_send sk data :=
    match (if closed sk then Some EBADF else fault sk) with
    | None => (Ok (Z.of_nat (String.length data)), sk)
    | Some errno =>
        if Z.eqb errno EWOULDBLOCK then (Ok 0, sk)
        else if existsb (Z.eqb errno) DISCONNECTED then (Ok 0, close sk)
        else (Raise (SocketError errno), sk)
    end;
  sock_recv sk bufsize :=
    if closed sk then (Ok "", sk)
    else
      match inbox sk with
      | [] => (Ok "", close sk)
      | chunk :: rest =>
          let n := Z.to_nat bufsize in
          if Nat.leb (String.length chunk) n
          then (Ok chunk, {| inbox := rest; fault := fault sk; closed := false |})
          else (Ok (substring 0 n chunk),
                {| inbox := substring n (String.length chunk - n) chunk :: rest;
                   fault := fault sk; closed := false |})
      end
}.

Fixpoint bits (p : positive) : string :=
  match p with
  | xH => "1"
  | xO q => bits q +:+ "0"
  | xI q => bits q +:+ "1"
  end.

(** A printed form of a value. *)
Fixpoint repr (v : pyval) : string :=
  match v with
  | PyNone => "N"
  | PyInt Z0 => "I0"
  | PyInt (Zpos p) => "I" +:+ bits p
  | PyInt (Zneg p) => "I-" +:+ bits p
  | PyStr s => "S'" +:+ s +:+ "'"
  | PyList items =>
      "[" +:+ (fix all (l : list pyval) : string :=
                 match l with
                 | [] => "]"
                 | x :: r => repr x +:+ "," +:+ all r
                 end) items
  | PyDict items =>
      "{" +:+ (fix all (l : list (string * pyval)) : string :=
                 match l with
                 | [] => "}"
                 | (k, x) :: r => "'" +:+ k +:+ "':" +:+ repr x +:+ "," +:+ all r
                 end) items
  end.

(** A pickle that writes the printed form and reads back the values of
    the table [known]. *)
Definition pickle (known : list pyval) : Pickle := {|
  dumps := repr;
  loads data := List.find (fun v => String.eqb (repr v) data) known
|}.

Definition subscribe (tags : list string) : pyval :=
  PyDict [("msg_type", PyStr "register"); ("for_types", PyList (map PyStr tags))].

(** A connection on which [read] chunks wait, subscribed to [tags] when
    [tags] is given. *)
Definition connection (read : list string) (fault : option Z)
    (tags : option (list string)) : @ClientHandler socket :=
  {| handler_chan := {| sock := {| inbox := read; fault := fault; closed := false |};
                        calls := [] |};
     registration := subscribe <$> tags |}.

(** The pickle of the examples: it reads nothing back but the subscribe
    message for [stack]. *)
Definition plain : Pickle := pickle [subscribe ["stack"]].

Definition register_event : pyval :=
  update "register" (PyDict [("rax", PyInt 0); ("rsp", PyInt 0x7FFFFFFFE000);
                             ("eflags", PyStr "[ ZF PF ]")]).
Definition disasm_event : pyval := update "disasm" (PyStr "=> 0x400545: push rbp").
Definition stack_event : pyval :=
  update "stack" (PyDict [("data", PyStr "AAAAAAAA"); ("sp", PyInt 0x7FFFFFFFE000)]).
Definition bt_event : pyval := update "bt" (PyStr "#0 main ()").

(** Two viewers, the first subscribed to [stack], the second to
    [disasm]. *)
Definition viewers : @World socket :=
  {| clients := [connection [] None (Some ["stack"]);
                 connection [] None (Some ["disasm"])];
     queue := []; wlog := [] |}.

(** Two viewers subscribed to [stack]; [send] to the first fails with
    [ENOBUFS], which is no disconnection. *)
Definition flaky : @World socket :=
  {| clients := [connection [] (Some ENOBUFS) (Some ["stack"]);
                 connection [] None (Some ["stack"])];
     queue := []; wlog := [] |}.

(** Two viewers subscribed to [stack]; the peer of the first is gone,
    [send] to it fails with [EPIPE]. *)
Definition hung_up : @World socket :=
  {| clients := [connection [] (Some EPIPE) (Some ["stack"]);
                 connection [] None (Some ["stack"])];
     queue := []; wlog := [] |}.

(** Three viewers, subscribed to [stack], [disasm] and [stack]; [send]
    to the first fails with [ENOBUFS]. *)
Definition crowd : @World socket :=
  {| clients := [connection [] (Some ENOBUFS) (Some ["stack"]);
                 connection [] None (Some ["disasm"]);
                 connection [] None (Some ["stack"])];
     queue := []; wlog := [] |}.

(** The debugger stops twice; the queue is processed after each stop. *)
Definition rounds : list activity :=
  [Produce register_event; Produce disasm_event; Produce stack_event;
   Produce bt_event; Process; Produce stack_event; Process].

(** A message of another kind on the queue, before a [stack] event. *)
Definition ping : pyval := PyDict [("msg_type", PyStr "ping")].
Definition pinged : @World socket :=
  {| clients := clients viewers; queue := [ping; stack_event]; wlog := [] |}.

Definition startup : @World socket := {| clients := []; queue := []; wlog := [] |}.

(** A first viewer connects and has not subscribed yet when a second one
    connects and subscribes to [stack]; the debugger stops, and the queue
    is processed. *)
Definition early_stop : M (@World socket) unit :=
  handle_accept (Some {| inbox := []; fault := None; closed := false |}) ;;;
  handle_accept (Some {| inbox := [repr (subscribe ["stack"])]; fault := None;
                         closed := false |}) ;;;
  readable (P := plain) 1 ;;;
  put stack_event ;;;
  process_queue (P := plain).

(** A viewer subscribed to [stack] whose socket holds bytes that are no
    pickle. *)
Definition garbled : Env (@ClientHandler socket) :=
  {| self := connection ["garbage"] None (Some ["stack"]); logged := [] |}.

(** A viewer whose socket holds, one after the other, a subscription to
    [register] and [stack] and a subscription to [stack]. *)
Definition resubscribing : Env (@ClientHandler socket) :=
  {| self := connection [repr (subscribe ["register"; "stack"]); repr (subscribe ["stack"])]
                        None None;
     logged := [] |}.

(** The pickle that reads both subscriptions back. *)
Definition both : Pickle := pickle [subscribe ["register"; "stack"]; subscribe ["stack"]].
End Sim.

(** ** The steps of the server *)

Section Steps.
Context {socket : Type} {T : Transport socket} {P : Pickle}.

(** One thing that happens to the module-level state of the server,
    whether the call returns or raises: a connection is accepted, a client
    is found readable, the debugger puts an event or the four events of a
    stop on the queue, the queue is processed. *)
Inductive server_step : @World socket -> @World socket -> Prop :=
| step_accept w pair : server_step w (snd (handle_accept pair w))
| step_readable w i : server_step w (snd (readable i w))
| step_put w event : server_step w (snd (put event w))
| step_stop w regs disasm stack bt :
    server_step w (snd (stop_handler regs disasm stack bt w))
| step_process w : server_step w (snd (process_queue w)).

(** The registration of [c], if it has one, is a subscribe message. *)
Definition well_registered (c : @ClientHandler socket) : Prop :=
  match registration c with
  | Some msg => exists for_types, is_subscribe msg for_types
  | None => True
  end.
End Steps.

(** ** The debugger command *)

(** What the command asks of [gdb]: [int(gdb.parse_and_eval(e))],
    [str(gdb.parse_and_eval(e))], [gdb.execute(cmd, to_string=True)] and
    [str(gdb.selected_inferior().read_memory(addr, len))]; [None] when the
    call raises. *)
Class Gdb : Type := {
  eval_int : string -> option Z;
  eval_str : string -> option string;
  execute : string -> option string;
  read_memory : Z -> Z -> option string
}.


(** [d[k] = v] on the items of a dictionary. *)
Fixpoint py_setitem (d : list (string * pyval)) (k : string) (v : pyval)
  : list (string * pyval) :=
  match d with
  | [] => [(k, v)]
  | (k', v') :: rest =>
      if String.eqb k k' then (k, v) :: rest else (k', v') :: py_setitem rest k v
  end.

(** ['{}'.format(n)] for an integer [n]. *)
Definition decimal (n : Z) : string := DecimalString.NilZero.string_of_int (Z.to_int n).

(** A line written by [print]: the text and what is formatted into it. *)
Record outline : Type := { shown : string; shown_args : list logarg }.

Section Command.
Context {socket : Type} {G : Gdb}.

Definition debug (t : string) (a : list logarg) : M (@World socket) unit :=
  fun w => (Ok tt, {| clients := clients w; queue := queue w;
                      wlog := wlog w ++ [{| lvl := DEBUG; text := t; args := a |}] |}).

(** The list [regs] of [get_registers]. *)
Definition get_registers_regs : list string :=
  ["rax"; "rbx"; "rcx"; "rdx"; "rbp"; "rsp"; "rdi"; "rsi"; "rip"; "r8"; "r9"; "r10";
   "r11"; "r12"; "r13"; "r14"; "r15"; "cs"; "ds"; "es"; "fs"; "gs"; "ss"].

(** The loop [for reg in regs] of [get_registers], [vals] being the
    items of the dictionary so far. *)
Fixpoint read_registers (names : list string) (vals : list (string * pyval))
  : M (@World socket) (list (string * pyval)) :=
  match names with
  | [] => ret vals
  | reg :: rest =>
      match eval_int ("(long long)$" +:+ reg) with
      | Some v => read_registers rest (py_setitem vals reg (PyInt (Z.land v 0xFFFFFFFFFFFFFFFF)))
      | None =>
          debug "Failed getting reg: " [ArgVal (PyStr reg)] ;;;
          read_registers rest (py_setitem vals reg (PyStr "N/A"))
      end
  end.

(** [VoltronCommand.get_registers]; [None] when reading [$eflags], which
    is outside the [try], raises. *)
Definition get_registers : M (@World socket) (option pyval) :=
  let! vals := read_registers get_registers_regs [] in
  match eval_str "$eflags" with
  | Some flags =>
      let vals := py_setitem vals "eflags" (PyStr flags) in
      debug "Got registers: " [ArgVal (PyDict vals)] ;;;
      ret (Some (PyDict vals))
  | None => ret None
  end.





(** The loop [for client in clients] of [VoltronCommand.status]: the
    lines printed, and the exception that ended the loop, if any. *)
Fixpoint status_lines (cs : list (@ClientHandler socket)) : result unit * list outline :=
  match cs with
  | [] => (Ok tt, [])
  | client :: rest =>
      match registration client with
      | None => (Raise (AttributeError "registration"), [])
      | Some msg =>
          match py_getitem msg "for_types" with
          | Raise x => (Raise x, [])
          | Ok for_types =>
              let '(r, out) := status_lines rest in
              (r, {| shown := "{} registered for: {}";
                     shown_args := [ArgClient; ArgVal for_types] |} :: out)
          end
      end
  end.

(** [VoltronCommand.status], [running] being [self.running]. *)
Definition status (running : bool) (cs : list (@ClientHandler socket))
  : result unit * list outline :=
  if running then
    let '(r, out) := status_lines cs in
    (r, {| shown := "There are {} clients attached";
           shown_args := [ArgVal (PyInt (Z.of_nat (length cs)))] |} :: out)
  else (Ok tt, [{| shown := "Not running"; shown_args := [] |}]).
End Command.

(** ** The command and its thread *)

(** A [ServerThread] object: the attributes [lock] and [_should_exit],
    which the object has once [run] has assigned them, and what
    [isAlive()] answers.  A thread holds the lock from the first to the
    last line of [should_exit] or [set_should_exit] only, and nothing
    raises in between: the two methods are taken as atomic, so that
    [acquire] finds the lock free. *)
Record ServerThread : Type :=
  { lock : option unit; _should_exit : option bool; alive : bool }.

(** [threading.Thread.join(timeout)] on a thread: the seconds that the
    call blocks, and the thread when it returns; [join] returns when the
    thread has ended or [timeout] seconds have passed, whichever comes
    first. *)
Class Threading : Type := {
  thread_join : ServerThread -> Z -> Z * ServerThread;
  thread_join_returns : forall t timeout,
    0 <= timeout -> 0 <= fst (thread_join t timeout) <= timeout
}.

(** [ServerThread.set_should_exit] *)
Definition set_should_exit (should_exit : bool) (t : ServerThread)
  : result unit * ServerThread :=
  match lock t with
  | Some _ =>
      (Ok tt, {| lock := lock t; _should_exit := Some should_exit; alive := alive t |})
  | None => (Raise (AttributeError "lock"), t)
  end.

(** [ServerThread.should_exit] *)
Definition should_exit (t : ServerThread) : result bool :=
  match lock t, _should_exit t with
  | Some _, Some r => Ok r
  | Some _, None => Raise (AttributeError "_should_exit")
  | None, _ => Raise (AttributeError "lock")
  end.

(** [ServerThread.run] up to its loop: [served] is what [Server(SOCK)]
    did, and an exception of it ends the thread there. *)
Definition run_begins (served : result unit) (t : ServerThread)
  : result unit * ServerThread :=
  match served with
  | Ok _ =>
      set_should_exit false
        {| lock := Some tt; _should_exit := _should_exit t; alive := alive t |}
  | Raise x =>
      (Raise x, {| lock := lock t; _should_exit := _should_exit t; alive := false |})
  end.

(** The [VoltronCommand] object: [self.running], [self.thread] (no such
    attribute before the first [start]), whether [stop_handler] is
    connected to [gdb.events.stop], the lines printed, and the seconds
    spent in calls that block. *)
Record VoltronCommand : Type :=
  { running : bool;
    thread : option ServerThread;
    hooked : bool;
    output : list string;
    waited : Z }.

(** [VoltronCommand.__init__] *)
Definition VoltronCommand_init : VoltronCommand :=
  {| running := false; thread := None; hooked := false; output := []; waited := 0 |}.

(** [VoltronCommand.start]: the new thread is alive, and its [run] is
    yet to begin. *)
Definition start (cmd : VoltronCommand) : VoltronCommand :=
  if negb (running cmd) then
    {| running := true;
       thread := Some {| lock := None; _should_exit := None; alive := true |};
       hooked := true;
       output := output cmd ++ ["Starting voltron"];
       waited := waited cmd |}
  else
    {| running := running cmd; thread := thread cmd; hooked := hooked cmd;
       output := output cmd ++ ["Already running"];
       waited := waited cmd |}.

Section Lifecycle.
Context {Th : Threading}.

(** [VoltronCommand.stop]; [gdb] ignores the disconnection of a handler
    that is not connected. *)
Definition stop (cmd : VoltronCommand) : result unit * VoltronCommand :=
  if running cmd then
    let out := output cmd ++ ["Stopping voltron"] in
    match thread cmd with
    | Some t =>
        match set_should_exit true t with
        | (Ok _, t) =>
            let '(seconds, t) := thread_join t 10 in
            (Ok tt,
             {| running := false; thread := Some t; hooked := false;
                output := out ++ (if alive t then ["Failed to stop voltron :<"] else []);
                waited := waited cmd + seconds |})
        | (Raise x, t) =>
            (Raise x,
             {| running := true; thread := Some t; hooked := false; output := out;
                waited := waited cmd |})
        end
    | None =>
        (Raise (AttributeError "thread"),
         {| running := true; thread := None; hooked := false; output := out;
            waited := waited cmd |})
    end
  else
    (Ok tt,
     {| running := false; thread := thread cmd; hooked := hooked cmd;
        output := output cmd ++ ["Not running"];
        waited := waited cmd |}).
End Lifecycle.

(** ** The views and their subscriptions *)

(** The subclasses of [VoltronView]. *)
Inductive view_class : Type := RegisterView | DisasmView | StackView | BacktraceView.

(** [self.types], as the [__init__] of each view sets it. *)
Definition view_types (v : view_class) : pyval :=
  match v with
  | RegisterView => PyList [PyStr "register"]
  | DisasmView => PyList [PyStr "disasm"]
  | StackView => PyList [PyStr "stack"]
  | BacktraceView => PyList [PyStr "bt"]
  end.

Section Connect.
Context {socket : Type} {T : Transport socket} {P : Pickle}.
Context {screen : Type} {V : View screen}.

(** [Client(view, types)]: [connected] is the socket that
    [self.connect(SOCK)] obtained, or the exception it raised. *)
Definition Client_init (the_view : option screen) (tys : pyval) (connected : result socket)
  : result (@Client socket screen) :=
  match connected with
  | Ok sk => Ok {| client_chan := {| sock := sk; calls := [] |}; view := the_view;
                   types := tys; rendered := [] |}
  | Raise x => Raise x
  end.

(** [VoltronView.connect] for the view [me], of class [v]: the client
    made, if any, and the log. *)
Definition connect (v : view_class) (me : screen) (connected : result socket)
    (lg : list logrec)
  : result unit * (option (@Client socket screen) * list logrec) :=
  match Client_init (Some me) (view_types v) connected with
  | Ok client =>
      match Client_register {| self := client; logged := lg |} with
      | (Ok _, s) => (Ok tt, (Some (self s), logged s))
      | (Raise x, s) =>
          (Raise x, (Some (self s),
                     logged s ++ [{| lvl := ERROR; text := "Exception connecting: ";
                                     args := [] |}]))
      end
  | Raise x =>
      (Raise x, (None, lg ++ [{| lvl := ERROR; text := "Exception connecting: ";
                                 args := [] |}]))
  end.
End Connect.

(** ** More states to run the code on *)

Module Trial.
(** A pickle that reads back a [ping] message and the [stack] event of
    [Sim]. *)
Definition pickle : Pickle := Sim.pickle [Sim.ping; Sim.stack_event].

(** A connection subscribed to [stack] on which a [ping] message waits. *)
Definition pinged : @ClientHandler Sim.socket :=
  Sim.connection [Sim.repr Sim.ping] None (Some ["stack"]).

(** A view whose [render] reads [msg['data']], as each view of the
    source does first, and returns: it lets through what the lookup
    raises. *)
#[global] Instance reader : View unit := {
  view_render v msg :=
    (match py_getitem msg "data" with Ok _ => Ok tt | Raise x => Raise x end, v)
}.

(** The client of a stack view, on whose socket the [stack] event of
    [Sim] waits. *)
Definition stack_viewer : Env (@Client Sim.socket unit) :=
  {| self := {| client_chan :=
                  {| sock := {| Sim.inbox := [Sim.repr Sim.stack_event]; Sim.fault := None;
                                Sim.closed := false |};
                     calls := [] |};
                view := Some tt;
                types := view_types StackView;
                rendered := [] |};
     logged := [] |}.

(** The same client when a [ping] message waits on its socket. *)
Definition ping_viewer : Env (@Client Sim.socket unit) :=
  {| self := {| client_chan :=
                  {| sock := {| Sim.inbox := [Sim.repr Sim.ping]; Sim.fault := None;
                                Sim.closed := false |};
                     calls := [] |};
                view := Some tt;
                types := view_types StackView;
                rendered := [] |};
     logged := [] |}.

(** A connection that has not subscribed yet, on which the subscription
    of a stack view waits. *)
Definition newcomer : @ClientHandler Sim.socket :=
  Sim.connection [Sim.repr (Sim.subscribe ["stack"])] None None.

(** A debugger stopped with [rsp] at [-8] as a [long long], [rax] at 1,
    and no other register that can be read. *)
#[global] Instance gdb : Gdb := {
  eval_int e :=
    if String.eqb e "(long long)$rsp" then Some (-8)
    else if String.eqb e "(long long)$rax" then Some 1
    else None;
  eval_str e := if String.eqb e "$eflags" then Some "[ ZF PF ]" else None;
  execute cmd :=
    if String.eqb cmd "bt" then Some "#0 main ()"
    else if String.eqb cmd "x/32i $rip" then Some "=> 0x400545: push rbp"
    else None;
  read_memory addr len := if Z.eqb len 1024 then Some "AAAAAAAA" else None
}.

(** The server after two connections were accepted and the second one
    was read. *)
Definition settled : @World Sim.socket :=
  snd (readable (P := Sim.plain) 1
         (snd (handle_accept (Some (sock (handler_chan newcomer)))
                 (snd (handle_accept (Some (sock (handler_chan newcomer)))
                         Sim.startup))))).

(** What [get_registers] returns in that debugger. *)
Definition regs : pyval :=
  match fst (get_registers (socket := Sim.socket) Sim.startup) with
  | Ok (Some vals) => vals
  | _ => PyNone
  end.

(** A server thread that ends as soon as it is asked to, and stays alive
    as long as it is not. *)
#[global] Instance threads : Threading.
Proof.
  refine {| thread_join t timeout :=
              if alive t then
                match _should_exit t with
                | Some true =>
                    (0, {| lock := lock t; _should_exit := _should_exit t; alive := false |})
                | _ => (timeout, t)
                end
              else (0, t) |}.
  intros t timeout Htimeout.
  destruct (alive t); [destruct (_should_exit t) as [[]|]|]; simpl; lia.
Defined.

Definition EADDRINUSE : Z := 98.

(** The command after [voltron start], when [Server(SOCK)] could not bind
    the address, which ended the new thread. *)
Definition failed_start : VoltronCommand :=
  let cmd := start VoltronCommand_init in
  {| running := running cmd;
     thread := option_map (fun t => snd (run_begins (Raise (SocketError EADDRINUSE)) t))
                          (thread cmd);
     hooked := hooked cmd;
     output := output cmd;
     waited := waited cmd |}.

(** The command after [voltron start], when the thread has reached its
    loop. *)
Definition started : VoltronCommand :=
  let cmd := start VoltronCommand_init in
  {| running := running cmd;
     thread := option_map (fun t => snd (run_begins (Ok tt) t)) (thread cmd);
     hooked := hooked cmd;
     output := output cmd;
     waited := waited cmd |}.

(** The debugger at an earlier stop: [rsp] at [-16], [rbx] at 7, [rax] at
    1, and other flags. *)
Definition earlier : Gdb := {|
  eval_int e :=
    if String.eqb e "(long long)$rsp" then Some (-16)
    else if String.eqb e "(long long)$rbx" then Some 7
    else if String.eqb e "(long long)$rax" then Some 1
    else None;
  eval_str e := if String.eqb e "$eflags" then Some "[ PF ]" else None;
  execute cmd := None;
  read_memory addr len := None
|}.

(** What [get_registers] returned at that stop. *)
Definition earlier_regs : pyval :=
  match fst (get_registers (G := earlier) (socket := Sim.socket) Sim.startup) with
  | Ok (Some vals) => vals
  | _ => PyNone
  end.
End Trial.

(** ** The views: strings *)

(** [s * n]: [n] copies of [s], none when [n <= 0]. *)
Definition py_mul (s : string) (n : Z) : string :=
  String.concat "" (repeat s (Z.to_nat n)).

(** [s.split(sep)] for a separator of one character. *)
Fixpoint split_on (sep : ascii) (s : string) : list string :=
  match s with
  | EmptyString => [EmptyString]
  | String c rest =>
      if Ascii.eqb c sep then EmptyString :: split_on sep rest
      else match split_on sep rest with
           | first :: others => String c first :: others
           | [] => [String c EmptyString]
           end
  end.

(** [l[:k]]: the first [k] elements, all but the last [-k] when [k] is
    negative. *)
Definition slice_to {A} (l : list A) (k : Z) : list A :=
  if (0 <=? k)%Z then take (Z.to_nat k) l
  else take (length l - Z.to_nat (- k)) l.

(** [s[:k]] on a string. *)
Definition str_slice_to (s : string) (k : Z) : string :=
  if (0 <=? k)%Z then substring 0 (Z.to_nat k) s
  else substring 0 (String.length s - Z.to_nat (- k)) s.

(** [s[k:]] for [k >= 0]. *)
Definition str_slice_from (s : string) (k : nat) : string :=
  substring k (String.length s - k) s.

(** ['%-*s' % (width, s)]: [s] left-justified in [width] columns. *)
Definition ljust (width : Z) (s : string) : string :=
  s +:+ py_mul " " (width - Z.of_nat (String.length s)).

(** A digit of [format(n, 'X')] or [format(n, 'x')]. *)
Definition hex_digit (upper : bool) (d : Z) : ascii :=
  match d with
  | 0 => "0" | 1 => "1" | 2 => "2" | 3 => "3" | 4 => "4"
  | 5 => "5" | 6 => "6" | 7 => "7" | 8 => "8" | 9 => "9"
  | 10 => if upper then "A" else "a"
  | 11 => if upper then "B" else "b"
  | 12 => if upper then "C" else "c"
  | 13 => if upper then "D" else "d"
  | 14 => if upper then "E" else "e"
  | _ => if upper then "F" else "f"
  end%char.

Fixpoint hex_digits (upper : bool) (fuel : nat) (n : Z) (acc : string) : string :=
  match fuel with
  | O => acc
  | S fuel' =>
      let acc' := String (hex_digit upper (n mod 16)) acc in
      if (n <? 16)%Z then acc' else hex_digits upper fuel' (n / 16) acc'
  end.

(** [format(n, 'X')] ([upper]) or [format(n, 'x')] for [n >= 0]: the
    digits of [n] in base 16, of which there are at most [log2 n + 1]. *)
Definition hex (upper : bool) (n : Z) : string :=
  hex_digits upper (S (Z.to_nat (Z.log2 n))) n "".

(** ['{0:0=wX}'.format(n)] for the width [w]: the digits, after the sign
    if there is one, filled with zeros on the left up to [w] columns. *)
Definition format_0eq (upper : bool) (w : Z) (n : Z) : string :=
  if (n <? 0)%Z then
    let digits := hex upper (- n) in
    "-" +:+ py_mul "0" (w - 1 - Z.of_nat (String.length digits)) +:+ digits
  else
    let digits := hex upper n in
    py_mul "0" (w - Z.of_nat (String.length digits)) +:+ digits.

(** [ADDR_FORMAT_64.format(n)] *)
Definition ADDR_FORMAT_64 (n : Z) : string := "0x" +:+ format_0eq true 16 n.

(** ** The views: [hexdump] *)

(** [len(repr(chr(x)))]: the quotes, and the character, escaped if it is
    the quote, a backslash or not printable; the quote is ['] unless the
    character is ['] itself. *)
Definition repr_chr_len (x : nat) : nat :=
  let quote := if Nat.eqb x 39 then 34%nat else 39%nat in
  (2 + (if Nat.eqb x quote || Nat.eqb x 92 then 2
        else if Nat.eqb x 9 || Nat.eqb x 10 || Nat.eqb x 13 then 2
        else if Nat.ltb x 32 || Nat.leb 127 x then 4
        else 1))%nat.

(** The string [FILTER] of [hexdump]. *)
Definition FILTER (sep : string) : string :=
  String.concat ""
    (map (fun x => if Nat.eqb (repr_chr_len x) 3 then String (ascii_of_nat x) "" else sep)
         (seq 0 256)).

(** [xrange(0, stop, step)] for [step > 0]. *)
Definition xrange0 (stop step : nat) : list nat :=
  map (fun i => (i * step)%nat) (seq 0 ((stop + step - 1) / step)).

(** The hexadecimal column of a line of [hexdump]: ["%02X" % ord(x)] for
    each character, joined by spaces, with one more space after the
    eighth. *)
Definition hex_column (chars : string) : string :=
  let hex :=
    String.concat " "
      (map (fun x => format_0eq true 2 (Z.of_nat (nat_of_ascii x)))
           (list_ascii_of_string chars)) in
  if Nat.ltb 24 (String.length hex)
  then str_slice_to hex 24 +:+ " " +:+ str_slice_from hex 24
  else hex.

(** The printable column of a line of [hexdump]; [None] when an index
    into [FILTER] is out of range. *)
Fixpoint printable_column (filter sep : string) (chars : string) : option string :=
  match chars with
  | EmptyString => Some EmptyString
  | String x rest =>
      match (if Nat.leb (nat_of_ascii x) 127
             then option_map (fun ch => String ch EmptyString)
                             (String.get (nat_of_ascii x) filter)
             else Some sep),
            printable_column filter sep rest with
      | Some shown, Some others => Some (shown +:+ others)
      | _, _ => None
      end
  end.

(** The line of [hexdump] for the bytes that start at [c]. *)
Definition hexdump_line (src : string) (length : nat) (sep : string) (offset : Z)
    (c : nat) : option string :=
  let chars := substring c length src in
  match printable_column (FILTER sep) sep chars with
  | Some printable =>
      Some (ADDR_FORMAT_64 (offset + Z.of_nat c) +:+ ":  " +:+
            ljust (Z.of_nat length * 3) (hex_column chars) +:+ "  |" +:+
            printable +:+ "|" +:+ String "010" EmptyString)
  | None => None
  end.

Fixpoint all_lines (lines : list (option string)) : option (list string) :=
  match lines with
  | [] => Some []
  | Some line :: rest => option_map (cons line) (all_lines rest)
  | None :: _ => None
  end.

(** [VoltronView.hexdump(src, length, sep, offset)]; [None] when it
    raises: [ValueError] for [length = 0], [IndexError] for an index out
    of [FILTER]. *)
Definition hexdump (src : string) (length : Z) (sep : string) (offset : Z) : option string :=
  if (length =? 0)%Z then None
  else if (length <? 0)%Z then Some (strip "")
  else
    let n := Z.to_nat length in
    match all_lines (map (hexdump_line src n sep offset) (xrange0 (String.length src) n)) with
    | Some lines => Some (strip (String.concat "" lines))
    | None => None
    end.

(** ** The views: rendering *)

(** The libraries that a view writes through:
    [termcolor.colored(text, colour, attrs=attrs)], and
    [pygments.highlight] with the lexer of gdb and the formatter of a
    terminal of 256 colours: no function when [pygments] could not be
    imported, and [None] from it when it raises. *)
Class Terminal := {
  colored : string -> string -> list string -> string;
  highlight : option (string -> option string) }.

Definition newline : string := String "010" EmptyString.

(** [print(x)], as the text that reaches [sys.stdout]; [print(x, end='')]
    is [x] itself. *)
Definition print (x : string) : string := x +:+ newline.

(** [COLOURS['header']] *)
Definition COLOURS_header : string := "blue".

(** What a view reads in a message or a value, [None] when the reading
    raises. *)
Definition ok {A} (r : result A) : option A :=
  match r with Ok a => Some a | Raise _ => None end.

(** [v[:k]]: a string or a list can be sliced. *)
Definition py_slice_to (v : pyval) (k : Z) : option pyval :=
  match v with
  | PyStr s => Some (PyStr (str_slice_to s k))
  | PyList items => Some (PyList (slice_to items k))
  | _ => None
  end.

(** [len(v)] *)
Definition py_len (v : pyval) : option Z :=
  match v with
  | PyStr s => Some (Z.of_nat (String.length s))
  | PyList items => Some (Z.of_nat (length items))
  | PyDict items => Some (Z.of_nat (length items))
  | _ => None
  end.

(** The characters that [ord] reads when [hexdump] runs through [src]: a
    string, or a list of strings of one character each. *)
Definition py_chars (src : pyval) : option string :=
  match src with
  | PyStr s => Some s
  | PyList items =>
      option_map string_of_list_ascii
        (mapM (fun x => match x with
                        | PyStr (String c EmptyString) => Some c
                        | _ => None
                        end) items)
  | _ => None
  end.

(** [self.hexdump(src, offset=offset)] on values: [offset + c] is only
    computed when there is a line to write. *)
Definition py_hexdump (src offset : pyval) : option string :=
  match py_chars src with
  | Some chars =>
      match offset with
      | PyInt n => hexdump chars 16 "." n
      | _ => if String.eqb chars "" then hexdump chars 16 "." 0 else None
      end
  | None => None
  end.

Section Render.
Context {T : Terminal}.

(** [VoltronView.format_header(title, left)], in a window [width] columns
    wide. *)
Definition format_header (width : Z) (title : string) (left : option string) : string :=
  let header := match left with Some l => l | None => "" end in
  let dashlen := width - Z.of_nat (String.length header) - Z.of_nat (String.length title) in
  let dashlen := if (dashlen <? 0)%Z then 1 else dashlen in
  let header := header +:+ py_mul "-" dashlen in
  colored header COLOURS_header [] +:+ colored title "white" ["bold"].

(** [VoltronView.format_footer()] *)
Definition format_footer (width : Z) : string :=
  colored (py_mul "-" width) COLOURS_header [].

(** The highlighting of [DisasmView.render]: what [pygments] makes of
    the text, the text itself without [pygments] or when it raises. *)
Definition pygmentize (disasm : string) : string :=
  match highlight with
  | Some highlighted =>
      match highlighted disasm with
      | Some text => text
      | None => disasm
      end
  | None => disasm
  end.

(** [DisasmView.render(msg)]: what it prints once it has cleared the
    terminal, in a window that is [height] lines high when [render] asks,
    [header_width] and [footer_width] columns wide when [format_header]
    and [format_footer] ask; [None] when it raises, which it only does
    before it prints. *)
Definition DisasmView_render (height header_width footer_width : Z) (msg : pyval)
    : option string :=
  match ok (py_getitem msg "data") with
  | Some (PyStr disasm) =>
      let disasm := String.concat newline (slice_to (split_on "010" disasm) (height - 2)) in
      let disasm := pygmentize disasm in
      Some (print (format_header header_width "[code]" None) +:+
            print (rstrip disasm) +:+
            format_footer footer_width)
  | _ => None
  end.

(** [StackView.render(msg)] *)
Definition StackView_render (height header_width footer_width : Z) (msg : pyval)
    : option string :=
  data ← ok (py_getitem msg "data");
  stack_raw ← ok (py_getitem data "data");
  sp ← ok (py_getitem data "sp");
  stack_raw ← py_slice_to stack_raw ((height - 2) * 16);
  dump ← py_hexdump stack_raw sp;
  let lines := reverse (split_on "010" dump) in
  let stack := String.concat newline lines in
  len ← py_len stack_raw;
  match sp with
  | PyInt sp =>
      let sp_addr := "[0x" +:+ format_0eq false 4 len +:+ ":" +:+ ADDR_FORMAT_64 sp +:+ "]" in
      Some (print (format_header header_width "[stack]" (Some sp_addr)) +:+
            print (strip stack) +:+
            format_footer footer_width)
  | _ => None
  end.

(** [BacktraceView.render(msg)] *)
Definition BacktraceView_render (height header_width footer_width : Z) (msg : pyval)
    : option string :=
  match ok (py_getitem msg "data") with
  | Some (PyStr data) =>
      let lines := split_on "010" data in
      let pad := height - Z.of_nat (length lines) - 2 in
      let pad := if (pad <? 0)%Z then 0 else pad in
      Some (print (format_header header_width "[backtrace]" None) +:+
            print (strip data) +:+
            (if (0 <? pad)%Z then print (py_mul newline pad) else "") +:+
            format_footer footer_width)
  | _ => None
  end.
End Render.

(** A terminal without colours, which is what [termcolor] gives when
    [ANSI_COLORS_DISABLED] is set, and without [pygments]. *)
Definition monochrome : Terminal :=
  {| colored text colour attrs := text; highlight := None |}.

(** ** The views: registers *)

(** [repr(v)] of a list or a dictionary, which Python builds from the
    order of its hash table. *)
Class Builtins := { py_repr : pyval -> string }.

(** [str(v)], which is also ['{0}'.format(v)]. *)
Definition py_str {B : Builtins} (v : pyval) : string :=
  match v with
  | PyStr s => s
  | PyInt n => decimal n
  | PyNone => "None"
  | _ => py_repr v
  end.

(** [str.upper], on ASCII. *)
Definition upper (s : string) : string :=
  string_of_list_ascii
    (map (fun c => let n := nat_of_ascii c in
                   if (Nat.leb 97 n && Nat.leb n 122)%bool then ascii_of_nat (n - 32) else c)
         (list_ascii_of_string s)).

(** [SEGM_FORMAT_16.format(n)] *)
Definition SEGM_FORMAT_16 (n : Z) : string := format_0eq true 4 n.

(** A format string with an integer presentation applied to [v]:
    [ValueError] for anything but an integer. *)
Definition format_int (f : Z -> string) (v : pyval) : option string :=
  match v with
  | PyInt n => Some (f n)
  | _ => None
  end.

(** [COLOURS] *)
Definition COLOURS_label : string := "green".
Definition COLOURS_value : string := "grey".
Definition COLOURS_modified : string := "red".

(** An entry of [FORMAT_INFO], or [FORMAT_DEFAULTS]: a format string is
    held as what its [format] does, and a key that the entry does not
    have as [None]. *)
Record format_entry : Type := {
  regs : option (list string);
  label_format : option (string -> string);
  label_mod : option (option (string -> string));
  label_colour : option string;
  value_format : option (pyval -> option string);
  value_mod : option (option (string -> string));
  value_colour : option string;
  value_colour_mod : option string }.

Section Registers.
Context {T : Terminal} {B : Builtins}.

(** The entries of [FORMAT_INFO['x64']]: the general registers, the
    segment registers and the flags. *)
Definition x64_general : format_entry :=
  {| regs := Some ["rax"; "rbx"; "rcx"; "rdx"; "rbp"; "rsp"; "rdi"; "rsi"; "rip"; "r8";
                   "r9"; "r10"; "r11"; "r12"; "r13"; "r14"; "r15"];
     label_format := Some (fun reg => ljust 3 reg +:+ ":");
     label_mod := Some (Some upper);
     label_colour := Some COLOURS_label;
     value_format := Some (format_int ADDR_FORMAT_64);
     value_mod := Some None;
     value_colour := Some COLOURS_value;
     value_colour_mod := Some COLOURS_modified |}.

Definition x64_segment : format_entry :=
  {| regs := Some ["cs"; "ds"; "es"; "fs"; "gs"; "ss"];
     label_format := Some (fun reg => reg +:+ ":");
     label_mod := Some (Some upper);
     label_colour := Some COLOURS_label;
     value_format := Some (format_int SEGM_FORMAT_16);
     value_mod := Some None;
     value_colour := Some COLOURS_value;
     value_colour_mod := Some COLOURS_modified |}.

Definition x64_flags : format_entry :=
  {| regs := Some ["eflags"];
     label_format := None;
     label_mod := None;
     label_colour := None;
     value_format := Some (fun v => Some (py_str v));
     value_mod := Some None;
     value_colour := None;
     value_colour_mod := None |}.

(** [FORMAT_INFO['x64']] *)
Definition FORMAT_INFO_x64 : list format_entry := [x64_general; x64_segment; x64_flags].

Definition FORMAT_DEFAULTS : format_entry :=
  {| regs := None;
     label_format := Some (fun reg => reg +:+ ":");
     label_mod := Some (Some upper);
     label_colour := Some COLOURS_label;
     value_format := Some (format_int ADDR_FORMAT_64);
     value_mod := Some None;
     value_colour := Some COLOURS_value;
     value_colour_mod := Some COLOURS_modified |}.

(** [dict(defaults.items() + fmt.items())]: the keys of [fmt] win. *)
Definition with_defaults (defaults fmt : format_entry) : format_entry :=
  let pick {A} (key : format_entry -> option A) : option A :=
    match key fmt with Some x => Some x | None => key defaults end in
  {| regs := pick regs;
     label_format := pick label_format;
     label_mod := pick label_mod;
     label_colour := pick label_colour;
     value_format := pick value_format;
     value_mod := pick value_mod;
     value_colour := pick value_colour;
     value_colour_mod := pick value_colour_mod |}.

(** The body of the loop [for reg in fmt['regs']] of
    [RegisterView.render]: [formatted] with the label and the value of
    [reg]; [None] when it raises. *)
Definition format_reg (fmt : format_entry) (data last_regs : pyval)
    (formatted : list (string * pyval)) (reg : string) : option (list (string * pyval)) :=
  label_format ← label_format fmt;
  let label := label_format reg in
  label_mod ← label_mod fmt;
  let label := match label_mod with Some modify => modify label | None => label end in
  label_colour ← label_colour fmt;
  let formatted := py_setitem formatted (reg +:+ "l") (PyStr (colored label label_colour [])) in
  val ← ok (py_getitem data reg);
  match val with
  | PyStr s =>
      value_colour ← value_colour fmt;
      Some (py_setitem formatted reg (PyStr (colored s value_colour [])))
  | _ =>
      colour ← value_colour fmt;
      modified ← (if py_eq last_regs PyNone then Some true
                  else last ← ok (py_getitem last_regs reg); Some (negb (py_eq val last)));
      colour ← (if modified : bool then value_colour_mod fmt else Some colour);
      value_format ← value_format fmt;
      val ← value_format val;
      value_mod ← value_mod fmt;
      let val := match value_mod with Some modify => modify val | None => val end in
      Some (py_setitem formatted reg (PyStr (colored val colour [])))
  end.

Fixpoint format_regs (fmt : format_entry) (data last_regs : pyval)
    (formatted : list (string * pyval)) (names : list string)
    : option (list (string * pyval)) :=
  match names with
  | [] => Some formatted
  | reg :: rest =>
      formatted ← format_reg fmt data last_regs formatted reg;
      format_regs fmt data last_regs formatted rest
  end.

(** The loop [for fmt in formats]. *)
Fixpoint format_all (formats : list format_entry) (data last_regs : pyval)
    (formatted : list (string * pyval)) : option (list (string * pyval)) :=
  match formats with
  | [] => Some formatted
  | fmt :: rest =>
      let fmt := with_defaults FORMAT_DEFAULTS fmt in
      names ← regs fmt;
      formatted ← format_regs fmt data last_regs formatted names;
      format_all rest data last_regs formatted
  end.

(** [template.format] with the items of [formatted] as its keyword
    arguments, for a template whose replacement fields are bare names, as those of [TEMPLATE_H] and [TEMPLATE_V] are;
    [field] is the name that is being read, if one is.  [None] when it
    raises: [KeyError] for a name that [formatted] does not have,
    [ValueError] for a brace that is not matched. *)
Fixpoint format_map (template : string) (field : option string)
    (formatted : list (string * pyval)) : option string :=
  match template, field with
  | EmptyString, None => Some EmptyString
  | EmptyString, Some _ => None
  | String c rest, None =>
      if Ascii.eqb c "{" then format_map rest (Some EmptyString) formatted
      else if Ascii.eqb c "}" then None
      else option_map (String c) (format_map rest None formatted)
  | String c rest, Some name =>
      if Ascii.eqb c "}" then
        match assoc name formatted, format_map rest None formatted with
        | Some v, Some text => Some (py_str v +:+ text)
        | _, _ => None
        end
      else format_map rest (Some (name +:+ String c EmptyString)) formatted
  end.

Definition TEMPLATE_H : string :=
  "{raxl} {rax}  {rbxl} {rbx}  {rbpl} {rbp}  {rspl} {rsp}  {eflags}" +:+ newline +:+
  "{rdil} {rdi}  {rsil} {rsi}  {rdxl} {rdx}  {rcxl} {rcx}  {ripl} {rip}" +:+ newline +:+
  "{r8l} {r8}  {r9l} {r9}  {r10l} {r10}  {r11l} {r11}  {r12l} {r12}" +:+ newline +:+
  "{r13l} {r13}  {r14l} {r14}  {r15l} {r15}" +:+ newline +:+
  "{csl} {cs}  {dsl} {ds}  {esl} {es}  {fsl} {fs}  {gsl} {gs}  {ssl} {ss}" +:+ newline.

Definition TEMPLATE_V : string :=
  "{ripl} {rip}" +:+ newline +:+
  newline +:+
  "{raxl} {rax}" +:+ newline +:+
  "{rbxl} {rbx}" +:+ newline +:+
  "{rbpl} {rbp}" +:+ newline +:+
  "{rspl} {rsp}" +:+ newline +:+
  "{rdil} {rdi}" +:+ newline +:+
  "{rsil} {rsi}" +:+ newline +:+
  "{rdxl} {rdx}" +:+ newline +:+
  "{rcxl} {rcx}" +:+ newline +:+
  "{r8l} {r8}" +:+ newline +:+
  "{r9l} {r9}" +:+ newline +:+
  "{r10l} {r10}" +:+ newline +:+
  "{r11l} {r11}" +:+ newline +:+
  "{r12l} {r12}" +:+ newline +:+
  "{r13l} {r13}" +:+ newline +:+
  "{r14l} {r14}" +:+ newline +:+
  "{r15l} {r15}" +:+ newline +:+
  "{csl}  {cs}  {dsl}  {ds}" +:+ newline +:+
  "{esl}  {es}  {fsl}  {fs}" +:+ newline +:+
  "{gsl}  {gs}  {ssl}  {ss}" +:+ newline +:+
  "    {eflags}" +:+ newline.

(** [RegisterView.render(msg)], [vertical] being [self.args.vertical] and
    [last_regs] what [self.last_regs] is: what it prints once it has
    cleared the terminal, and what [self.last_regs] becomes; [None] when
    it raises, which it only does before it prints and assigns. *)
Definition RegisterView_render (vertical : bool) (last_regs : pyval)
    (header_width footer_width : Z) (msg : pyval) : option (string * pyval) :=
  let template := if vertical then TEMPLATE_V else TEMPLATE_H in
  data ← ok (py_getitem msg "data");
  formatted ← format_all FORMAT_INFO_x64 data last_regs [];
  text ← format_map template None formatted;
  Some (print (format_header header_width "[regs]" None) +:+ text +:+
        format_footer footer_width,
        data).
End Registers.

(** A printing of values for examples. *)
Definition printed : Builtins := {| py_repr := Sim.repr |}.

(** ** The views: vocabulary *)

(** A character that a terminal shows as itself: printable ASCII. *)
Definition plain_char (c : ascii) : Prop :=
  (32 <= nat_of_ascii c <= 126)%nat.

(** What the printable column of [hexdump] shows for a byte, with the
    default separator. *)
Definition shown_char (x : ascii) : ascii :=
  let n := nat_of_ascii x in
  if (Nat.leb 32 n && Nat.leb n 126 && negb (Nat.eqb n 92))%bool then x else "."%char.

(** The value of a hexadecimal digit. *)
Definition unhex_digit (c : ascii) : option nat :=
  let n := nat_of_ascii c in
  if (Nat.leb 48 n && Nat.leb n 57)%bool then Some (n - 48)%nat
  else if (Nat.leb 65 n && Nat.leb n 70)%bool then Some (n - 55)%nat
  else None.

(** The bytes written as pairs of hexadecimal digits in [cs], spaces
    apart. *)
Fixpoint unhex (fuel : nat) (cs : list ascii) : option (list ascii) :=
  match fuel with
  | O => None
  | S fuel' =>
      match cs with
      | [] => Some []
      | c :: rest =>
          if Ascii.eqb c " " then unhex fuel' rest
          else match rest with
               | d :: rest' =>
                   match unhex_digit c, unhex_digit d, unhex fuel' rest' with
                   | Some hi, Some lo, Some bytes =>
                       Some (ascii_of_nat (16 * hi + lo) :: bytes)
                   | _, _, _ => None
                   end
               | [] => None
               end
      end
  end.

(** What follows the first colon of [cs]. *)
Fixpoint after_colon (cs : list ascii) : list ascii :=
  match cs with
  | [] => []
  | c :: rest => if Ascii.eqb c ":" then rest else after_colon rest
  end.

(** The bytes that a line of a dump stands for: the pairs of digits of
    the [3 * 16] columns that follow the first colon and its two spaces. *)
Definition undump_line (line : string) : option (list ascii) :=
  let columns := take 48 (drop 2 (after_colon (list_ascii_of_string line))) in
  unhex (S (length columns)) columns.

(** The bytes that a dump stands for. *)
Definition undump (out : string) : option string :=
  if String.eqb out "" then Some ""
  else
    option_map (fun bytes => string_of_list_ascii (concat bytes))
               (mapM undump_line (split_on "010" out)).

(** Whether [RegisterView.render] takes the value [val] of [reg] as
    modified since [last_regs]. *)
Definition modified (last_regs : pyval) (reg : string) (val : pyval) : bool :=
  py_eq last_regs PyNone ||
  match py_getitem last_regs reg with
  | Ok last => negb (py_eq val last)
  | Raise _ => false
  end.

(** The keys that the loop of [RegisterView.render] sets for [names]. *)
Definition format_keys (names : list string) : list string :=
  flat_map (fun reg => [reg +:+ "l"; reg]) names.

(** * Proofs *)

(** ** The condition of the dispatch loop *)

Section Subscription.
Context {socket : Type} {T : Transport socket} {P : Pickle}.
Implicit Types (c : @ClientHandler socket) (event tag : pyval).

Lemma wanted_pure event (s : Env (@ClientHandler socket)) :
  wanted event s = (wants (self s) event, s).
Proof.
  unfold wants, wanted, bind, lift, ret, get_registration; destruct s as [c lg]; simpl.
  destruct (py_getitem event "msg_type") as [mt|]; simpl; [|done].
  destruct (py_eq mt (PyStr "update")); simpl; [|done].
  destruct (py_getitem event "update_type") as [ut|]; simpl; [|done].
  destruct (registration c) as [reg|]; simpl; [|done].
  destruct (py_getitem reg "for_types") as [ft|]; simpl; [|done].
  done.
Qed.

Lemma wants_subscription event tag c :
  is_update event tag ->
  wants c event =
  match registration c with
  | Some msg => match py_getitem msg "for_types" with
                | Ok for_types => py_contains tag for_types
                | Raise x => Raise x
                end
  | None => Raise (AttributeError "registration")
  end.
Proof.
  intros (mt & Hmt & Hupd & Htag).
  unfold wants, wanted, bind, lift, ret, get_registration; simpl.
  rewrite Hmt; simpl. rewrite Hupd, Htag; simpl.
  destruct (registration c) as [reg|]; simpl; [|done].
  by destruct (py_getitem reg "for_types").
Qed.

Lemma wants_member event tag c :
  is_update event tag -> (wants c event = Ok true <-> member tag c).
Proof.
  intros Hupd. rewrite (wants_subscription event tag c Hupd).
  unfold member, subscription.
  destruct (registration c) as [reg|].
  - destruct (py_getitem reg "for_types") as [ft|].
    + split; [intros; exists ft; done | intros (ft' & [= <-] & Hin); done].
    + split; [done | intros (ft' & [=] & _)].
  - split; [done | intros (ft' & [=] & _)].
Qed.

Lemma wants_subscribed event tag c :
  is_update event tag -> subscribed tag c -> exists hit, wants c event = Ok hit.
Proof.
  intros Hupd (ft & hit & Hsub & Hin). exists hit.
  rewrite (wants_subscription event tag c Hupd).
  unfold subscription in Hsub. destruct (registration c) as [reg|]; [|done].
  destruct (py_getitem reg "for_types") as [ft'|]; [|done].
  by injection Hsub as ->.
Qed.

Lemma wants_unregistered event tag c :
  is_update event tag -> registration c = None ->
  wants c event = Raise (AttributeError "registration").
Proof. intros Hupd Hreg. by rewrite (wants_subscription event tag c Hupd), Hreg. Qed.

Lemma wants_not_update event msg_type c :
  py_getitem event "msg_type" = Ok msg_type ->
  py_eq msg_type (PyStr "update") = false ->
  wants c event = Ok false.
Proof.
  intros Hmt Hne. unfold wants, wanted, bind, lift, ret; simpl.
  by rewrite Hmt; simpl; rewrite Hne.
Qed.

(** The subscription is all the condition looks at in a client. *)
Lemma wants_registration event c c' :
  registration c' = registration c -> wants c' event = wants c event.
Proof.
  intros Hreg. unfold wants, wanted, bind, lift, ret, get_registration; simpl.
  destruct (py_getitem event "msg_type") as [mt|]; simpl; [|done].
  destruct (py_eq mt (PyStr "update")); simpl; [|done].
  destruct (py_getitem event "update_type") as [ut|]; simpl; [|done].
  rewrite Hreg. destruct (registration c) as [reg|]; simpl; [|done].
  by destruct (py_getitem reg "for_types").
Qed.

(** For string tags, [in] on a list is membership. *)
Lemma py_contains_tags (t : string) (ts : list string) :
  py_contains (PyStr t) (PyList (map PyStr ts)) = Ok true <-> t ∈ ts.
Proof.
  simpl. split.
  - intros [= Hex]. apply existsb_exists in Hex as (x & Hin & Heq).
    apply in_map_iff in Hin as (a & <- & Hin). simpl in Heq.
    apply String.eqb_eq in Heq as ->. by apply list_elem_of_In.
  - intros Hin. f_equal. apply existsb_exists. exists (PyStr t). split.
    + apply in_map_iff. exists t. split; [done|]. by apply list_elem_of_In.
    + simpl. apply String.eqb_refl.
Qed.

(** A client subscribed to nothing wants no update event. *)
Lemma wants_empty_subscription event tag c msg :
  is_update event tag ->
  registration c = Some msg ->
  py_getitem msg "for_types" = Ok (PyList []) ->
  wants c event = Ok false.
Proof.
  intros Hupd Hreg Hft. by rewrite (wants_subscription event tag c Hupd), Hreg, Hft.
Qed.

Lemma accepts_registration event c c' :
  registration c' = registration c -> accepts c' event = accepts c event.
Proof. intros Hreg. unfold accepts. by rewrite (wants_registration event c c' Hreg). Qed.
End Subscription.

(** ** One pass of the dispatch loop over the clients *)

Section Loop.
Context {socket : Type} {T : Transport socket} {P : Pickle}.
Implicit Types (c : @ClientHandler socket) (event tag : pyval).
Implicit Types (cs : list (@ClientHandler socket)) (lg : list logrec).

Lemma send_event_eq event c lg :
  send_event event {| self := c; logged := lg |} =
  (match fst (sock_send (sock (handler_chan c)) (dumps event)) with
   | Ok _ => Ok tt
   | Raise x => Raise x
   end,
   {| self := after_send c (dumps event) (snd (sock_send (sock (handler_chan c)) (dumps event)));
      logged := lg ++ [sending_line event] |}).
Proof.
  unfold send_event, bind, log_call, send, after_send; simpl.
  by destruct (sock_send _ _) as [r sk].
Qed.

Lemma dispatch_eq event c lg :
  dispatch event {| self := c; logged := lg |} =
  match wants c event with
  | Ok true => send_event event {| self := c; logged := lg |}
  | Ok false => (Ok tt, {| self := c; logged := lg |})
  | Raise x => (Raise x, {| self := c; logged := lg |})
  end.
Proof.
  unfold dispatch, bind. rewrite wanted_pure; simpl.
  by destruct (wants c event) as [[]|].
Qed.

Lemma served_touched event c c' : served event c c' -> touched event c c'.
Proof. intros [Hreg [H|[H _]]]; split; auto. Qed.

Lemma touched_refl event c : touched event c c.
Proof. split; auto. Qed.

Lemma dispatch_touched event c lg r s :
  dispatch event {| self := c; logged := lg |} = (r, s) ->
  touched event c (self s).
Proof.
  rewrite dispatch_eq. destruct (wants c event) as [[]|] eqn:Hw.
  - rewrite send_event_eq. intros [= _ <-]; simpl. split; [done|]. left. done.
  - intros [= _ <-]. apply touched_refl.
  - intros [= _ <-]. apply touched_refl.
Qed.

Lemma dispatch_served event c lg s :
  dispatch event {| self := c; logged := lg |} = (Ok tt, s) ->
  served event c (self s).
Proof.
  rewrite dispatch_eq. destruct (wants c event) as [[]|] eqn:Hw.
  - rewrite send_event_eq. intros [= _ <-]; simpl. split; [done|]. left. done.
  - intros [= <-]; simpl. split; [done|]. right. done.
  - intros [=].
Qed.

Lemma dispatch_passes event c lg :
  passes event c ->
  exists s, dispatch event {| self := c; logged := lg |} = (Ok tt, s).
Proof.
  intros (hit & Hw & Hsend). rewrite dispatch_eq, Hw. destruct hit.
  - destruct (Hsend eq_refl) as [n Hn]. rewrite send_event_eq, Hn. eauto.
  - eauto.
Qed.

Lemma dispatch_stops event c lg x :
  stops event c x ->
  exists s, dispatch event {| self := c; logged := lg |} = (Raise x, s) /\
            (wants c event = Ok true -> handed event c (self s)) /\
            (wants c event = Raise x -> self s = c).
Proof.
  intros [Hw|[Hw Hsend]]; rewrite dispatch_eq, Hw.
  - eexists; split; [done|]. split; [done|]. done.
  - unfold send_raises in Hsend. rewrite send_event_eq, Hsend.
    eexists; split; [done|]; simpl. split; [done|]. done.
Qed.

(** Whatever the outcome of the pass, no client is handed an event it
    does not want, and none is handed it twice. *)
Lemma for_client_in_touched event cs : forall lg r cs' lg',
  for_client_in (dispatch event) cs lg = (r, (cs', lg')) ->
  Forall2 (touched event) cs cs'.
Proof.
  induction cs as [|c rest IH]; intros lg r cs' lg'; simpl.
  - intros [= _ <- _]. constructor.
  - destruct (dispatch event _) as [[[]|x] s] eqn:Hd.
    + destruct (for_client_in _ rest _) as [r0 [rest' lg0]] eqn:Hrest.
      intros [= _ <- _]. constructor; eauto using dispatch_touched.
    + intros [= _ <- _]. constructor; eauto using dispatch_touched.
      apply Forall_Forall2_diag, Forall_forall. intros; apply touched_refl.
Qed.

(** A pass that completes has served every client. *)
Lemma for_client_in_served event cs : forall lg cs' lg',
  for_client_in (dispatch event) cs lg = (Ok tt, (cs', lg')) ->
  Forall2 (served event) cs cs'.
Proof.
  induction cs as [|c rest IH]; intros lg cs' lg'; simpl.
  - intros [= <- _]. constructor.
  - destruct (dispatch event _) as [[[]|x] s] eqn:Hd; [|done].
    destruct (for_client_in _ rest _) as [r0 [rest' lg0]] eqn:Hrest.
    intros [= -> <- _]. constructor; eauto using dispatch_served.
Qed.

(** The pass completes when nothing stops it at any client. *)
Lemma for_client_in_passes event cs : forall lg,
  Forall (passes event) cs ->
  exists cs' lg', for_client_in (dispatch event) cs lg = (Ok tt, (cs', lg')).
Proof.
  induction cs as [|c rest IH]; intros lg Hall; simpl; [eauto|].
  apply Forall_cons in Hall as [Hc Hrest].
  destruct (dispatch_passes event c lg Hc) as [s ->].
  destruct (IH (logged s) Hrest) as (rest' & lg' & ->). eauto.
Qed.

(** The pass ends at the first client that stops it: the clients before
    it have been served, the clients after it are as they were. *)
Lemma for_client_in_stops event pre c post x : forall lg,
  Forall (passes event) pre ->
  stops event c x ->
  exists pre' c' lg',
    for_client_in (dispatch event) (pre ++ c :: post) lg
      = (Raise x, (pre' ++ c' :: post, lg')) /\
    Forall2 (served event) pre pre' /\
    (wants c event = Ok true -> handed event c c') /\
    (wants c event = Raise x -> c' = c).
Proof.
  induction pre as [|p pre IH]; intros lg Hall Hstop; simpl.
  - destruct (dispatch_stops event c lg x Hstop) as (s & -> & Hh & Hsame).
    exists [], (self s), (logged s). split; [done|]. split; [constructor|done].
  - apply Forall_cons in Hall as [Hp Hpre].
    destruct (dispatch_passes event p lg Hp) as [s Hs]. rewrite Hs.
    destruct (IH (logged s) Hpre Hstop) as (pre' & c' & lg' & -> & Hserved & Hh).
    exists (self s :: pre'), c', lg'. split; [done|].
    split; [|done]. constructor; eauto using dispatch_served.
Qed.

(** The pass changes nothing when no client wants the event. *)
Lemma for_client_in_unwanted event cs lg :
  Forall (fun c => wants c event = Ok false) cs ->
  for_client_in (dispatch event) cs lg = (Ok tt, (cs, lg)).
Proof.
  induction 1 as [|c rest Hc _ IH]; simpl; [done|].
  rewrite dispatch_eq, Hc; simpl. by rewrite IH.
Qed.
End Loop.


(** ** Reading from a connection *)

Section Reading.
Context {socket : Type} {T : Transport socket} {P : Pickle}.
Context {screen : Type} {V : View screen}.
Implicit Types (c : @ClientHandler socket) (msg tag : pyval) (lg : list logrec).

Lemma not_blank (data : string) :
  strip data <> "" -> negb (String.eqb (strip data) "") = true.
Proof. intros Hne. by apply negb_true_iff, String.eqb_neq. Qed.

(** A chunk that is not blank and that [pickle.loads] rejects: the
    [except] branch logs the error, and the statement after the [try]
    then reads [msg], which was never assigned. *)
Lemma handle_read_undecodable c lg data sk :
  sock_recv (sock (handler_chan c)) READ_MAX = (Ok data, sk) ->
  strip data <> "" ->
  loads data = None ->
  handle_read {| self := c; logged := lg |} =
  (Raise (UnboundLocalError "msg"),
   {| self := after_recv c READ_MAX sk;
      logged := lg ++ [received_line data; invalid_line data] |}).
Proof.
  intros Hrecv Hdata Hloads.
  unfold handle_read, bind at 1, recv; simpl. rewrite Hrecv; simpl.
  rewrite (not_blank data Hdata).
  unfold bind, try_except, log_call, local, raise, ret; simpl. rewrite Hloads; simpl.
  by rewrite <- app_assoc.
Qed.

(** A chunk that carries a subscribe message: the message becomes the
    registration. *)
Lemma handle_read_subscribe c lg data sk msg for_types :
  sock_recv (sock (handler_chan c)) READ_MAX = (Ok data, sk) ->
  carries data msg ->
  is_subscribe msg for_types ->
  handle_read {| self := c; logged := lg |} =
  (Ok tt,
   {| self := {| handler_chan := handler_chan (after_recv c READ_MAX sk);
                 registration := Some msg |};
      logged := lg ++ [received_line data; registering_line for_types] |}).
Proof.
  intros Hrecv [Hdata Hloads] (mt & Hmt & Hreg & Hft).
  unfold handle_read, bind at 1, recv; simpl. rewrite Hrecv; simpl.
  rewrite (not_blank data Hdata).
  unfold bind, try_except, log_call, local, raise, ret, lift, handle_register,
    set_registration; simpl.
  rewrite Hloads; simpl. rewrite Hmt; simpl. rewrite Hreg, Hft; simpl.
  unfold bind, lift, log_call; simpl. by rewrite <- app_assoc.
Qed.

(** [handle_read] calls [recv] once, for [READ_MAX] bytes, and makes no
    other call on the socket. *)
Lemma handle_read_calls (s : Env (@ClientHandler socket)) :
  calls (handler_chan (self (snd (handle_read s)))) =
  calls (handler_chan (self s)) ++ [Recv READ_MAX].
Proof.
  unfold handle_read, bind at 1, recv; simpl.
  destruct (sock_recv _ _) as [[data|x] sk]; simpl; [|done].
  destruct (negb _); simpl; [|done].
  unfold bind, try_except, log_call, local, raise, ret, lift, handle_register,
    set_registration; simpl.
  destruct (loads data) as [msg|]; simpl; [|done].
  destruct (py_getitem msg "msg_type") as [mt|]; simpl; [|done].
  destruct (py_eq mt _); simpl.
  - by destruct (py_getitem msg "for_types").
  - by destruct (py_add_str _ mt).
Qed.

Lemma Client_handle_read_calls (s : Env (@Client socket screen)) :
  calls (client_chan (self (snd (Client_handle_read s)))) =
  calls (client_chan (self s)) ++ [Recv READ_MAX].
Proof.
  unfold Client_handle_read, bind at 1, recv; simpl.
  destruct (sock_recv _ _) as [[data|x] sk]; simpl; [|done].
  unfold bind, try_except, log_call, local, raise, ret, render; simpl.
  destruct (loads data) as [msg|]; simpl; destruct (view (self s)) as [v|]; simpl;
    try done.
  by destruct (view_render v msg).
Qed.

Lemma registered_subscription c msg for_types :
  registration c = Some msg -> is_subscribe msg for_types ->
  subscription c = Some for_types.
Proof.
  intros Hreg (mt & _ & _ & Hft). unfold subscription. by rewrite Hreg, Hft.
Qed.

Lemma member_subscription tag c for_types :
  subscription c = Some for_types ->
  (member tag c <-> py_contains tag for_types = Ok true).
Proof.
  intros Hsub. unfold member. rewrite Hsub. split.
  - by intros (ft & [= <-] & Hin).
  - intros Hin. by exists for_types.
Qed.

Lemma handle_reads_S (n : nat) (s : Env (@ClientHandler socket)) :
  handle_reads (S n) s =
  match handle_read s with
  | (Ok _, s') => handle_reads n s'
  | (Raise x, s') => (Raise x, s')
  end.
Proof. reflexivity. Qed.

(** C5. After a sequence of subscribe messages has been read on a
    connection, one chunk each, the registration of the connection is the
    last message of the sequence, whatever the messages before it: its
    subscription is the [for_types] of the last message, and a tag is in
    the subscription if and only if it is in that [for_types]. *)
Theorem last_subscribe_wins (chunks : list string) :
  forall (msgs : list pyval) c lg (data : string) msg (for_types : pyval),
  arrive (sock (handler_chan c)) (chunks ++ [data]) ->
  Forall2 (fun d m => carries d m /\ exists ft, is_subscribe m ft) chunks msgs ->
  carries data msg ->
  is_subscribe msg for_types ->
  exists s,
    handle_reads (S (length chunks)) {| self := c; logged := lg |} = (Ok tt, s) /\
    registration (self s) = Some msg /\
    subscription (self s) = Some for_types /\
    forall tag, member tag (self s) <-> py_contains tag for_types = Ok true.
Proof.
  induction chunks as [|d rest IH]; intros msgs c lg data msg for_types Harr Hall Hdata Hsub.
  - destruct Harr as (sk & Hrecv & _).
    rewrite handle_reads_S, (handle_read_subscribe c lg data sk msg for_types Hrecv Hdata Hsub).
    eexists. split; [reflexivity|]. simpl. split; [done|].
    assert (subscription {| handler_chan := handler_chan (after_recv c READ_MAX sk);
                            registration := Some msg |} = Some for_types) as Hs
      by (by apply (registered_subscription _ msg)).
    split; [exact Hs|]. intros tag. by apply member_subscription.
  - destruct Harr as (sk & Hrecv & Harr).
    apply Forall2_cons_inv_l in Hall as (m & msgs' & [Hd [ft Hm]] & Hall & ->).
    rewrite handle_reads_S, (handle_read_subscribe c lg d sk m ft Hrecv Hd Hm).
    by apply (IH msgs' _ _ data msg for_types).
Qed.

(** C9 (amended). Each call of [handle_read], on the server side and on
    the client side, makes one call on its socket: [recv] for [READ_MAX]
    bytes, the same constant on both sides; [READ_MAX] is [0xFFFF], that
    is 65535 bytes, one byte less than 64 KiB. *)
Theorem reads_request_READ_MAX :
  READ_MAX = 64 * 1024 - 1 /\
  (forall s : Env (@ClientHandler socket),
     calls (handler_chan (self (snd (handle_read s)))) =
     calls (handler_chan (self s)) ++ [Recv READ_MAX]) /\
  (forall s : Env (@Client socket screen),
     calls (client_chan (self (snd (Client_handle_read s)))) =
     calls (client_chan (self s)) ++ [Recv READ_MAX]).
Proof.
  split; [reflexivity|]. split; [apply handle_read_calls | apply Client_handle_read_calls].
Qed.
End Reading.


(** ** The broker *)

Section Broker.
Context {socket : Type} {T : Transport socket} {P : Pickle}.
Implicit Types (c : @ClientHandler socket) (event tag : pyval).
Implicit Types (w : @World socket).

Lemma handed_irrefl event c : ~ handed event c c.
Proof.
  unfold handed. intros Heq. apply (f_equal length) in Heq.
  rewrite length_app in Heq; simpl in Heq. lia.
Qed.

Lemma fan_out_eq event w :
  fan_out event w =
  (fst (for_client_in (dispatch event) (clients w) (wlog w)),
   {| clients := fst (snd (for_client_in (dispatch event) (clients w) (wlog w)));
      queue := queue w;
      wlog := snd (snd (for_client_in (dispatch event) (clients w) (wlog w))) |}).
Proof. unfold fan_out. by destruct (for_client_in _ _ _) as [r [cs lg]]. Qed.

(** The loop body puts nothing on the queue, which is what lets [drain]
    recurse on the content of the queue. *)
Lemma fan_out_queue event w : queue (snd (fan_out event w)) = queue w.
Proof. by rewrite fan_out_eq. Qed.

Lemma passes_subscribed event tag c :
  is_update event tag ->
  subscribed tag c -> send_returns c (dumps event) -> passes event c.
Proof.
  intros Hupd Hsub Hsend. destruct (wants_subscribed event tag c Hupd Hsub) as [hit Hw].
  exists hit. auto.
Qed.

Lemma fan_out_touched event w r w' :
  fan_out event w = (r, w') ->
  Forall2 (touched event) (clients w) (clients w') /\ queue w' = queue w.
Proof.
  rewrite fan_out_eq. destruct (for_client_in _ _ _) as [r0 [cs lg]] eqn:Hloop; simpl.
  intros [= _ <-]; simpl. eauto using for_client_in_touched.
Qed.

Lemma fan_out_served event w w' :
  fan_out event w = (Ok tt, w') -> Forall2 (served event) (clients w) (clients w').
Proof.
  rewrite fan_out_eq. destruct (for_client_in _ _ _) as [r0 [cs lg]] eqn:Hloop; simpl.
  intros [= -> <-]; simpl. eauto using for_client_in_served.
Qed.

Lemma fan_out_unwanted event w :
  Forall (fun c => wants c event = Ok false) (clients w) ->
  fan_out event w = (Ok tt, w).
Proof.
  intros Hall. rewrite fan_out_eq, (for_client_in_unwanted event _ _ Hall); simpl.
  by destruct w.
Qed.

Lemma accepts_served event c c' :
  served event c c' ->
  calls (handler_chan c') =
  calls (handler_chan c) ++ sends (List.filter (accepts c) [event]).
Proof.
  intros [_ [[Hh Hw]|[-> Hw]]]; unfold accepts; simpl; rewrite Hw; simpl.
  - exact Hh.
  - by rewrite app_nil_r.
Qed.

(** The events that have gone to a client when the inner loop ends are
    the ones it accepts among a prefix of the queue, in the order of the
    queue; the whole queue when the loop ends without an exception. *)
Lemma drain_deliveries (q : list pyval) : forall w r w' (i : nat) c,
  drain q w = (r, w') ->
  clients w !! i = Some c ->
  exists c' gone,
    clients w' !! i = Some c' /\
    registration c' = registration c /\
    gone `prefix_of` q /\
    calls (handler_chan c') =
      calls (handler_chan c) ++ sends (List.filter (accepts c) gone) /\
    (r = Ok tt -> gone = q).
Proof.
  induction q as [|event rest IH]; intros w r w' i c; simpl.
  - intros [= <- <-] Hi. exists c, []. rewrite app_nil_r. done.
  - destruct (fan_out event _) as [[[]|x] w1] eqn:Hfan.
    + intros Hdrain Hi.
      pose proof (fan_out_served _ _ _ Hfan) as Hserved.
      destruct (Forall2_lookup_l _ _ _ _ _ Hserved Hi) as (c1 & Hi1 & Hc1).
      destruct (IH _ _ _ _ _ Hdrain Hi1) as (c' & gone & Hi' & Hreg & Hpre & Hcalls & Hall).
      exists c', (event :: gone). split; [done|].
      split; [destruct Hc1; congruence|].
      split; [by apply prefix_cons|]. split; [|intros ?; f_equal; auto].
      rewrite Hcalls, (accepts_served _ _ _ Hc1).
      rewrite (List.filter_ext _ _ (fun e => accepts_registration e c c1 (proj1 Hc1))).
      change (event :: gone) with ([event] ++ gone).
      unfold sends. by rewrite List.filter_app, map_app, app_assoc.
    + intros [= <- <-] Hi.
      destruct (fan_out_touched _ _ _ _ Hfan) as [Htouched _].
      destruct (Forall2_lookup_l _ _ _ _ _ Htouched Hi) as (c1 & Hi1 & Hreg & Hc1).
      destruct Hc1 as [[Hh Hw]| ->].
      * exists c1, [event]. split; [done|]. split; [done|].
        split; [apply prefix_cons, prefix_nil|]. split; [|done].
        unfold accepts; simpl. by rewrite Hw.
      * exists c, []. split; [done|]. split; [done|].
        split; [apply prefix_nil|]. split; [|done]. by rewrite app_nil_r.
Qed.

Lemma drain_queue (q : list pyval) : forall w w',
  queue w = q -> drain q w = (Ok tt, w') -> queue w' = [].
Proof.
  induction q as [|event rest IH]; intros w w' Hq; simpl.
  - by intros [= <-].
  - destruct (fan_out event _) as [[[]|x] w1] eqn:Hfan; [|done].
    apply IH. by destruct (fan_out_touched _ _ _ _ Hfan) as [_ ->].
Qed.

(** C1 (amended). For an update event and every live connection, the
    pass of the dispatch loop over the clients hands the event to the
    connection (one [send] of the pickled event) only if the event's
    [update_type] is in the connection's [for_types]; when the pass
    completes, it hands it if and only if it is; a connection that is not
    handed the event is left as it was.  The pass completes when every
    connection has a subscription and no [send] raises. *)
Theorem dispatch_sends_iff_subscribed w event tag r w' :
  is_update event tag ->
  fan_out event w = (r, w') ->
  (forall i c, clients w !! i = Some c ->
     exists c', clients w' !! i = Some c' /\
       (handed event c c' \/ c' = c) /\
       (handed event c c' -> member tag c) /\
       (r = Ok tt -> (handed event c c' <-> member tag c))) /\
  (Forall (fun c => subscribed tag c /\ send_returns c (dumps event)) (clients w) ->
   r = Ok tt).
Proof.
  intros Hupd. rewrite fan_out_eq.
  destruct (for_client_in _ _ _) as [r0 [cs lg]] eqn:Hloop; simpl.
  intros [= <- <-]; simpl. split.
  - intros i c Hi.
    pose proof (for_client_in_touched _ _ _ _ _ _ Hloop) as Htouched.
    destruct (Forall2_lookup_l _ _ _ _ _ Htouched Hi) as (c' & Hi' & Hreg & Hc').
    exists c'. split; [done|]. split; [destruct Hc' as [[Hh _]|Hc']; auto|].
    split.
    + intros Hh. destruct Hc' as [[_ Hw]| ->].
      * by apply (wants_member event tag c Hupd).
      * by apply handed_irrefl in Hh.
    + intros ->. split.
      * intros Hh. destruct Hc' as [[_ Hw]| ->].
        -- by apply (wants_member event tag c Hupd).
        -- by apply handed_irrefl in Hh.
      * intros Hmem. apply (wants_member event tag c Hupd) in Hmem.
        pose proof (for_client_in_served _ _ _ _ _ Hloop) as Hserved.
        destruct (Forall2_lookup_l _ _ _ _ _ Hserved Hi) as (c'' & Hi'' & _ & Hc'').
        rewrite Hi' in Hi''. injection Hi'' as <-.
        destruct Hc'' as [[Hh _]|[_ Hw]]; [done|congruence].
  - intros Hall.
    assert (Forall (passes event) (clients w)) as Hpass.
    { eapply Forall_impl; [exact Hall|]. intros c [Hsub Hsend].
      by apply (passes_subscribed event tag). }
    destruct (for_client_in_passes event (clients w) (wlog w) Hpass) as (cs' & lg' & Heq).
    congruence.
Qed.
(** C6. Whatever the order in which events are put on the queue and the
    queue is processed, the events handed to one connection are, in the
    order of its [send] calls, the events it accepts among a prefix of the
    events put, in the order they were put; when the server thread has not
    been stopped by an exception, the prefix is all the events that have
    left the queue. *)
Theorem deliveries_follow_put_order schedule : forall w r w' (i : nat) c,
  serve schedule w = (r, w') ->
  clients w !! i = Some c ->
  exists c' gone,
    clients w' !! i = Some c' /\
    gone `prefix_of` (queue w ++ produced schedule) /\
    calls (handler_chan c') =
      calls (handler_chan c) ++ sends (List.filter (accepts c) gone) /\
    (r = Ok tt -> gone ++ queue w' = queue w ++ produced schedule).
Proof.
  induction schedule as [|[event|] rest IH]; intros w r w' i c; simpl.
  - intros [= <- <-] Hi. exists c, []. simpl. rewrite !app_nil_r.
    split; [done|]. split; [apply prefix_nil|]. split; [reflexivity|intros; reflexivity].
  - unfold bind at 1, put at 1. intros Hrun Hi.
    destruct (IH _ _ _ i c Hrun Hi) as (c' & gone & Hi' & Hpre & Hcalls & Hall).
    simpl in Hpre, Hall. rewrite <- app_assoc in Hpre, Hall.
    by exists c', gone.
  - unfold bind at 1, process_queue.
    destruct (drain (queue w) w) as [[[]|x] w1] eqn:Hdrain.
    + intros Hrun Hi.
      destruct (drain_deliveries _ _ _ _ _ _ Hdrain Hi)
        as (c1 & gone1 & Hi1 & Hreg1 & _ & Hcalls1 & Hall1).
      rewrite (Hall1 eq_refl) in Hcalls1.
      destruct (IH _ _ _ _ _ Hrun Hi1) as (c' & gone & Hi' & Hpre & Hcalls & Hall).
      rewrite (drain_queue _ _ _ eq_refl Hdrain) in Hpre, Hall. simpl in Hpre, Hall.
      exists c', (queue w ++ gone). split; [done|].
      split; [by apply prefix_app|]. split.
      * rewrite Hcalls, Hcalls1.
        rewrite (List.filter_ext _ _ (fun e => accepts_registration e c c1 Hreg1)).
        unfold sends. by rewrite List.filter_app, map_app, app_assoc.
      * intros Hr. by rewrite <- app_assoc, (Hall Hr).
    + intros [= <- <-] Hi.
      destruct (drain_deliveries _ _ _ _ _ _ Hdrain Hi)
        as (c1 & gone1 & Hi1 & _ & Hpre1 & Hcalls1 & _).
      exists c1, gone1. split; [done|]. split; [by apply prefix_app_r|]. done.
Qed.

(** C10. An event whose [msg_type] is not [update] is handed to no
    client: the pass over the clients leaves every client, and the log, as
    they were, and processing a queue that starts with the event is
    processing the rest of the queue. *)
Theorem other_event_is_dropped w event msg_type rest :
  py_getitem event "msg_type" = Ok msg_type ->
  py_eq msg_type (PyStr "update") = false ->
  queue w = event :: rest ->
  fan_out event w = (Ok tt, w) /\
  process_queue w =
  process_queue {| clients := clients w; queue := rest; wlog := wlog w |}.
Proof.
  intros Hmt Hne Hq.
  assert (forall w0, fan_out event w0 = (Ok tt, w0)) as Hdrop.
  { intros w0. apply fan_out_unwanted, Forall_forall. intros c _.
    eapply wants_not_update; eauto. }
  split; [apply Hdrop|].
  unfold process_queue. rewrite Hq; simpl. by rewrite Hdrop.
Qed.
Lemma passes_member event tag c :
  is_update event tag ->
  subscribed tag c ->
  (member tag c -> send_returns c (dumps event)) ->
  passes event c.
Proof.
  intros Hupd Hsub Hsend. destruct (wants_subscribed event tag c Hupd Hsub) as [hit Hw].
  exists hit. split; [done|]. intros ->. by apply Hsend, (wants_member event tag c Hupd).
Qed.

(** The pass over the clients ends at a client that has no
    [registration]: the clients after it are not visited. *)
Lemma unregistered_client_stops_loop w event tag pre c post :
  is_update event tag ->
  clients w = pre ++ c :: post ->
  Forall (passes event) pre ->
  registration c = None ->
  exists pre' lg',
    fan_out event w =
      (Raise (AttributeError "registration"),
       {| clients := pre' ++ c :: post; queue := queue w; wlog := lg' |}) /\
    Forall2 (served event) pre pre'.
Proof.
  intros Hupd Hcs Hpre Hreg.
  pose proof (wants_unregistered event tag c Hupd Hreg) as Hw.
  destruct (for_client_in_stops event pre c post _ (wlog w) Hpre (or_introl Hw))
    as (pre' & c' & lg' & Hloop & Hserved & _ & Hsame).
  rewrite (Hsame Hw) in Hloop.
  exists pre', lg'. split; [|done]. by rewrite fan_out_eq, Hcs, Hloop.
Qed.

(** C4 (amended). In a pass of the dispatch loop over subscribed clients,
    a [send] that returns, whatever became of its socket, does not stop the
    loop: when every [send] returns, the pass completes and every client
    is served.  An exception that [send] raises is not caught: the pass
    ends with it at that client, the clients before it have been served and
    the clients after it are left as they were. *)
Theorem send_error_stops_loop w event tag :
  is_update event tag ->
  Forall (subscribed tag) (clients w) ->
  (Forall (fun c => member tag c -> send_returns c (dumps event)) (clients w) ->
   exists w', fan_out event w = (Ok tt, w') /\
              Forall2 (served event) (clients w) (clients w')) /\
  (forall pre c post x,
     clients w = pre ++ c :: post ->
     Forall (fun p => member tag p -> send_returns p (dumps event)) pre ->
     member tag c ->
     send_raises c (dumps event) x ->
     exists pre' c' lg',
       fan_out event w =
         (Raise x, {| clients := pre' ++ c' :: post; queue := queue w; wlog := lg' |}) /\
       Forall2 (served event) pre pre' /\
       handed event c c').
Proof.
  intros Hupd Hsubs. split.
  - intros Hsend.
    assert (Forall (passes event) (clients w)) as Hpass.
    { apply Forall_forall. intros c Hc.
      apply (passes_member event tag c Hupd).
      - by apply (proj1 (Forall_forall _ _) Hsubs).
      - by apply (proj1 (Forall_forall _ _) Hsend). }
    destruct (for_client_in_passes event _ (wlog w) Hpass) as (cs' & lg' & Hloop).
    eexists. split; [by rewrite fan_out_eq, Hloop|]; simpl.
    eapply for_client_in_served, Hloop.
  - intros pre c post x Hcs Hsend Hmem Hraise.
    assert (Forall (passes event) pre) as Hpass.
    { apply Forall_forall. intros p Hp.
      apply (passes_member event tag p Hupd).
      - apply (proj1 (Forall_forall _ _) Hsubs). rewrite Hcs. apply elem_of_app. by left.
      - by apply (proj1 (Forall_forall _ _) Hsend). }
    pose proof (proj2 (wants_member event tag c Hupd) Hmem) as Hw.
    destruct (for_client_in_stops event pre c post x (wlog w) Hpass
                (or_intror (conj Hw Hraise)))
      as (pre' & c' & lg' & Hloop & Hserved & Hh & _).
    exists pre', c', lg'. split; [by rewrite fan_out_eq, Hcs, Hloop|]. auto.
Qed.
End Broker.

(** The [disasm] event and the two viewers of [Sim.viewers]. *)
Lemma dispatch_sends_iff_subscribed_witness :
  is_update Sim.disasm_event (PyStr "disasm") /\
  (forall (i : nat) c, clients Sim.viewers !! i = Some c ->
     exists c', clients (snd (fan_out (P := Sim.plain) Sim.disasm_event Sim.viewers)) !! i
                = Some c' /\
       (handed (P := Sim.plain) Sim.disasm_event c c' \/ c' = c) /\
       (handed (P := Sim.plain) Sim.disasm_event c c' -> member (PyStr "disasm") c) /\
       (fst (fan_out (P := Sim.plain) Sim.disasm_event Sim.viewers) = Ok tt ->
        (handed (P := Sim.plain) Sim.disasm_event c c' <-> member (PyStr "disasm") c))) /\
  (Forall (fun c => subscribed (PyStr "disasm") c /\
                    send_returns c (dumps (Pickle := Sim.plain) Sim.disasm_event))
          (clients Sim.viewers) ->
   fst (fan_out (P := Sim.plain) Sim.disasm_event Sim.viewers) = Ok tt).
Proof.
  assert (is_update Sim.disasm_event (PyStr "disasm")) as Hupd
    by (exists (PyStr "update"); repeat split; reflexivity).
  split; [exact Hupd|].
  exact (dispatch_sends_iff_subscribed (P := Sim.plain) Sim.viewers
           Sim.disasm_event (PyStr "disasm") _ _ Hupd (surjective_pairing _)).
Defined.

(** ** The code at work *)

Lemma stack_event_is_update : is_update Sim.stack_event (PyStr "stack").
Proof. exists (PyStr "update"). repeat split; reflexivity. Qed.

Lemma subscribed_to_stack (read : list string) (fault : option Z) :
  member (PyStr "stack") (Sim.connection read fault (Some ["stack"])).
Proof. exists (PyList [PyStr "stack"]). split; reflexivity. Qed.

(** C2. A viewer that has connected and not subscribed yet stops the
    server thread at the first update event: the dispatch loop ends with
    [AttributeError], and the viewer behind it in [clients], which has
    subscribed to [stack], is not sent the [stack] event that was taken
    from the queue. *)
Theorem unsubscribed_viewer_stops_server :
  fst (Sim.early_stop Sim.startup) = Raise (AttributeError "registration") /\
  queue (snd (Sim.early_stop Sim.startup)) = [] /\
  exists c, clients (snd (Sim.early_stop Sim.startup)) !! 1%nat = Some c /\
            member (PyStr "stack") c /\
            calls (handler_chan c) = [Recv READ_MAX].
Proof.
  split; [vm_compute; reflexivity|]. split; [vm_compute; reflexivity|].
  eexists. split; [vm_compute; reflexivity|].
  split; [|reflexivity]. exists (PyList [PyStr "stack"]). split; reflexivity.
Qed.

(** C3. A chunk that is no pickle: [handle_read] logs the error and then
    raises [UnboundLocalError] out of the handler, the chunk read and the
    registration left as it was. *)
Theorem garbage_chunk_raises :
  handle_read (P := Sim.plain) Sim.garbled =
  (Raise (UnboundLocalError "msg"),
   {| self := after_recv (self Sim.garbled) READ_MAX
                {| Sim.inbox := []; Sim.fault := None; Sim.closed := false |};
      logged := [received_line "garbage"; invalid_line "garbage"] |}).
Proof.
  apply (handle_read_undecodable (P := Sim.plain) (self Sim.garbled) [] "garbage").
  - reflexivity.
  - vm_compute. discriminate.
  - reflexivity.
Qed.

(** C4, as stated, fails: [send] to the first of two viewers subscribed
    to [stack] raises, the pass over the clients ends with that exception
    and the second viewer is left as it was, not sent the [stack]
    event. *)
Lemma send_error_reaches_loop :
  fst (fan_out (P := Sim.plain) Sim.stack_event Sim.flaky) = Raise (SocketError Sim.ENOBUFS) /\
  exists c, clients Sim.flaky !! 1%nat = Some c /\
            member (PyStr "stack") c /\
            clients (snd (fan_out (P := Sim.plain) Sim.stack_event Sim.flaky)) !! 1%nat
            = Some c.
Proof.
  split; [vm_compute; reflexivity|].
  eexists. split; [reflexivity|]. split; [apply subscribed_to_stack|].
  vm_compute; reflexivity.
Qed.

(** C1, as stated, fails: of three viewers, the first and the third
    subscribed to [stack], the third is not sent the [stack] event when
    [send] to the first raises: it is left as it was. *)
Lemma stack_event_misses_subscriber :
  is_update Sim.stack_event (PyStr "stack") /\
  exists c, clients Sim.crowd !! 2%nat = Some c /\
            member (PyStr "stack") c /\
            clients (snd (fan_out (P := Sim.plain) Sim.stack_event Sim.crowd)) !! 2%nat
            = Some c /\
            ~ handed (P := Sim.plain) Sim.stack_event c c.
Proof.
  split; [apply stack_event_is_update|].
  eexists. split; [reflexivity|]. split; [apply subscribed_to_stack|].
  split; [vm_compute; reflexivity | apply handed_irrefl].
Qed.

(** A peer that is gone does not stop the loop: [send] to the first
    viewer closes its socket and returns, and the second viewer is sent
    the event. *)
Example peer_gone_is_contained :
  fst (fan_out (P := Sim.plain) Sim.stack_event Sim.hung_up) = Ok tt /\
  (calls ∘ handler_chan) <$> clients (snd (fan_out (P := Sim.plain) Sim.stack_event Sim.hung_up))
  = [[Send (Sim.repr Sim.stack_event)]; [Send (Sim.repr Sim.stack_event)]] /\
  (Sim.closed ∘ sock ∘ handler_chan) <$>
    clients (snd (fan_out (P := Sim.plain) Sim.stack_event Sim.hung_up))
  = [true; false].
Proof. repeat split; vm_compute; reflexivity. Qed.

(** The [stack] event and the two viewers of [Sim.flaky]: the pass ends
    at the first with [ENOBUFS], the second is where it was. *)
Lemma send_error_stops_loop_witness :
  exists pre' c' lg',
    fan_out (P := Sim.plain) Sim.stack_event Sim.flaky =
      (Raise (SocketError Sim.ENOBUFS),
       {| clients := pre' ++ c' :: [Sim.connection [] None (Some ["stack"])];
          queue := []; wlog := lg' |}) /\
    Forall2 (served (P := Sim.plain) Sim.stack_event) [] pre' /\
    handed (P := Sim.plain) Sim.stack_event (Sim.connection [] (Some Sim.ENOBUFS) (Some ["stack"])) c'.
Proof.
  assert (Forall (subscribed (PyStr "stack")) (clients Sim.flaky)) as Hsubs.
  { repeat constructor; exists (PyList [PyStr "stack"]), true; split; reflexivity. }
  apply (proj2 (send_error_stops_loop (P := Sim.plain) Sim.flaky Sim.stack_event
                  (PyStr "stack") stack_event_is_update Hsubs)
           [] (Sim.connection [] (Some Sim.ENOBUFS) (Some ["stack"]))
           [Sim.connection [] None (Some ["stack"])] (SocketError Sim.ENOBUFS)).
  - reflexivity.
  - constructor.
  - apply subscribed_to_stack.
  - reflexivity.
Defined.

(** Two subscriptions read in a row, [register, stack] and then
    [stack]. *)
Lemma last_subscribe_wins_witness :
  exists s,
    handle_reads (P := Sim.both) 2 Sim.resubscribing = (Ok tt, s) /\
    registration (self s) = Some (Sim.subscribe ["stack"]) /\
    subscription (self s) = Some (PyList [PyStr "stack"]) /\
    forall tag, member tag (self s) <-> py_contains tag (PyList [PyStr "stack"]) = Ok true.
Proof.
  apply (last_subscribe_wins (P := Sim.both)
           [Sim.repr (Sim.subscribe ["register"; "stack"])]
           [Sim.subscribe ["register"; "stack"]]
           (self Sim.resubscribing) []
           (Sim.repr (Sim.subscribe ["stack"])) (Sim.subscribe ["stack"])
           (PyList [PyStr "stack"])).
  - eexists. split; [vm_compute; reflexivity|].
    eexists. split; [vm_compute; reflexivity|]. exact I.
  - constructor; [|constructor]. split.
    + split; [vm_compute; discriminate | reflexivity].
    + exists (PyList [PyStr "register"; PyStr "stack"]), (PyStr "register").
      repeat split; reflexivity.
  - split; [vm_compute; discriminate | reflexivity].
  - exists (PyStr "register"). repeat split; reflexivity.
Defined.

(** The [stack] viewer of [Sim.viewers] through the two stops of
    [Sim.rounds]. *)
Lemma deliveries_follow_put_order_witness :
  exists c' gone,
    clients (snd (serve (P := Sim.plain) Sim.rounds Sim.viewers)) !! 0%nat = Some c' /\
    gone `prefix_of` (queue Sim.viewers ++ produced Sim.rounds) /\
    calls (handler_chan c') =
      calls (handler_chan (Sim.connection [] None (Some ["stack"]))) ++
      sends (P := Sim.plain)
        (List.filter (accepts (Sim.connection [] None (Some ["stack"]))) gone) /\
    (fst (serve (P := Sim.plain) Sim.rounds Sim.viewers) = Ok tt ->
     gone ++ queue (snd (serve (P := Sim.plain) Sim.rounds Sim.viewers))
     = queue Sim.viewers ++ produced Sim.rounds).
Proof.
  exact (deliveries_follow_put_order (P := Sim.plain) Sim.rounds Sim.viewers _ _ 0%nat
           (Sim.connection [] None (Some ["stack"]))
           (surjective_pairing _) eq_refl).
Defined.

(** C9, as stated, fails: the size that [handle_read] asks [recv] for is
    65535 bytes, not 65536. *)
Lemma READ_MAX_is_not_64KiB :
  READ_MAX <> 65536 /\
  calls (handler_chan (self (snd (handle_read (P := Sim.plain) Sim.garbled))))
  = [Recv 65535].
Proof. split; [discriminate | vm_compute; reflexivity]. Qed.

(** A [ping] message at the head of the queue. *)
Lemma other_event_is_dropped_witness :
  fan_out (P := Sim.plain) Sim.ping Sim.pinged = (Ok tt, Sim.pinged) /\
  process_queue (P := Sim.plain) Sim.pinged =
  process_queue (P := Sim.plain)
    {| clients := clients Sim.pinged; queue := [Sim.stack_event]; wlog := wlog Sim.pinged |}.
Proof.
  exact (other_event_is_dropped (P := Sim.plain) Sim.pinged Sim.ping (PyStr "ping")
           [Sim.stack_event] eq_refl eq_refl eq_refl).
Defined.

(** A viewer subscribed to [stack] is handed the [stack] events only. *)
Example stack_viewer_accepts :
  map (accepts (Sim.connection [] None (Some ["stack"])))
      [Sim.register_event; Sim.disasm_event; Sim.stack_event; Sim.bt_event; Sim.ping]
  = [false; false; true; false; false].
Proof. reflexivity. Qed.

(** After [register, stack] and then [stack], a [register] update is not
    for the viewer. *)
Example resubscribed_viewer_drops_register :
  accepts (self (snd (handle_reads (P := Sim.both) 2 Sim.resubscribing)))
          Sim.register_event = false /\
  accepts (self (snd (handle_reads (P := Sim.both) 2 Sim.resubscribing)))
          Sim.stack_event = true.
Proof. split; vm_compute; reflexivity. Qed.

(** * More of the code *)

(** ** What [handle_read] does with a chunk *)

Section Chunks.
Context {socket : Type} {T : Transport socket} {P : Pickle}.
Implicit Types (c : @ClientHandler socket) (msg tag : pyval) (lg : list logrec).

(** [handle_read] after [recv] returned [data], by the cases of its
    body. *)
Lemma handle_read_cases c lg data sk :
  sock_recv (sock (handler_chan c)) READ_MAX = (Ok data, sk) ->
  handle_read {| self := c; logged := lg |} =
  if negb (String.eqb (strip data) "") then
    match loads data with
    | None =>
        (Raise (UnboundLocalError "msg"),
         {| self := after_recv c READ_MAX sk;
            logged := lg ++ [received_line data; invalid_line data] |})
    | Some msg =>
        match py_getitem msg "msg_type" with
        | Raise x =>
            (Raise x, {| self := after_recv c READ_MAX sk;
                         logged := lg ++ [received_line data] |})
        | Ok msg_type =>
            if py_eq msg_type (PyStr "register") then
              match py_getitem msg "for_types" with
              | Raise x =>
                  (Raise x, {| self := after_recv c READ_MAX sk;
                               logged := lg ++ [received_line data] |})
              | Ok for_types =>
                  (Ok tt,
                   {| self := {| handler_chan := handler_chan (after_recv c READ_MAX sk);
                                 registration := Some msg |};
                      logged := lg ++ [received_line data; registering_line for_types] |})
              end
            else
              match py_add_str "Invalid message type: " msg_type with
              | Raise x =>
                  (Raise x, {| self := after_recv c READ_MAX sk;
                               logged := lg ++ [received_line data] |})
              | Ok line =>
                  (Ok tt,
                   {| self := after_recv c READ_MAX sk;
                      logged := lg ++ [received_line data;
                                       {| lvl := ERROR; text := line; args := [] |}] |})
              end
        end
    end
  else (Ok tt, {| self := after_recv c READ_MAX sk; logged := lg |}).
Proof.
  intros Hrecv. unfold handle_read, bind at 1, recv; simpl. rewrite Hrecv; simpl.
  destruct (negb _); [|reflexivity].
  unfold bind, try_except, log_call, local, raise, ret, lift, handle_register,
    set_registration; simpl.
  destruct (loads data) as [msg|]; simpl; [|by rewrite <- app_assoc].
  destruct (py_getitem msg "msg_type") as [mt|]; simpl; [|done].
  destruct (py_eq mt _); simpl.
  - destruct (py_getitem msg "for_types"); simpl; [|done].
    unfold bind, lift, log_call; simpl. by rewrite <- app_assoc.
  - destruct (py_add_str _ mt); simpl; [|done].
    unfold bind, lift, log_call; simpl. by rewrite <- app_assoc.
Qed.

(** X1. When the chunk that [handle_read] reads is not blank and
    unpickles to a subscribe message (a dictionary whose [msg_type] is
    [register] and that has [for_types]), the handler returns and that
    message is the registration of the connection; in every other case
    the registration is left as it was: a message of another kind, a
    [register] message without [for_types], garbage or a blank chunk never
    change a subscription. *)
Theorem handle_read_registration (s : Env (@ClientHandler socket)) :
  (forall data msg for_types,
     fst (sock_recv (sock (handler_chan (self s))) READ_MAX) = Ok data ->
     carries data msg ->
     is_subscribe msg for_types ->
     fst (handle_read s) = Ok tt /\
     registration (self (snd (handle_read s))) = Some msg) /\
  (registration (self (snd (handle_read s))) = registration (self s) \/
   exists data msg for_types,
     fst (sock_recv (sock (handler_chan (self s))) READ_MAX) = Ok data /\
     carries data msg /\
     is_subscribe msg for_types).
Proof.
  destruct s as [c lg]; simpl.
  destruct (sock_recv (sock (handler_chan c)) READ_MAX) as [[data|x] sk] eqn:Hrecv.
  - split.
    + intros data' msg for_types [= <-] Hcarries Hsub.
      by rewrite (handle_read_subscribe c lg data sk msg for_types Hrecv Hcarries Hsub).
    + rewrite (handle_read_cases c lg data sk Hrecv).
      destruct (negb (String.eqb (strip data) "")) eqn:Hblank; [|by left].
      destruct (loads data) as [msg|] eqn:Hloads; [|by left].
      destruct (py_getitem msg "msg_type") as [mt|] eqn:Hmt; [|by left].
      destruct (py_eq mt (PyStr "register")) eqn:Hreg.
      * destruct (py_getitem msg "for_types") as [ft|] eqn:Hft; [|by left].
        right. exists data, msg, ft. simpl. split; [done|].
        split; [|by exists mt].
        split; [|done]. apply negb_true_iff, String.eqb_neq in Hblank. done.
      * destruct (py_add_str _ mt); by left.
  - split; [simpl; by intros ? ? ? [=]|].
    left. unfold handle_read, bind at 1, recv; simpl. by rewrite Hrecv.
Qed.

(** X2. Once [recv] has returned a chunk, [handle_read] returns
    normally exactly when the chunk is blank, or unpickles to a subscribe
    message, or unpickles to a dictionary whose [msg_type] is a string
    other than [register]; every other chunk makes the handler raise. *)
Theorem handle_read_returns c lg (data : string) (sk : socket) :
  sock_recv (sock (handler_chan c)) READ_MAX = (Ok data, sk) ->
  fst (handle_read {| self := c; logged := lg |}) = Ok tt <->
  strip data = "" \/
  exists msg, loads data = Some msg /\
              ((exists for_types, is_subscribe msg for_types) \/
               (exists t, py_getitem msg "msg_type" = Ok (PyStr t) /\ t <> "register")).
Proof.
  intros Hrecv. rewrite (handle_read_cases c lg data sk Hrecv).
  destruct (String.eqb (strip data) "") eqn:Hblank; simpl.
  { apply String.eqb_eq in Hblank. split; [by left|done]. }
  apply String.eqb_neq in Hblank.
  destruct (loads data) as [msg|] eqn:Hloads; simpl.
  2:{ split; [done|]. intros [?|(msg & [=] & _)]; done. }
  destruct (py_getitem msg "msg_type") as [mt|] eqn:Hmt; simpl.
  2:{ split; [done|]. intros [?|(m & [= <-] & [(ft & mt & Hmt' & _)|(t & Hmt' & _)])];
      [done|congruence|congruence]. }
  destruct (py_eq mt (PyStr "register")) eqn:Hreg.
  - destruct (py_getitem msg "for_types") as [ft|] eqn:Hft; simpl.
    + split; [|done]. intros _. right. exists msg. split; [done|]. left.
      exists ft, mt. done.
    + split; [done|]. intros [?|(m & [= <-] & [(ft & mt' & _ & _ & Hft')|(t & Hmt' & Hne)])].
      * done.
      * congruence.
      * rewrite Hmt in Hmt'. injection Hmt' as ->. simpl in Hreg.
        apply String.eqb_eq in Hreg. congruence.
  - destruct mt as [| |t| |]; simpl.
    3:{ split; [|done]. intros _. right. exists msg. split; [done|]. right.
        exists t. split; [done|]. intros ->. by vm_compute in Hreg. }
    all: split; [done|];
      intros [?|(m & [= <-] & [(ft & mt' & Hmt' & Hreg' & _)|(t & Hmt' & _)])];
      [done|congruence|congruence].
Qed.
End Chunks.

(** ** What the server never does *)

Section Invariants.
Context {socket : Type} {T : Transport socket} {P : Pickle}.
Implicit Types (c : @ClientHandler socket) (event tag : pyval) (w : @World socket).

Lemma put_clients event w : clients (snd (put event w)) = clients w.
Proof. reflexivity. Qed.

Lemma stop_handler_clients regs disasm stack bt w :
  clients (snd (stop_handler regs disasm stack bt w)) = clients w.
Proof.
  unfold stop_handler, bind, put, lift; simpl.
  by destruct (py_getitem regs "rsp").
Qed.

Lemma touched_grows event c c' :
  touched event c c' ->
  registration c' = registration c /\
  calls (handler_chan c) `prefix_of` calls (handler_chan c').
Proof.
  intros [Hreg [[Hh _]| ->]]; split; try done.
  rewrite Hh. by apply prefix_app_r.
Qed.

(** The inner loop keeps every client in its place, with its
    registration, and only adds to the calls made on its socket. *)
Lemma drain_clients (q : list pyval) : forall w r w',
  drain q w = (r, w') ->
  Forall2 (fun c c' => registration c' = registration c /\
                       calls (handler_chan c) `prefix_of` calls (handler_chan c'))
          (clients w) (clients w').
Proof.
  induction q as [|event rest IH]; intros w r w'; simpl.
  - intros [= _ <-]. by apply Forall_Forall2_diag, Forall_forall.
  - destruct (fan_out event _) as [[[]|x] w1] eqn:Hfan.
    + intros Hdrain. destruct (fan_out_touched _ _ _ _ Hfan) as [Htouched _].
      simpl in Htouched.
      eapply Forall2_trans; [|eapply Forall2_impl; [exact Htouched|apply touched_grows]|
                              exact (IH _ _ _ Hdrain)].
      intros c c1 c2 [Hr1 Hp1] [Hr2 Hp2]. split; [congruence|by etrans].
    + intros [= _ <-]. destruct (fan_out_touched _ _ _ _ Hfan) as [Htouched _].
      eapply Forall2_impl; [exact Htouched|apply touched_grows].
Qed.

Lemma server_step_clients w w' :
  server_step w w' ->
  forall (i : nat) c, clients w !! i = Some c ->
  exists c', clients w' !! i = Some c' /\
             calls (handler_chan c) `prefix_of` calls (handler_chan c').
Proof.
  intros Hstep i c Hi. destruct Hstep as [w [sk|]|w j|w event|w regs disasm stack bt|w].
  - exists c. split; [|done]. simpl. by apply lookup_app_l_Some.
  - by exists c.
  - unfold readable. destruct (clients w !! j) as [cl|] eqn:Hj; [|by exists c].
    pose proof (handle_read_calls {| self := cl; logged := wlog w |}) as Hcalls.
    destruct (handle_read _) as [r s]; simpl in *.
    destruct (decide (i = j)) as [->|Hne].
    + exists (self s). split.
      * apply list_lookup_insert_eq. by eapply lookup_lt_Some.
      * rewrite Hi in Hj. injection Hj as <-. rewrite Hcalls. by apply prefix_app_r.
    + exists c. split; [|done]. by rewrite list_lookup_insert_ne.
  - by exists c.
  - rewrite stop_handler_clients. by exists c.
  - unfold process_queue. destruct (drain (queue w) w) as [r w'] eqn:Hdrain; simpl.
    destruct (Forall2_lookup_l _ _ _ _ _ (drain_clients _ _ _ _ Hdrain) Hi)
      as (c' & Hi' & _ & Hpre).
    by exists c'.
Qed.

(** X3. The server never removes a connection from [clients] and never
    moves one: whatever it does (accepting, reading, queueing, processing
    the queue), whether the calls return or raise, a connection keeps its
    index in the list, and the calls made on its socket only grow. *)
Theorem clients_are_never_removed w w' :
  rtc server_step w w' ->
  forall (i : nat) c, clients w !! i = Some c ->
  exists c', clients w' !! i = Some c' /\
             calls (handler_chan c) `prefix_of` calls (handler_chan c').
Proof.
  induction 1 as [w|w w1 w' Hstep _ IH]; intros i c Hi.
  - by exists c.
  - destruct (server_step_clients _ _ Hstep i c Hi) as (c1 & Hi1 & Hpre1).
    destruct (IH i c1 Hi1) as (c' & Hi' & Hpre').
    exists c'. split; [done|by etrans].
Qed.

Lemma handle_read_well_registered (s : Env (@ClientHandler socket)) :
  well_registered (self s) -> well_registered (self (snd (handle_read s))).
Proof.
  destruct s as [c lg]; simpl. intros Hc.
  destruct (sock_recv (sock (handler_chan c)) READ_MAX) as [[data|x] sk] eqn:Hrecv.
  - rewrite (handle_read_cases c lg data sk Hrecv).
    destruct (negb _); [|done].
    destruct (loads data) as [msg|]; [|done].
    destruct (py_getitem msg "msg_type") as [mt|] eqn:Hmt; [|done].
    destruct (py_eq mt (PyStr "register")) eqn:Hreg.
    + destruct (py_getitem msg "for_types") as [ft|] eqn:Hft; [|done].
      exists ft, mt. done.
    + by destruct (py_add_str _ mt).
  - unfold handle_read, bind at 1, recv; simpl. by rewrite Hrecv.
Qed.

Lemma server_step_well_registered w w' :
  server_step w w' ->
  Forall well_registered (clients w) -> Forall well_registered (clients w').
Proof.
  intros Hstep Hall. destruct Hstep as [w [sk|]|w j|w event|w regs disasm stack bt|w].
  - simpl. apply Forall_app. split; [done|]. by repeat constructor.
  - done.
  - unfold readable. destruct (clients w !! j) as [cl|] eqn:Hj; [|done].
    pose proof (handle_read_well_registered {| self := cl; logged := wlog w |}) as Hwr.
    destruct (handle_read _) as [r s]; simpl in *.
    apply Forall_insert; [done|]. apply Hwr.
    by apply (proj1 (Forall_lookup _ _) Hall j).
  - done.
  - by rewrite stop_handler_clients.
  - unfold process_queue. destruct (drain (queue w) w) as [r w'] eqn:Hdrain; simpl.
    pose proof (drain_clients _ _ _ _ Hdrain) as Hsame.
    eapply Forall2_Forall_r; [exact Hsame|].
    eapply Forall_impl; [exact Hall|]. intros c Hc c' [Hreg _].
    unfold well_registered. by rewrite Hreg.
Qed.

(** X4. Every registration the server holds is a subscribe message: if
    that is so of the clients of a state, it is so after whatever the
    server does next (it is so at start, when there is no client); hence
    for an update event the condition of the dispatch loop never raises
    [KeyError], and [status] never does either. *)
Theorem registrations_are_subscribe_messages w w' :
  rtc server_step w w' ->
  Forall well_registered (clients w) ->
  Forall well_registered (clients w') /\
  (forall c event tag k,
     c ∈ clients w' -> is_update event tag -> wants c event <> Raise (KeyError k)) /\
  (forall running k, fst (status running (clients w')) <> Raise (KeyError k)).
Proof.
  intros Hrtc Hall.
  assert (Forall well_registered (clients w')) as Hall'.
  { induction Hrtc as [w|w w1 w' Hstep _ IH]; [done|].
    apply IH. by apply (server_step_well_registered w). }
  split; [done|]. split.
  - intros c event tag k Hc Hupd.
    pose proof (proj1 (Forall_forall _ _) Hall' c Hc) as Hwr.
    rewrite (wants_subscription event tag c Hupd). unfold well_registered in Hwr.
    destruct (registration c) as [msg|]; [|done].
    destruct Hwr as (ft & mt & _ & _ & ->).
    unfold py_contains. destruct ft as [| |s|items|d]; try done.
    + by destruct tag.
    + by destruct tag.
  - intros running k. unfold status. destruct running; [|done].
    assert (fst (status_lines (clients w')) <> Raise (KeyError k)) as Hlines.
    { induction Hall' as [|c cs Hc _ IH]; simpl; [done|].
      unfold well_registered in Hc. destruct (registration c) as [msg|]; [|done].
      destruct Hc as (ft & mt & _ & _ & ->).
      by destruct (status_lines cs) as [r out]. }
    by destruct (status_lines (clients w')) as [r out].
Qed.

(** A pass over the clients, and so the inner loop, reads the clients
    and the log of the world, not its queue. *)
Lemma fan_out_frame event w q :
  fan_out event {| clients := clients w; queue := q; wlog := wlog w |} =
  (fst (fan_out event w),
   {| clients := clients (snd (fan_out event w)); queue := q;
      wlog := wlog (snd (fan_out event w)) |}).
Proof. by rewrite !fan_out_eq. Qed.

Lemma drain_frame (q : list pyval) : forall w w0,
  clients w0 = clients w -> wlog w0 = wlog w ->
  fst (drain q w0) = fst (drain q w) /\
  clients (snd (drain q w0)) = clients (snd (drain q w)) /\
  wlog (snd (drain q w0)) = wlog (snd (drain q w)).
Proof.
  induction q as [|event rest IH]; intros w w0 Hcs Hlg; simpl; [done|].
  rewrite Hcs, Hlg.
  destruct (fan_out event _) as [[[]|x] w1]; [|done]. by apply IH.
Qed.

Lemma drain_queue_suffix (q : list pyval) : forall w r w',
  queue w = q ->
  drain q w = (r, w') ->
  exists gone, q = gone ++ queue w' /\
               (r = Ok tt -> queue w' = []) /\
               (forall x, r = Raise x ->
                  exists before event,
                    gone = before ++ [event] /\
                    fst (drain before w) = Ok tt /\
                    fst (fan_out event (snd (drain before w))) = Raise x).
Proof.
  induction q as [|event rest IH]; intros w r w' Hq; simpl.
  - intros [= <- <-]. exists []. by rewrite Hq.
  - destruct (fan_out event _) as [[[]|x] w1] eqn:Hfan.
    + intros Hdrain. destruct (fan_out_touched _ _ _ _ Hfan) as [_ Hq1]. simpl in Hq1.
      destruct (IH _ _ _ Hq1 Hdrain) as (gone & Hgone & Hok & Hraise).
      exists (event :: gone). split; [by rewrite Hgone at 1|].
      split; [done|]. intros x Hx.
      destruct (Hraise x Hx) as (before & last & -> & Hbefore & Hlast).
      exists (event :: before), last. split; [done|]. simpl.
      rewrite fan_out_frame in Hfan. injection Hfan as Hr Hw1.
      rewrite (fan_out_frame event w before).
      destruct (fst (fan_out event w)) as [[]|]; [|done].
      destruct (drain_frame before w1
                  {| clients := clients (snd (fan_out event w)); queue := before;
                     wlog := wlog (snd (fan_out event w)) |})
        as (Hfst & Hcs & Hlg); [by rewrite <- Hw1|by rewrite <- Hw1|].
      rewrite Hfst. split; [done|].
      rewrite fan_out_eq, Hcs, Hlg. by rewrite fan_out_eq in Hlast.
    + intros [= <- <-]. destruct (fan_out_touched _ _ _ _ Hfan) as [_ Hq1]. simpl in Hq1.
      exists [event]. rewrite Hq1. split; [done|]. split; [done|].
      intros x' [= <-]. exists [], event. split; [done|]. split; [done|]. simpl.
      rewrite fan_out_frame in Hfan. by injection Hfan as -> _.
Qed.

(** X5. Processing the queue takes events from its head, one after the
    other: what is left is a suffix of the queue, nothing when the loop
    ends normally.  When an exception ends the loop, the last event taken
    is the one whose pass over the clients raised it, after the passes
    for the events before it had all returned: that event has left the
    queue and is not put back, and what is left are the events behind
    it. *)
Theorem process_queue_takes_from_head w :
  exists gone,
    queue w = gone ++ queue (snd (process_queue w)) /\
    (fst (process_queue w) = Ok tt -> queue (snd (process_queue w)) = []) /\
    (forall x, fst (process_queue w) = Raise x ->
       exists before event,
         gone = before ++ [event] /\
         fst (drain before w) = Ok tt /\
         fst (fan_out event (snd (drain before w))) = Raise x).
Proof.
  unfold process_queue. destruct (drain (queue w) w) as [r w'] eqn:Hdrain.
  exact (drain_queue_suffix (queue w) w r w' eq_refl Hdrain).
Qed.
End Invariants.

(** ** From a viewer to the server and back *)

Section Wire.
Context {socket : Type} {T : Transport socket} {P : Pickle}.
Context {screen : Type} {V : View screen}.
Implicit Types (c : @ClientHandler socket) (event tag : pyval) (lg : list logrec).

(** [Client.register] makes one call on the socket of the client: the
    [send] of the pickled subscribe message. *)
Lemma Client_register_calls (s : Env (@Client socket screen)) :
  calls (client_chan (self (snd (Client_register s)))) =
  calls (client_chan (self s)) ++
  [Send (dumps (PyDict [("msg_type", PyStr "register"); ("for_types", types (self s))]))].
Proof.
  unfold Client_register, bind, log_call, send; simpl.
  by destruct (sock_send _ _) as [r sk].
Qed.

(** X6. What [Client.register] sends is the pickle of a subscribe
    message for the types of the client; when the server reads that chunk
    whole and [pickle.loads] gives the message back, [handle_read] makes it
    the registration of the connection, whose subscription is then the
    types of the client: a tag is in it if and only if it is in them. *)
Theorem viewer_subscription_reaches_handler (sc : Env (@Client socket screen)) c lg
    (sk : socket) (msg : pyval) :
  msg = PyDict [("msg_type", PyStr "register"); ("for_types", types (self sc))] ->
  sock_recv (sock (handler_chan c)) READ_MAX = (Ok (dumps msg), sk) ->
  carries (dumps msg) msg ->
  calls (client_chan (self (snd (Client_register sc)))) =
    calls (client_chan (self sc)) ++ [Send (dumps msg)] /\
  exists s,
    handle_read {| self := c; logged := lg |} = (Ok tt, s) /\
    registration (self s) = Some msg /\
    subscription (self s) = Some (types (self sc)) /\
    forall tag, member tag (self s) <-> py_contains tag (types (self sc)) = Ok true.
Proof.
  intros -> Hrecv Hcarries. split; [apply Client_register_calls|].
  assert (is_subscribe
            (PyDict [("msg_type", PyStr "register"); ("for_types", types (self sc))])
            (types (self sc))) as Hsub
    by (exists (PyStr "register"); repeat split; reflexivity).
  rewrite (handle_read_subscribe c lg _ sk _ _ Hrecv Hcarries Hsub).
  eexists. split; [reflexivity|]. simpl. split; [done|].
  split; [reflexivity|]. intros tag. by apply member_subscription.
Qed.

(** [Client.handle_read] after [recv] returned [data], by the cases of
    its body. *)
Lemma Client_handle_read_cases (s : Env (@Client socket screen)) (data : string) (sk : socket) :
  sock_recv (sock (client_chan (self s))) READ_MAX = (Ok data, sk) ->
  let chan' := {| sock := sk; calls := calls (client_chan (self s)) ++ [Recv READ_MAX] |} in
  Client_handle_read s =
  match loads data, view (self s) with
  | Some msg, Some v =>
      (fst (view_render v msg),
       {| self := {| client_chan := chan'; view := Some (snd (view_render v msg));
                     types := types (self s);
                     rendered := rendered (self s) ++ [msg] |};
          logged := logged s ++ [{| lvl := DEBUG; text := "Received message: ";
                                    args := [ArgVal msg] |}] |})
  | Some msg, None =>
      (Ok tt,
       {| self := {| client_chan := chan'; view := None; types := types (self s);
                     rendered := rendered (self s) |};
          logged := logged s ++ [{| lvl := DEBUG; text := "Received message: ";
                                    args := [ArgVal msg] |}] |})
  | None, Some v =>
      (Raise (UnboundLocalError "msg"),
       {| self := {| client_chan := chan'; view := Some v; types := types (self s);
                     rendered := rendered (self s) |};
          logged := logged s ++ [{| lvl := DEBUG; text := "Invalid message: ";
                                    args := [ArgVal (PyStr data)] |}] |})
  | None, None =>
      (Ok tt,
       {| self := {| client_chan := chan'; view := None; types := types (self s);
                     rendered := rendered (self s) |};
          logged := logged s ++ [{| lvl := DEBUG; text := "Invalid message: ";
                                    args := [ArgVal (PyStr data)] |}] |})
  end.
Proof.
  intros Hrecv. unfold Client_handle_read, bind at 1, recv; simpl. rewrite Hrecv; simpl.
  unfold bind, try_except, log_call, local, raise, ret, render; simpl.
  destruct (loads data) as [msg|]; simpl; destruct (view (self s)) as [v|]; simpl;
    try done.
  by destruct (view_render v msg).
Qed.

(** X7. What [send_event] sends is the pickle of the event; when the
    viewer reads that chunk whole and [pickle.loads] gives the event back,
    [Client.handle_read] hands the event, and nothing else, to [render]
    of its view, and ends as [render] does: the call is its last
    statement and nothing guards it, so it returns when [render] returns
    and raises what [render] raises. *)
Theorem event_reaches_view event c lg (sc : Env (@Client socket screen)) (sk : socket)
    (v : screen) :
  sock_recv (sock (client_chan (self sc))) READ_MAX = (Ok (dumps event), sk) ->
  loads (dumps event) = Some event ->
  view (self sc) = Some v ->
  calls (handler_chan (self (snd (send_event event {| self := c; logged := lg |})))) =
    calls (handler_chan c) ++ [Send (dumps event)] /\
  fst (Client_handle_read sc) = fst (view_render v event) /\
  view (self (snd (Client_handle_read sc))) = Some (snd (view_render v event)) /\
  rendered (self (snd (Client_handle_read sc))) = rendered (self sc) ++ [event].
Proof.
  intros Hrecv Hloads Hview. split; [by rewrite send_event_eq|].
  rewrite (Client_handle_read_cases sc _ sk Hrecv), Hloads, Hview. done.
Qed.

(** X8. Once [recv] has returned a chunk, [Client.handle_read] hands to
    [render] what the chunk unpickles to, if it does and the client has a
    view, and nothing otherwise.  Without a view it returns; with a view
    and a chunk that does not unpickle it raises [UnboundLocalError], [msg]
    never having been assigned; with a view and a message it returns or
    raises as [render] does on the message. *)
Theorem Client_handle_read_outcome (s : Env (@Client socket screen)) (data : string)
    (sk : socket) :
  sock_recv (sock (client_chan (self s))) READ_MAX = (Ok data, sk) ->
  rendered (self (snd (Client_handle_read s))) =
    rendered (self s) ++
    match view (self s), loads data with
    | Some _, Some msg => [msg]
    | _, _ => []
    end /\
  fst (Client_handle_read s) =
    match view (self s), loads data with
    | None, _ => Ok tt
    | Some _, None => Raise (UnboundLocalError "msg")
    | Some v, Some msg => fst (view_render v msg)
    end.
Proof.
  intros Hrecv. rewrite (Client_handle_read_cases s _ sk Hrecv).
  destruct (loads data) as [msg|], (view (self s)) as [v|]; simpl; by rewrite ?app_nil_r.
Qed.
End Wire.

(** ** The debugger side *)

Section Debugger.
Context {socket : Type} {T : Transport socket} {P : Pickle} {G : Gdb}.
Implicit Types (w : @World socket) (vals : list (string * pyval)).

Lemma assoc_setitem_eq vals (k : string) (v : pyval) :
  assoc k (py_setitem vals k v) = Some v.
Proof.
  induction vals as [|[k' v'] rest IH]; simpl.
  - by rewrite String.eqb_refl.
  - destruct (String.eqb k k') eqn:Hk; simpl; rewrite ?String.eqb_refl, ?Hk; done.
Qed.

Lemma assoc_setitem_ne vals (k k' : string) (v : pyval) :
  k' <> k -> assoc k' (py_setitem vals k v) = assoc k' vals.
Proof.
  intros Hne. induction vals as [|[k0 v0] rest IH]; simpl.
  - by rewrite (proj2 (String.eqb_neq _ _) Hne).
  - destruct (String.eqb k k0) eqn:Hk; simpl.
    + apply String.eqb_eq in Hk as <-. by rewrite (proj2 (String.eqb_neq _ _) Hne).
    + by rewrite IH.
Qed.

(** What [get_registers] stores for the register [reg]. *)
Lemma read_registers_spec (names : list string) : forall vals w,
  NoDup names ->
  exists vals' lg',
    read_registers names vals w =
      (Ok vals', {| clients := clients w; queue := queue w; wlog := lg' |}) /\
    (forall k, k ∉ names -> assoc k vals' = assoc k vals) /\
    (forall reg, reg ∈ names ->
       assoc reg vals' =
       Some (match eval_int ("(long long)$" +:+ reg) with
             | Some v => PyInt (Z.land v 0xFFFFFFFFFFFFFFFF)
             | None => PyStr "N/A"
             end)).
Proof.
  induction names as [|reg rest IH]; intros vals w Hnd; simpl.
  - exists vals, (wlog w). destruct w. split; [done|]. split; [done|].
    intros reg Hin. by apply elem_of_nil in Hin.
  - apply NoDup_cons in Hnd as [Hreg Hnd].
    destruct (eval_int _) as [v|] eqn:Hv.
    + destruct (IH (py_setitem vals reg (PyInt (Z.land v 0xFFFFFFFFFFFFFFFF))) w Hnd)
        as (vals' & lg' & -> & Hout & Hin).
      exists vals', lg'. split; [done|]. split.
      * intros k Hk. apply not_elem_of_cons in Hk as [Hne Hk].
        by rewrite (Hout k Hk), assoc_setitem_ne.
      * intros r Hr. apply elem_of_cons in Hr as [->|Hr]; [|by apply Hin].
        by rewrite (Hout reg Hreg), assoc_setitem_eq, Hv.
    + unfold bind, debug; simpl.
      destruct (IH (py_setitem vals reg (PyStr "N/A"))
                  {| clients := clients w; queue := queue w;
                     wlog := wlog w ++ [{| lvl := DEBUG; text := "Failed getting reg: ";
                                           args := [ArgVal (PyStr reg)] |}] |} Hnd)
        as (vals' & lg' & -> & Hout & Hin).
      exists vals', lg'. split; [done|]. split.
      * intros k Hk. apply not_elem_of_cons in Hk as [Hne Hk].
        by rewrite (Hout k Hk), assoc_setitem_ne.
      * intros r Hr. apply elem_of_cons in Hr as [->|Hr]; [|by apply Hin].
        by rewrite (Hout reg Hreg), assoc_setitem_eq, Hv.
Qed.

Ltac not_listed H :=
  repeat (apply elem_of_cons in H as [H|H]; [discriminate H|]);
  by apply elem_of_nil in H.

Lemma get_registers_regs_NoDup : NoDup get_registers_regs.
Proof.
  unfold get_registers_regs.
  repeat (apply NoDup_cons; split; [let H := fresh in intros H; not_listed H|]).
  apply NoDup_nil_2.
Qed.

Lemma get_registers_spec w :
  exists lg',
    snd (get_registers w) = {| clients := clients w; queue := queue w; wlog := lg' |} /\
    match eval_str "$eflags" with
    | None => fst (get_registers w) = Ok None
    | Some flags =>
        exists vals,
          fst (get_registers w) = Ok (Some (PyDict vals)) /\
          assoc "eflags" vals = Some (PyStr flags) /\
          forall reg, reg ∈ get_registers_regs ->
            assoc reg vals =
            Some (match eval_int ("(long long)$" +:+ reg) with
                  | Some v => PyInt (Z.land v 0xFFFFFFFFFFFFFFFF)
                  | None => PyStr "N/A"
                  end)
    end.
Proof.
  unfold get_registers, bind, debug, ret.
  destruct (read_registers_spec get_registers_regs [] w get_registers_regs_NoDup)
    as (vals & lg & Hread & _ & Hin).
  rewrite Hread. destruct (eval_str "$eflags") as [flags|].
  - exists (lg ++ [{| lvl := DEBUG; text := "Got registers: ";
                      args := [ArgVal (PyDict (py_setitem vals "eflags" (PyStr flags)))] |}]).
    split; [reflexivity|].
    exists (py_setitem vals "eflags" (PyStr flags)).
    split; [reflexivity|]. split; [apply assoc_setitem_eq|].
    intros reg Hreg. rewrite assoc_setitem_ne; [by apply Hin|].
    intros ->. unfold get_registers_regs in Hreg. not_listed Hreg.
  - exists lg. split; reflexivity.
Qed.

(** X9. [get_registers] never raises [KeyError] on a later lookup: when
    it returns, its dictionary has a value for each of the 23 registers
    and for [eflags]; the value of a register is ['N/A'] when [gdb] could
    not evaluate it and otherwise the unsigned 64-bit reading of what
    [gdb] gave: an integer [n] with [0 <= n < 2^64] and [n = v mod 2^64].
    It touches neither the clients nor the queue. *)
Theorem get_registers_values w (regs : pyval) w' :
  get_registers w = (Ok (Some regs), w') ->
  clients w' = clients w /\ queue w' = queue w /\
  (exists flags, eval_str "$eflags" = Some flags /\
                 py_getitem regs "eflags" = Ok (PyStr flags)) /\
  forall reg, reg ∈ get_registers_regs ->
    match eval_int ("(long long)$" +:+ reg) with
    | Some v => exists n, py_getitem regs reg = Ok (PyInt n) /\
                          0 <= n < 2 ^ 64 /\ n = v mod 2 ^ 64
    | None => py_getitem regs reg = Ok (PyStr "N/A")
    end.
Proof.
  intros Hget. destruct (get_registers_spec w) as (lg' & Hw & Hregs).
  rewrite Hget in Hw, Hregs. simpl in Hw, Hregs. subst w'.
  split; [done|]. split; [done|].
  destruct (eval_str "$eflags") as [flags|]; [|done].
  destruct Hregs as (vals & [= ->] & Hflags & Hvals). split.
  - exists flags. split; [done|]. simpl. by rewrite Hflags.
  - intros reg Hreg. simpl. rewrite (Hvals reg Hreg).
    destruct (eval_int _) as [v|]; [|done].
    exists (Z.land v 0xFFFFFFFFFFFFFFFF). split; [done|].
    change 0xFFFFFFFFFFFFFFFF with (Z.ones 64). rewrite Z.land_ones by lia.
    split; [|done]. apply Z.mod_pos_bound. lia.
Qed.



End Debugger.

(** ** The views and the command *)

Section Views.
Context {socket : Type} {T : Transport socket} {P : Pickle}.
Context {screen : Type} {V : View screen}.
Implicit Types (c : @ClientHandler socket) (cs : list (@ClientHandler socket)).

(** X11. Each view asks for its own kind of event, under the name the
    debugger side gives it: what [connect] sends for a view is the pickle
    of a subscribe message for the type of the view, and a connection
    registered with that message is handed, of the four events of a stop,
    exactly one: [register] for the register view, [disasm] for the
    disassembly view, [stack] for the stack view and [bt] for the backtrace
    view. *)
Theorem view_is_sent_its_own_events (v : view_class) (me : screen) (sk : socket)
    (lg : list logrec) c (regs disasm stack bt : pyval) :
  registration c =
    Some (PyDict [("msg_type", PyStr "register"); ("for_types", view_types v)]) ->
  (exists r client lg',
     connect v me (Ok sk) lg = (r, (Some client, lg')) /\
     calls (client_chan client) =
       [Send (dumps (PyDict [("msg_type", PyStr "register");
                             ("for_types", view_types v)]))]) /\
  map (accepts c)
      [update "register" regs; update "disasm" disasm; update "stack" stack;
       update "bt" bt] =
  match v with
  | RegisterView => [true; false; false; false]
  | DisasmView => [false; true; false; false]
  | StackView => [false; false; true; false]
  | BacktraceView => [false; false; false; true]
  end.
Proof.
  intros Hreg. split.
  - unfold connect, Client_init.
    pose proof (Client_register_calls
                  {| self := {| client_chan := {| sock := sk; calls := [] |};
                                view := Some me;
                                types := view_types v; rendered := [] |};
                     logged := lg |}) as Hcalls.
    destruct (Client_register _) as [[[]|x] s]; simpl in Hcalls; eauto.
  - unfold accepts, wants, wanted, bind, lift, ret, get_registration; simpl.
    rewrite Hreg. by destruct v.
Qed.

Lemma status_lines_all cs :
  Forall (fun c => is_Some (subscription c)) cs ->
  exists out,
    status_lines cs = (Ok tt, out) /\
    Forall2 (fun c line =>
               exists for_types,
                 subscription c = Some for_types /\
                 line = {| shown := "{} registered for: {}";
                           shown_args := [ArgClient; ArgVal for_types] |})
            cs out.
Proof.
  induction 1 as [|c cs [ft Hc] _ (out & IH & Hout)]; simpl.
  - exists []. split; [done|constructor].
  - unfold subscription in Hc. destruct (registration c) as [msg|] eqn:Hreg; [|done].
    destruct (py_getitem msg "for_types") as [ft'|] eqn:Hft; [|done].
    injection Hc as ->. rewrite IH. eexists. split; [reflexivity|].
    constructor; [|done]. exists ft. split; [|done].
    unfold subscription. by rewrite Hreg, Hft.
Qed.

(** X12. While the server runs, [status] prints the number of clients
    and then one line for each client, in the order of [clients], showing
    the [for_types] of its registration; it raises [AttributeError] at the
    first client that has connected and not subscribed yet, after the
    lines of the clients before it. *)
Theorem status_lists_subscriptions cs :
  let line c l :=
    exists for_types,
      subscription c = Some for_types /\
      l = {| shown := "{} registered for: {}";
             shown_args := [ArgClient; ArgVal for_types] |} in
  let count :=
    {| shown := "There are {} clients attached";
       shown_args := [ArgVal (PyInt (Z.of_nat (length cs)))] |} in
  (Forall (fun c => is_Some (subscription c)) cs ->
   exists out, status true cs = (Ok tt, count :: out) /\ Forall2 line cs out) /\
  (forall pre c post,
     cs = pre ++ c :: post ->
     Forall (fun p => is_Some (subscription p)) pre ->
     registration c = None ->
     exists out,
       status true cs = (Raise (AttributeError "registration"), count :: out) /\
       Forall2 line pre out).
Proof.
  intros line count. split.
  - intros Hall. destruct (status_lines_all cs Hall) as (out & Hlines & Hout).
    exists out. unfold status. by rewrite Hlines.
  - intros pre c post -> Hpre Hc. unfold status.
    assert (exists out, status_lines (pre ++ c :: post)
                        = (Raise (AttributeError "registration"), out) /\
                        Forall2 line pre out) as (out & Hlines & Hout).
    { clear count. induction Hpre as [|p pre [ft Hp] _ (out & IH & Hout)]; simpl.
      - rewrite Hc. exists []. split; [done|constructor].
      - unfold subscription in Hp. destruct (registration p) as [msg|] eqn:Hreg; [|done].
        destruct (py_getitem msg "for_types") as [ft'|] eqn:Hft; [|done].
        injection Hp as ->. rewrite IH. eexists. split; [reflexivity|].
        constructor; [|done]. exists ft. split; [|done].
        unfold subscription. by rewrite Hreg, Hft. }
    exists out. by rewrite Hlines.
Qed.
End Views.

(** ** The code at work, again *)

(** A [ping] message is logged and dropped. *)
Lemma handle_read_returns_witness :
  fst (handle_read (P := Trial.pickle) {| self := Trial.pinged; logged := [] |}) = Ok tt <->
  strip (Sim.repr Sim.ping) = "" \/
  exists msg, loads (Pickle := Trial.pickle) (Sim.repr Sim.ping) = Some msg /\
              ((exists for_types, is_subscribe msg for_types) \/
               (exists t, py_getitem msg "msg_type" = Ok (PyStr t) /\ t <> "register")).
Proof.
  exact (handle_read_returns (P := Trial.pickle) Trial.pinged [] (Sim.repr Sim.ping)
           {| Sim.inbox := []; Sim.fault := None; Sim.closed := false |} eq_refl).
Defined.

(** The first of two viewers, a [stack] event put on the queue, the
    queue processed. *)
Lemma clients_are_never_removed_witness :
  exists c',
    clients (snd (process_queue (P := Sim.plain) (snd (put Sim.stack_event Sim.viewers))))
      !! 0%nat = Some c' /\
    calls (handler_chan (Sim.connection [] None (Some ["stack"])))
      `prefix_of` calls (handler_chan c').
Proof.
  apply (clients_are_never_removed (P := Sim.plain) Sim.viewers); [|reflexivity].
  eapply rtc_l; [apply (step_put Sim.viewers Sim.stack_event)|].
  eapply rtc_l; [apply step_process|]. apply rtc_refl.
Defined.

(** From the start of the server: two connections accepted, the second
    one read. *)
Lemma registrations_are_subscribe_messages_witness :
  Forall well_registered (clients Trial.settled) /\
  (forall c event tag k,
     c ∈ clients Trial.settled -> is_update event tag ->
     wants c event <> Raise (KeyError k)) /\
  (forall running k, fst (status running (clients Trial.settled)) <> Raise (KeyError k)).
Proof.
  apply (registrations_are_subscribe_messages (P := Sim.plain) Sim.startup).
  - eapply rtc_l; [apply (step_accept Sim.startup)|].
    eapply rtc_l; [apply step_accept|].
    eapply rtc_l; [apply (step_readable _ 1%nat)|]. apply rtc_refl.
  - constructor.
Defined.

(** The connection on which the subscription of a stack view waits:
    reading it registers the connection. *)
Lemma handle_read_registration_witness :
  fst (handle_read (P := Sim.plain) {| self := Trial.newcomer; logged := [] |}) = Ok tt /\
  registration (self (snd (handle_read (P := Sim.plain)
                             {| self := Trial.newcomer; logged := [] |}))) =
    Some (Sim.subscribe ["stack"]).
Proof.
  apply (proj1 (handle_read_registration (P := Sim.plain)
                  {| self := Trial.newcomer; logged := [] |})
           (Sim.repr (Sim.subscribe ["stack"])) (Sim.subscribe ["stack"])
           (PyList [PyStr "stack"])).
  - reflexivity.
  - split; [vm_compute; discriminate|reflexivity].
  - exists (PyStr "register"). repeat split; reflexivity.
Defined.

(** The subscription of a stack view, read by the server. *)
Lemma viewer_subscription_reaches_handler_witness :
  calls (client_chan (self (snd (Client_register (P := Sim.plain) Trial.stack_viewer)))) =
    calls (client_chan (self Trial.stack_viewer)) ++
    [Send (Sim.repr (Sim.subscribe ["stack"]))] /\
  exists s,
    handle_read (P := Sim.plain) {| self := Trial.newcomer; logged := [] |} = (Ok tt, s) /\
    registration (self s) = Some (Sim.subscribe ["stack"]) /\
    subscription (self s) = Some (types (self Trial.stack_viewer)) /\
    forall tag, member tag (self s) <->
                py_contains tag (types (self Trial.stack_viewer)) = Ok true.
Proof.
  apply (viewer_subscription_reaches_handler (P := Sim.plain) Trial.stack_viewer
           Trial.newcomer [] {| Sim.inbox := []; Sim.fault := None; Sim.closed := false |}
           (Sim.subscribe ["stack"])).
  - reflexivity.
  - reflexivity.
  - split; [vm_compute; discriminate|reflexivity].
Defined.

(** The [stack] event, sent to a stack view and rendered by it. *)
Lemma event_reaches_view_witness :
  calls (handler_chan (self (snd (send_event (P := Trial.pickle) Sim.stack_event
                                    {| self := Trial.newcomer; logged := [] |})))) =
    calls (handler_chan Trial.newcomer) ++ [Send (Sim.repr Sim.stack_event)] /\
  fst (Client_handle_read (P := Trial.pickle) Trial.stack_viewer) = Ok tt /\
  view (self (snd (Client_handle_read (P := Trial.pickle) Trial.stack_viewer))) = Some tt /\
  rendered (self (snd (Client_handle_read (P := Trial.pickle) Trial.stack_viewer))) =
    rendered (self Trial.stack_viewer) ++ [Sim.stack_event].
Proof.
  exact (event_reaches_view (P := Trial.pickle) Sim.stack_event Trial.newcomer []
           Trial.stack_viewer
           {| Sim.inbox := []; Sim.fault := None; Sim.closed := false |} tt
           eq_refl eq_refl eq_refl).
Defined.

(** A [ping] message read by the client of a view: [render] is handed
    the message and raises the [KeyError] of [msg['data']], which
    [handle_read] lets through. *)
Lemma Client_handle_read_outcome_witness :
  rendered (self (snd (Client_handle_read (P := Trial.pickle) Trial.ping_viewer))) =
    [Sim.ping] /\
  fst (Client_handle_read (P := Trial.pickle) Trial.ping_viewer) = Raise (KeyError "data").
Proof.
  exact (Client_handle_read_outcome (P := Trial.pickle) Trial.ping_viewer
           (Sim.repr Sim.ping)
           {| Sim.inbox := []; Sim.fault := None; Sim.closed := false |} eq_refl).
Defined.

(** The registers of [Trial.gdb]: [rsp], read as [-8], is stored as
    [2^64 - 8]. *)
Lemma get_registers_values_witness :
  py_getitem Trial.regs "rsp" = Ok (PyInt (2 ^ 64 - 8)) /\
  forall reg, reg ∈ get_registers_regs ->
    match eval_int ("(long long)$" +:+ reg) with
    | Some v => exists n, py_getitem Trial.regs reg = Ok (PyInt n) /\
                          0 <= n < 2 ^ 64 /\ n = v mod 2 ^ 64
    | None => py_getitem Trial.regs reg = Ok (PyStr "N/A")
    end.
Proof.
  split; [vm_compute; reflexivity|].
  assert (get_registers (socket := Sim.socket) Sim.startup =
          (Ok (Some Trial.regs), snd (get_registers (socket := Sim.socket) Sim.startup)))
    as Hget by (vm_compute; reflexivity).
  exact (proj2 (proj2 (proj2
           (get_registers_values (socket := Sim.socket) Sim.startup Trial.regs _ Hget)))).
Defined.

(** A connection registered by a stack view. *)
Lemma view_is_sent_its_own_events_witness :
  map (accepts (Sim.connection [] None (Some ["stack"])))
      [update "register" PyNone; update "disasm" PyNone; update "stack" PyNone;
       update "bt" PyNone] = [false; false; true; false].
Proof.
  exact (proj2 (view_is_sent_its_own_events (P := Sim.plain) (screen := unit) StackView tt
                  {| Sim.inbox := []; Sim.fault := None; Sim.closed := false |} []
                  (Sim.connection [] None (Some ["stack"]))
                  PyNone PyNone PyNone PyNone eq_refl)).
Defined.

(** ** Strings as lists of characters *)

Section Strings.
Local Abbreviation la := list_ascii_of_string.

Lemma la_app (a b : string) : la (a +:+ b) = la a ++ la b.
Proof. induction a as [|c a IH]; simpl; [done|by rewrite IH]. Qed.

Lemma la_length (s : string) : length (la s) = String.length s.
Proof. induction s as [|c s IH]; simpl; [done|by rewrite IH]. Qed.

Lemma la_inj (a b : string) : la a = la b -> a = b.
Proof.
  intros Heq. rewrite <- (string_of_list_ascii_of_string a),
    <- (string_of_list_ascii_of_string b). by rewrite Heq.
Qed.

Lemma la_of_list (cs : list ascii) : la (string_of_list_ascii cs) = cs.
Proof. apply list_ascii_of_string_of_list_ascii. Qed.

Lemma la_substring (s : string) : forall n m,
  la (substring n m s) = take m (drop n (la s)).
Proof.
  induction s as [|c s IH]; intros [|n] [|m]; simpl; rewrite ?IH; done.
Qed.

Lemma la_join (sep : string) (ls : list string) :
  la (String.concat sep ls) =
  match ls with
  | [] => []
  | x :: rest => la x ++ concat (map (fun l => la sep ++ la l) rest)
  end.
Proof.
  induction ls as [|x [|y ls] IH].
  - done.
  - simpl. by rewrite app_nil_r.
  - change (String.concat sep (x :: y :: ls))
      with (x +:+ sep +:+ String.concat sep (y :: ls)).
    rewrite !la_app, IH. simpl. by rewrite <- !app_assoc.
Qed.

Lemma la_concat (ls : list string) :
  la (String.concat "" ls) = concat (map la ls).
Proof. rewrite la_join. by destruct ls. Qed.

Lemma la_py_mul (c : ascii) (n : Z) :
  la (py_mul (String c EmptyString) n) = replicate (Z.to_nat n) c.
Proof.
  unfold py_mul. rewrite la_concat.
  induction (Z.to_nat n) as [|k IH]; simpl; [done|by rewrite IH].
Qed.

Lemma la_lstrip (s : string) : exists a, la s = a ++ la (lstrip s).
Proof.
  induction s as [|c s [a IH]]; simpl.
  - by exists [].
  - destruct (is_space c).
    + exists (c :: a). by rewrite IH.
    + by exists [].
Qed.

Lemma la_rstrip (s : string) : exists b, la s = la (rstrip s) ++ b.
Proof.
  induction s as [|c s [b IH]]; simpl.
  - by exists [].
  - destruct (rstrip s) as [|c' r] eqn:Hr.
    + destruct (is_space c); simpl.
      * by exists (c :: la s).
      * exists (la s). done.
    + exists b. simpl in *. by rewrite IH.
Qed.

(** Stripping a string only removes characters. *)
Lemma la_strip (s : string) : exists a b, la s = a ++ la (strip s) ++ b.
Proof.
  unfold strip. destruct (la_lstrip s) as [a Ha], (la_rstrip (lstrip s)) as [b Hb].
  exists a, b. by rewrite Ha, Hb.
Qed.

Lemma rstrip_app (s t : string) :
  rstrip t <> "" -> rstrip (s +:+ t) = s +:+ rstrip t.
Proof.
  intros Ht. induction s as [|c s IH]; simpl; [done|].
  rewrite IH. change (String c s +:+ rstrip t) with (String c (s +:+ rstrip t)).
  destruct (s +:+ rstrip t) eqn:Hs; [|done].
  destruct s; simpl in Hs; [done|discriminate].
Qed.

Lemma split_on_join (ls : list string) :
  ls <> [] ->
  Forall (fun l => "010"%char ∉ la l) ls ->
  split_on "010" (String.concat (String "010" EmptyString) ls) = ls.
Proof.
  intros Hne Hall. induction Hall as [|x ls Hx Hls IH]; [done|]. clear Hne.
  assert (forall rest, split_on "010" (x +:+ String "010" rest) = x :: split_on "010" rest)
    as Hcut.
  { intros rest. induction x as [|c x IHx]; simpl; [done|].
    destruct (Ascii.eqb c "010") eqn:Hc.
    - apply Ascii.eqb_eq in Hc as ->. simpl in Hx. by apply not_elem_of_cons in Hx as [? _].
    - rewrite IHx; [done|]. simpl in Hx. by apply not_elem_of_cons in Hx as [_ ?]. }
  destruct ls as [|y ls].
  - simpl. clear IH Hcut. induction x as [|c x IHx]; simpl; [done|].
    destruct (Ascii.eqb c "010") eqn:Hc.
    + apply Ascii.eqb_eq in Hc as ->. simpl in Hx. by apply not_elem_of_cons in Hx as [? _].
    + rewrite IHx; [done|]. simpl in Hx. by apply not_elem_of_cons in Hx as [_ ?].
  - change (String.concat (String "010" EmptyString) (x :: y :: ls))
      with (x +:+ String "010" (String.concat (String "010" EmptyString) (y :: ls))).
    rewrite Hcut, IH; done.
Qed.
End Strings.

(** ** [hexdump] *)

Section Hexdump.
Local Abbreviation la := list_ascii_of_string.

Ltac each_byte x :=
  let b0 := fresh in let b1 := fresh in let b2 := fresh in let b3 := fresh in
  let b4 := fresh in let b5 := fresh in let b6 := fresh in let b7 := fresh in
  destruct x as [b0 b1 b2 b3 b4 b5 b6 b7];
  destruct b0, b1, b2, b3, b4, b5, b6, b7.

(** With the default separator, [FILTER] maps a byte to itself when it
    is printable ASCII other than the backslash, and to a dot otherwise. *)
Lemma byte_shown (x : ascii) :
  (if Nat.leb (nat_of_ascii x) 127
   then option_map (fun ch => String ch EmptyString)
                   (String.get (nat_of_ascii x) (FILTER "."))
   else Some ".") = Some (String (shown_char x) EmptyString).
Proof. each_byte x; vm_compute; reflexivity. Qed.

Lemma shown_char_plain (x : ascii) : plain_char (shown_char x).
Proof. unfold plain_char. each_byte x; vm_compute; lia. Qed.

(** ["%02X" % ord(x)] is two digits that read back as [x]. *)
Lemma byte_hex (x : ascii) :
  exists hi lo h l,
    format_0eq true 2 (Z.of_nat (nat_of_ascii x)) = String hi (String lo EmptyString) /\
    unhex_digit hi = Some h /\ unhex_digit lo = Some l /\
    ascii_of_nat (16 * h + l) = x.
Proof.
  each_byte x; eexists _, _, _, _; (split; [vm_compute; reflexivity|]);
    repeat split; vm_compute; reflexivity.
Qed.

Lemma unhex_digit_plain (c : ascii) (h : nat) :
  unhex_digit c = Some h -> plain_char c /\ Ascii.eqb c " " = false.
Proof.
  unfold plain_char. each_byte c; vm_compute; intros [=]; split; (lia || reflexivity).
Qed.

Local Abbreviation pair x := (la (format_0eq true 2 (Z.of_nat (nat_of_ascii x)))).
Local Abbreviation render tokens :=
  (concat (map (fun t : option ascii =>
                  match t with Some x => pair x | None => [" "%char] end) tokens)).
Local Abbreviation spaced cs :=
  (match cs with
   | [] => []
   | x :: rest => Some x :: concat (map (fun y : ascii => [None; Some y]) rest)
   end).

Lemma printable_column_shown (chars : string) :
  printable_column (FILTER ".") "." chars =
  Some (string_of_list_ascii (map shown_char (la chars))).
Proof.
  induction chars as [|x chars IH]; [done|].
  cbn [printable_column list_ascii_of_string map string_of_list_ascii].
  rewrite byte_shown, IH. done.
Qed.

Lemma pair_length (x : ascii) : length (pair x) = 2%nat.
Proof. destruct (byte_hex x) as (hi & lo & h & l & -> & _). done. Qed.

Lemma unhex_render (tokens : list (option ascii)) : forall fuel,
  (length (render tokens) < fuel)%nat ->
  unhex fuel (render tokens) = Some (omap id tokens).
Proof.
  induction tokens as [|[x|] tokens IH]; intros [|fuel] Hfuel; try (simpl in Hfuel; lia).
  - done.
  - cbn [map concat] in *. rewrite length_app, pair_length in Hfuel.
    destruct (byte_hex x) as (hi & lo & h & l & Hx & Hhi & Hlo & Hbyte).
    rewrite Hx. cbn [list_ascii_of_string app unhex omap].
    destruct (unhex_digit_plain _ _ Hhi) as [_ ->].
    rewrite Hhi, Hlo, IH by lia. rewrite <- Hbyte. reflexivity.
  - cbn [map concat app unhex omap] in *. simpl in Hfuel.
    change (Ascii.eqb " " " ") with true. cbn iota. rewrite IH by lia. done.
Qed.

Lemma spaced_bytes (cs : list ascii) : omap id (spaced cs) = cs.
Proof.
  destruct cs as [|x rest]; [done|]. simpl. f_equal.
  induction rest as [|y rest IH]; [done|]. simpl. by rewrite IH.
Qed.

Lemma render_app (a b : list (option ascii)) : render (a ++ b) = render a ++ render b.
Proof. by rewrite map_app, concat_app. Qed.

Lemma render_spaces (k : nat) : render (replicate k None) = replicate k " "%char.
Proof. induction k as [|k IH]; [done|]. cbn [replicate map concat app]. by rewrite IH. Qed.

Lemma la_hex (cs : list ascii) :
  la (String.concat " " (map (fun x => format_0eq true 2 (Z.of_nat (nat_of_ascii x))) cs)) =
  render (spaced cs).
Proof.
  rewrite la_join. destruct cs as [|x rest]; [done|].
  cbn [map concat]. f_equal.
  induction rest as [|y rest IH]; [done|].
  cbn [map concat]. rewrite IH. rewrite map_app, concat_app.
  cbn [map concat app list_ascii_of_string]. by rewrite app_nil_r.
Qed.

Lemma spaced_length (cs : list ascii) :
  length (render (spaced cs)) = (3 * length cs - 1)%nat.
Proof.
  destruct cs as [|x rest]; [done|].
  cbn [map concat]. rewrite length_app, pair_length.
  assert (length (render (concat (map (fun y : ascii => [None; Some y]) rest))) =
          (3 * length rest)%nat) as ->.
  { induction rest as [|y rest IH]; [done|].
    cbn [map concat app]. cbn [length]. rewrite length_app, pair_length, IH.
    cbn [length]. lia. }
  cbn [length]. lia.
Qed.

Lemma spaced_app (a b : list ascii) :
  a <> [] -> b <> [] -> spaced (a ++ b) = spaced a ++ None :: spaced b.
Proof.
  destruct a as [|x a]; [done|]. destruct b as [|y b]; [done|]. intros _ _.
  cbn [app]. rewrite map_app, concat_app. done.
Qed.

Lemma hex_column_render (chars : string) :
  exists tokens,
    la (hex_column chars) = render tokens /\ omap id tokens = la chars /\
    (length (render tokens) <= 3 * String.length chars)%nat.
Proof.
  unfold hex_column. cbv zeta.
  rewrite <- (la_length (String.concat _ _)), la_hex, spaced_length.
  rewrite <- (la_length chars).
  destruct (Nat.ltb_spec 24 (3 * length (la chars) - 1)) as [Hlong|Hshort].
  - set (cs := la chars) in *.
    exists (spaced (take 8 cs) ++ [None] ++ [None] ++ spaced (drop 8 cs)).
    assert (length (take 8 cs) = 8%nat) as Hlen by (rewrite length_take; lia).
    assert (length (render (spaced (take 8 cs) ++ [None])) = 24%nat) as Hcut.
    { rewrite render_app, length_app, spaced_length, Hlen. done. }
    assert (render (spaced cs) =
            render (spaced (take 8 cs) ++ [None]) ++ render (spaced (drop 8 cs))) as Hhex.
    { rewrite <- render_app, <- (take_drop 8 cs) at 1.
      rewrite spaced_app.
      - by rewrite <- app_assoc.
      - intros Hnil. by rewrite Hnil in Hlen.
      - intros Hnil. apply (f_equal length) in Hnil. rewrite length_drop in Hnil.
        simpl in Hnil. lia. }
    split; [|split].
    + rewrite !la_app. unfold str_slice_to, str_slice_from.
      change (0 <=? 24)%Z with true. cbn iota. rewrite !la_substring.
      change (Z.to_nat 24) with 24%nat. rewrite drop_0.
      rewrite <- (la_length (String.concat _ _)), la_hex, Hhex.
      rewrite take_app_length' by done. rewrite drop_app_length' by done.
      rewrite length_app, Hcut, (take_ge (render (spaced (drop 8 cs)))) by lia.
      rewrite !render_app. by rewrite <- !app_assoc.
    + rewrite !omap_app, !spaced_bytes. simpl. apply take_drop.
    + rewrite !render_app, !length_app, !spaced_length, length_drop, Hlen.
      fold cs. cbn [map concat length app]. lia.
  - exists (spaced (la chars)). rewrite la_hex, spaced_bytes, spaced_length.
    repeat split; lia || done.
Qed.

Lemma la_ljust (w : Z) (s : string) :
  la (ljust w s) = la s ++ replicate (Z.to_nat (w - Z.of_nat (String.length s))) " "%char.
Proof. unfold ljust. by rewrite la_app, la_py_mul. Qed.

(** The hexadecimal column holds the bytes of the line, and is 48
    characters wide for 16 bytes or fewer. *)
Lemma column_render (chars : string) :
  exists tokens,
    la (ljust 48 (hex_column chars)) = render tokens /\ omap id tokens = la chars /\
    ((String.length chars <= 16)%nat -> length (render tokens) = 48%nat).
Proof.
  destruct (hex_column_render chars) as (tokens & Hcol & Hbytes & Hlen).
  set (k := Z.to_nat (48 - Z.of_nat (String.length (hex_column chars)))).
  exists (tokens ++ replicate k None). split; [|split].
  - by rewrite la_ljust, render_app, render_spaces, Hcol.
  - rewrite omap_app, Hbytes.
    assert (forall n, omap id (replicate n (@None ascii)) = []) as ->; [|by rewrite app_nil_r].
    clear. induction n as [|n IH]; [done|]. exact IH.
  - intros Hshort. rewrite render_app, length_app, render_spaces, length_replicate.
    unfold k. rewrite <- la_length, Hcol. lia.
Qed.

Local Abbreviation addr_char := (fun c : ascii => plain_char c /\ c <> ":"%char).
Local Abbreviation nl := (String "010" EmptyString).
Local Abbreviation body src offset :=
  (fun c : nat =>
     ADDR_FORMAT_64 (offset + Z.of_nat c) +:+ ":  " +:+
     ljust 48 (hex_column (substring c 16 src)) +:+ "  |" +:+
     string_of_list_ascii (map shown_char (la (substring c 16 src))) +:+ "|").

Lemma sapp_assoc (a b c : string) : (a +:+ b) +:+ c = a +:+ b +:+ c.
Proof. apply la_inj. by rewrite !la_app, app_assoc. Qed.

Lemma hex_digit_char (upper : bool) (d : Z) : addr_char (hex_digit upper d).
Proof.
  unfold hex_digit, plain_char.
  repeat match goal with |- context [match ?p with _ => _ end] => destruct p end;
    (split; [vm_compute; lia|discriminate]).
Qed.

Lemma hex_digits_chars (upper : bool) (fuel : nat) : forall n acc,
  Forall addr_char (la acc) -> Forall addr_char (la (hex_digits upper fuel n acc)).
Proof.
  induction fuel as [|fuel IH]; intros n acc Hacc; [done|].
  cbn [hex_digits]. cbv zeta.
  assert (Forall addr_char (la (String (hex_digit upper (n mod 16)) acc))) as Hacc'.
  { cbn [list_ascii_of_string]. constructor; [apply hex_digit_char|done]. }
  destruct (n <? 16)%Z; [done|by apply IH].
Qed.

Lemma format_0eq_chars (upper : bool) (w n : Z) :
  Forall addr_char (la (format_0eq upper w n)).
Proof.
  assert (addr_char "0"%char) as Hzero by (split; [unfold plain_char; vm_compute; lia|done]).
  assert (forall m, Forall addr_char (la (hex upper m))) as Hhex.
  { intros m. apply hex_digits_chars. constructor. }
  unfold format_0eq. destruct (n <? 0)%Z; cbv zeta.
  - change ("-" +:+ ?s) with (String "-" s). cbn [list_ascii_of_string].
    constructor; [split; [unfold plain_char; vm_compute; lia|done]|].
    rewrite la_app, la_py_mul. apply Forall_app. split; [by apply Forall_replicate|done].
  - rewrite la_app, la_py_mul. apply Forall_app. split; [by apply Forall_replicate|done].
Qed.

Lemma ADDR_chars (n : Z) : Forall addr_char (la (ADDR_FORMAT_64 n)).
Proof.
  unfold ADDR_FORMAT_64. change ("0x" +:+ ?s) with (String "0" (String "x" s)).
  cbn [list_ascii_of_string].
  repeat (constructor; [split; [unfold plain_char; vm_compute; lia|done]|]).
  apply format_0eq_chars.
Qed.

Lemma after_colon_app (a rest : list ascii) :
  Forall addr_char a -> after_colon (a ++ ":"%char :: rest) = rest.
Proof.
  induction 1 as [|c a [_ Hc] _ IH]; simpl; [done|].
  apply Ascii.eqb_neq in Hc. by rewrite Hc.
Qed.

Lemma render_chars (tokens : list (option ascii)) : Forall plain_char (render tokens).
Proof.
  induction tokens as [|[x|] tokens IH]; cbn [map concat]; [done| |].
  - apply Forall_app. split; [|done].
    destruct (byte_hex x) as (hi & lo & h & l & -> & Hhi & Hlo & _).
    apply unhex_digit_plain in Hhi as [Hhi _], Hlo as [Hlo _].
    cbn [list_ascii_of_string]. constructor; [done|constructor; [done|constructor]].
  - constructor; [unfold plain_char; vm_compute; lia|done].
Qed.

Lemma chunk_length (src : string) (c : nat) :
  (String.length (substring c 16 src) <= 16)%nat.
Proof. rewrite <- la_length, la_substring, length_take. lia. Qed.

Lemma hexdump_line_body (src : string) (offset : Z) (c : nat) :
  hexdump_line src 16 "." offset c = Some (body src offset c +:+ nl).
Proof.
  unfold hexdump_line. cbv zeta. rewrite printable_column_shown.
  change (Z.of_nat 16 * 3)%Z with 48%Z. f_equal.
  by rewrite !sapp_assoc.
Qed.

Lemma body_chars (src : string) (offset : Z) (c : nat) :
  Forall plain_char (la (body src offset c)).
Proof.
  cbv beta. rewrite !la_app, la_of_list.
  destruct (column_render (substring c 16 src)) as (tokens & -> & _ & _).
  repeat (apply Forall_app; split).
  - eapply Forall_impl; [apply ADDR_chars|]. by intros ? [? _].
  - repeat (constructor; [unfold plain_char; vm_compute; lia|]). constructor.
  - apply render_chars.
  - repeat (constructor; [unfold plain_char; vm_compute; lia|]). constructor.
  - apply Forall_map, Forall_forall. intros x _. apply shown_char_plain.
  - repeat (constructor; [unfold plain_char; vm_compute; lia|]). constructor.
Qed.

Lemma undump_line_body (src : string) (offset : Z) (c : nat) :
  undump_line (body src offset c) = Some (la (substring c 16 src)).
Proof.
  unfold undump_line. cbv beta. rewrite (la_app (ADDR_FORMAT_64 _)).
  change (":  " +:+ ?s) with (String ":" (String " " (String " " s))).
  cbn [list_ascii_of_string]. rewrite after_colon_app by apply ADDR_chars.
  cbn [drop]. rewrite la_app.
  destruct (column_render (substring c 16 src)) as (tokens & -> & Hbytes & Hlen).
  specialize (Hlen (chunk_length src c)).
  rewrite drop_0, take_app_length' by done. rewrite unhex_render by lia. by rewrite Hbytes.
Qed.

Lemma all_lines_map {A} (g : A -> string) (l : list A) :
  all_lines (map (fun c => Some (g c)) l) = Some (map g l).
Proof. induction l as [|c l IH]; [done|]. cbn [map all_lines]. by rewrite IH. Qed.

(** Stripping the lines of a dump removes the last newline only. *)
Lemma strip_lines (bodies : list string) :
  Forall (fun b => exists r, b = String "0" r) bodies ->
  Forall (fun b => exists y, b = y +:+ "|") bodies ->
  strip (String.concat "" (map (fun b => b +:+ nl) bodies)) = String.concat nl bodies.
Proof.
  intros Hheads Hends. destruct bodies as [|b0 rest]; [done|].
  assert (forall bs, bs <> [] ->
            String.concat "" (map (fun b => b +:+ nl) bs) = String.concat nl bs +:+ nl) as Hcat.
  { induction bs as [|b [|b' bs] IH]; intros Hne; [done|done|].
    change (String.concat "" (map (fun b => b +:+ nl) (b :: b' :: bs)))
      with ((b +:+ nl) +:+ String.concat "" (map (fun b => b +:+ nl) (b' :: bs))).
    change (String.concat nl (b :: b' :: bs)) with (b +:+ nl +:+ String.concat nl (b' :: bs)).
    rewrite IH by done. by rewrite !sapp_assoc. }
  assert (forall bs, bs <> [] -> Forall (fun b => exists y, b = y +:+ "|") bs ->
            exists y, String.concat nl bs = y +:+ "|") as Hlast.
  { induction bs as [|b [|b' bs] IH]; intros Hne Hbs; [done| |].
    - by apply Forall_cons in Hbs as [? _].
    - apply Forall_cons in Hbs as [_ Hbs]. destruct (IH ltac:(done) Hbs) as [y Hy].
      change (String.concat nl (b :: b' :: bs)) with (b +:+ nl +:+ String.concat nl (b' :: bs)).
      rewrite Hy. exists (b +:+ nl +:+ y). by rewrite !sapp_assoc. }
  rewrite Hcat by done. destruct (Hlast (b0 :: rest) ltac:(done) Hends) as [y Hy].
  assert (exists r, String.concat nl (b0 :: rest) = String "0" r) as [r Hr].
  { apply Forall_cons in Hheads as [[r ->] _]. destruct rest; by eexists. }
  unfold strip. rewrite Hr at 1.
  change (lstrip (String "0" r +:+ nl)) with (String "0" r +:+ nl). rewrite <- Hr, Hy.
  rewrite sapp_assoc, rstrip_app; [done|by vm_compute].
Qed.

Lemma hexdump_lines (src : string) (offset : Z) :
  hexdump src 16 "." offset =
  Some (String.concat nl (map (body src offset) (xrange0 (String.length src) 16))).
Proof.
  change (hexdump src 16 "." offset)
    with (match all_lines (map (hexdump_line src 16 "." offset)
                               (xrange0 (String.length src) 16)) with
          | Some lines => Some (strip (String.concat "" lines))
          | None => None
          end).
  rewrite (map_ext _ (fun c => Some (body src offset c +:+ nl)))
    by (intros c; apply hexdump_line_body).
  rewrite all_lines_map. f_equal.
  rewrite <- (map_map (body src offset) (fun b => b +:+ nl)).
  apply strip_lines; apply Forall_map, Forall_forall; intros c _; cbv beta.
  - unfold ADDR_FORMAT_64. eexists. reflexivity.
  - match goal with
    | |- exists y, ?a +:+ ?b +:+ ?c +:+ ?d +:+ ?p +:+ "|" = _ =>
        exists (a +:+ b +:+ c +:+ d +:+ p)
    end.
    by rewrite !sapp_assoc.
Qed.

Lemma chunks_concat {A} (l : list A) :
  concat (map (fun c => take 16 (drop c l)) (xrange0 (length l) 16)) = l.
Proof.
  unfold xrange0. rewrite map_map.
  assert (forall k (l : list A), (length l <= 16 * k)%nat ->
            concat (map (fun i => take 16 (drop (i * 16) l)) (seq 0 k)) = l) as Hk.
  { clear. induction k as [|k IH]; intros l Hl.
    - destruct l; [done|simpl in Hl; lia].
    - cbn [seq map concat]. rewrite <- seq_shift, map_map.
      rewrite (map_ext _ (fun i => take 16 (drop (i * 16) (drop 16 l)))).
      + rewrite IH by (rewrite length_drop; lia). apply take_drop.
      + intros i. rewrite drop_drop. do 2 f_equal; lia. }
  apply Hk.
  pose proof (Nat.div_mod_eq (length l + 16 - 1) 16).
  pose proof (Nat.mod_upper_bound (length l + 16 - 1) 16). lia.
Qed.

(** X13. With its default length and separator, [hexdump] never raises,
    whatever the bytes and the offset, and its result has only printable
    ASCII characters and newlines. *)
Theorem hexdump_is_printable (src : string) (offset : Z) :
  exists out,
    hexdump src 16 "." offset = Some out /\
    Forall (fun c => plain_char c \/ c = "010"%char) (la out).
Proof.
  eexists. split; [apply hexdump_lines|].
  rewrite la_join.
  assert (forall c, Forall (fun c => plain_char c \/ c = "010"%char)
                      (la (body src offset c))) as Hbody.
  { intros c. eapply Forall_impl; [apply body_chars|]. by left. }
  destruct (xrange0 _ _) as [|c cs]; [done|]. cbn [map].
  apply Forall_app. split; [apply Hbody|].
  apply Forall_concat, Forall_map, Forall_map, Forall_forall. intros c' _. cbv beta.
  change (la nl) with ["010"%char]. constructor; [by right|apply Hbody].
Qed.

(** X14. A dump loses no byte: the pairs of digits of its hexadecimal
    columns read back, line after line, as the bytes dumped, whatever the
    offset. *)
Theorem hexdump_round_trip (src : string) (offset : Z) :
  exists out, hexdump src 16 "." offset = Some out /\ undump out = Some src.
Proof.
  eexists. split; [apply hexdump_lines|].
  unfold undump.
  destruct (xrange0 (String.length src) 16) as [|c cs] eqn:Hrange.
  - destruct src as [|x src]; [done|].
    unfold xrange0 in Hrange. apply (f_equal length) in Hrange.
    rewrite length_map, length_seq in Hrange. cbn [length String.length] in Hrange.
    pose proof (Nat.div_mod_eq (S (String.length src) + 16 - 1) 16).
    pose proof (Nat.mod_upper_bound (S (String.length src) + 16 - 1) 16). lia.
  - assert (String.eqb (String.concat nl (map (body src offset) (c :: cs))) "" = false) as ->.
    { apply String.eqb_neq. unfold ADDR_FORMAT_64. by destruct cs. }
    rewrite split_on_join.
    + assert (mapM undump_line (map (body src offset) (c :: cs)) =
              Some (map (fun c => la (substring c 16 src)) (c :: cs))) as ->.
      { apply mapM_Some. apply Forall2_fmap, Forall_Forall2_diag, Forall_forall.
        intros c' _. apply undump_line_body. }
      cbn [option_map]. f_equal. rewrite <- Hrange.
      rewrite (map_ext _ (fun c => take 16 (drop c (la src))))
        by (intros; apply la_substring).
      rewrite <- la_length, chunks_concat. apply string_of_list_ascii_of_string.
    + done.
    + apply Forall_map, Forall_forall. intros c' _. cbv beta.
      intros Hin. pose proof (body_chars src offset c') as Hplain.
      rewrite Forall_forall in Hplain. apply Hplain in Hin.
      unfold plain_char in Hin. vm_compute in Hin. lia.
Qed.

Lemma get_la (s : string) : forall n, String.get n s = la s !! n.
Proof. induction s as [|c s IH]; intros [|n]; simpl; auto. Qed.

Lemma hex_digits_length (upper : bool) (fuel : nat) : forall n acc k,
  (0 <= n < 16 ^ Z.of_nat (S k))%Z ->
  (String.length (hex_digits upper fuel n acc) <= S k + String.length acc)%nat.
Proof.
  induction fuel as [|fuel IH]; intros n acc k Hn; cbn [hex_digits]; [lia|].
  cbv zeta. destruct (Z.ltb_spec n 16) as [Hlt|Hge]; [simpl; lia|].
  destruct k as [|k]; [simpl in Hn; lia|].
  specialize (IH (n / 16)%Z (String (hex_digit upper (n mod 16)) acc) k).
  cbn [String.length] in IH. etransitivity; [apply IH|lia].
  rewrite Nat2Z.inj_succ, Z.pow_succ_r in Hn by lia. split.
  - apply Z.div_pos; lia.
  - apply Z.div_lt_upper_bound; lia.
Qed.

(** An address of 64 bits is written in 18 characters. *)
Lemma ADDR_length (n : Z) :
  (0 <= n < 2 ^ 64)%Z -> String.length (ADDR_FORMAT_64 n) = 18%nat.
Proof.
  intros Hn. unfold ADDR_FORMAT_64. change ("0x" +:+ ?s) with (String "0" (String "x" s)).
  cbn [String.length]. do 2 f_equal.
  unfold format_0eq. destruct (Z.ltb_spec n 0) as [|_]; [lia|]. cbv zeta.
  rewrite <- la_length, la_app, la_py_mul, length_app, length_replicate, la_length.
  pose proof (hex_digits_length true (S (Z.to_nat (Z.log2 n))) n "" 15) as Hlen.
  change (16 ^ Z.of_nat 16)%Z with (2 ^ 64)%Z in Hlen.
  specialize (Hlen Hn). fold (hex true n) in Hlen. cbn [String.length] in Hlen. lia.
Qed.

Lemma xrange0_lookup (stop i c : nat) :
  xrange0 stop 16 !! i = Some c -> c = (i * 16)%nat /\ (c < stop)%nat.
Proof.
  unfold xrange0. rewrite list_lookup_fmap. intros Hi.
  destruct (seq 0 ((stop + 16 - 1) / 16) !! i) as [j|] eqn:Hj; [|done].
  apply lookup_seq in Hj as [-> Hj]. injection Hi as <-.
  pose proof (Nat.div_mod_eq (stop + 16 - 1) 16).
  pose proof (Nat.mod_upper_bound (stop + 16 - 1) 16). lia.
Qed.

(** X15. The dump of a region that lies within 64 bits has one line for
    every 16 bytes, none of which holds a newline; a line of [k] bytes is
    [73 + k] characters long, with the colon after its address in column
    18 and its printable column between the bar of column 71 and the bar
    that ends it. *)
Theorem hexdump_layout (src : string) (offset : Z) :
  (0 <= offset)%Z ->
  (offset + Z.of_nat (String.length src) <= 2 ^ 64)%Z ->
  exists lines,
    hexdump src 16 "." offset = Some (String.concat nl lines) /\
    length lines = ((String.length src + 15) / 16)%nat /\
    forall i line, lines !! i = Some line ->
      String.length line = (73 + Nat.min 16 (String.length src - 16 * i))%nat /\
      String.get 18 line = Some ":"%char /\
      String.get 71 line = Some "|"%char /\
      String.get (String.length line - 1) line = Some "|"%char /\
      "010"%char ∉ la line.
Proof.
  intros Hoffset Hend. eexists. split; [apply hexdump_lines|]. split.
  { unfold xrange0. rewrite !length_map, length_seq. f_equal. lia. }
  intros i line. rewrite list_lookup_fmap.
  destruct (xrange0 (String.length src) 16 !! i) as [c|] eqn:Hc; [|done].
  apply xrange0_lookup in Hc as [-> Hc]. intros [= <-].
  assert (length (la (ADDR_FORMAT_64 (offset + Z.of_nat (i * 16)))) = 18%nat) as Haddr.
  { rewrite la_length. apply ADDR_length. lia. }
  destruct (column_render (substring (i * 16) 16 src)) as (tokens & Hcol & _ & Hlen).
  specialize (Hlen (chunk_length src (i * 16))).
  assert (length (la (substring (i * 16) 16 src)) = Nat.min 16 (String.length src - i * 16))
    as Hchunk.
  { rewrite la_substring, length_take, length_drop, la_length. done. }
  cbv beta. rewrite !get_la, <- !(la_length (_ +:+ _)).
  rewrite !la_app, la_of_list, Hcol.
  change (la ":  ") with [":"; " "; " "]%char.
  change (la "  |") with [" "; " "; "|"]%char.
  change (la "|") with ["|"]%char.
  set (addr := la (ADDR_FORMAT_64 _)) in *. set (col := render tokens) in *.
  set (shown := map shown_char _).
  assert (length shown = Nat.min 16 (String.length src - i * 16)) as Hshown
    by (unfold shown; by rewrite length_map).
  split; [|split; [|split; [|split]]].
  - rewrite !length_app, Haddr, Hlen, Hshown. cbn [length]. lia.
  - rewrite <- Haddr. apply list_lookup_middle. done.
  - change (addr ++ [":"; " "; " "]%char ++ col ++ [" "; " "; "|"]%char ++ shown ++ ["|"]%char)
      with (addr ++ [":"; " "; " "]%char ++ col ++ [" "; " "]%char ++ "|"%char :: shown ++ ["|"]%char).
    rewrite !(app_assoc _ _ ("|"%char :: _)).
    apply list_lookup_middle. rewrite !length_app, Haddr, Hlen. done.
  - assert (addr ++ [":"; " "; " "]%char ++ col ++ [" "; " "; "|"]%char ++ shown ++ ["|"]%char =
            (addr ++ [":"; " "; " "]%char ++ col ++ [" "; " "; "|"]%char ++ shown) ++ ["|"]%char)
      as -> by (by rewrite <- !app_assoc).
    rewrite (length_app _ ["|"%char]). apply list_lookup_middle. cbn [length]. lia.
  - intros Hin. pose proof (body_chars src offset (i * 16)) as Hplain.
    cbv beta in Hplain. rewrite !la_app, la_of_list, Hcol in Hplain.
    rewrite Forall_forall in Hplain. apply Hplain in Hin.
    unfold plain_char in Hin. vm_compute in Hin. lia.
Qed.
(** The lines of a dump: each starts with its address and ends with a
    bar, and the first is the line of [offset]. *)
Lemma hexdump_by_lines (src : string) (offset : Z) :
  exists lines,
    hexdump src 16 "." offset = Some (String.concat newline lines) /\
    length lines = ((String.length src + 15) / 16)%nat /\
    Forall (fun l => (exists r, l = String "0" r) /\ (exists y, l = y +:+ "|") /\
                     "010"%char ∉ la l) lines /\
    (forall l, head lines = Some l -> exists rest, l = ADDR_FORMAT_64 offset +:+ rest).
Proof.
  eexists. split; [apply hexdump_lines|]. split; [|split].
  - unfold xrange0. rewrite !length_map, length_seq. f_equal. lia.
  - apply Forall_map, Forall_forall. intros c _. cbv beta. split; [|split].
    + unfold ADDR_FORMAT_64. eexists. reflexivity.
    + match goal with
      | |- exists y, ?a +:+ ?b +:+ ?c +:+ ?d +:+ ?p +:+ "|" = _ =>
          exists (a +:+ b +:+ c +:+ d +:+ p)
      end.
      by rewrite !sapp_assoc.
    + intros Hin. pose proof (body_chars src offset c) as Hplain.
      rewrite Forall_forall in Hplain. apply Hplain in Hin.
      unfold plain_char in Hin. vm_compute in Hin. lia.
  - intros l. unfold xrange0.
    destruct ((String.length src + 16 - 1) / 16)%nat as [|k]; [done|].
    cbn [seq map head]. intros [= <-]. rewrite Z.add_0_r. by eexists.
Qed.
End Hexdump.

(** The dump of 19 bytes at [0x7fff5fbff000]: two lines. *)
Lemma hexdump_layout_witness :
  exists lines,
    hexdump "voltron: a debugger" 16 "." 140734799802368 =
      Some (String.concat (String "010" EmptyString) lines) /\
    length lines = 2%nat /\
    forall i line, lines !! i = Some line ->
      String.length line = (73 + Nat.min 16 (19 - 16 * i))%nat /\
      String.get 18 line = Some ":"%char /\
      String.get 71 line = Some "|"%char /\
      String.get (String.length line - 1) line = Some "|"%char /\
      "010"%char ∉ list_ascii_of_string line.
Proof.
  apply (hexdump_layout "voltron: a debugger" 140734799802368); [lia|].
  vm_compute. discriminate.
Defined.

(** ** Lines of text *)

Section Lines.
Local Abbreviation la := list_ascii_of_string.

Lemma split_on_cons (c : ascii) (s : string) :
  exists first others, split_on c s = first :: others.
Proof.
  induction s as [|x s (first & others & IH)]; simpl; [by eexists _, _|].
  destruct (Ascii.eqb x c); [by eexists _, _|]. rewrite IH. by eexists _, _.
Qed.

Lemma split_on_no_sep (c : ascii) (s : string) :
  Forall (fun l => c ∉ la l) (split_on c s).
Proof.
  induction s as [|x s IH]; simpl.
  - repeat constructor. apply not_elem_of_nil.
  - destruct (Ascii.eqb x c) eqn:Hx.
    + constructor; [apply not_elem_of_nil|done].
    + destruct (split_on c s) as [|first others]; simpl.
      * repeat constructor. apply Ascii.eqb_neq in Hx.
        intros Hin. apply elem_of_cons in Hin as [->|Hin]; [done|].
        by apply not_elem_of_nil in Hin.
      * apply Forall_cons in IH as [Hfirst Hothers]. constructor; [|done].
        apply Ascii.eqb_neq in Hx. simpl.
        intros Hin. apply elem_of_cons in Hin as [->|Hin]; done.
Qed.

(** Joining the lines of a text gives the text back. *)
Lemma join_split (s : string) : String.concat newline (split_on "010" s) = s.
Proof.
  induction s as [|x s IH]; [done|]. simpl.
  destruct (split_on_cons "010" s) as (first & others & Hs). rewrite Hs in *.
  destruct (Ascii.eqb x "010") eqn:Hx.
  - apply Ascii.eqb_eq in Hx as ->.
    change (String.concat newline ("" :: first :: others))
      with (String "010" (String.concat newline (first :: others))).
    by rewrite IH.
  - rewrite <- IH. by destruct others.
Qed.

Lemma join_app_prefix (a b : list string) :
  exists rest, String.concat newline (a ++ b) = String.concat newline a +:+ rest.
Proof.
  induction a as [|x [|y a] IH].
  - by eexists.
  - destruct b; simpl.
    + exists "". apply la_inj. by rewrite la_app, app_nil_r.
    + by eexists.
  - destruct IH as [rest IH].
    change (String.concat newline ((x :: y :: a) ++ b))
      with (x +:+ newline +:+ String.concat newline ((y :: a) ++ b)).
    change (String.concat newline (x :: y :: a))
      with (x +:+ newline +:+ String.concat newline (y :: a)).
    rewrite IH. exists rest. apply la_inj. rewrite !la_app. by rewrite <- !app_assoc.
Qed.

Lemma split_on_app_nl (s : string) :
  split_on "010" (s +:+ newline) = split_on "010" s ++ [""].
Proof.
  induction s as [|x s IH]; [done|]. simpl. rewrite IH.
  destruct (Ascii.eqb x "010"); [done|].
  by destruct (split_on_cons "010" s) as (first & others & ->).
Qed.

Lemma lstrip_app (s t : string) : lstrip s <> "" -> lstrip (s +:+ t) = lstrip s +:+ t.
Proof.
  induction s as [|x s IH]; simpl; [done|].
  destruct (is_space x); [done|]. done.
Qed.

Lemma rstrip_nl (s : string) : rstrip (s +:+ newline) = rstrip s.
Proof. induction s as [|x s IH]; [done|]. simpl. by rewrite IH. Qed.

Lemma strip_nl (s : string) : strip (s +:+ newline) = strip s.
Proof.
  unfold strip. destruct (lstrip s) eqn:Hs.
  - assert (lstrip (s +:+ newline) = "") as ->; [|done].
    induction s as [|x s IH]; [done|]. simpl in *.
    destruct (is_space x); [by apply IH|done].
  - rewrite lstrip_app by (by rewrite Hs). by rewrite Hs, rstrip_nl.
Qed.

(** Text between a first and a last character that are no whitespace is
    left alone by [strip]. *)
Lemma strip_edges (s r y : string) (c d : ascii) :
  s = String c r -> s = y +:+ String d "" -> is_space c = false -> is_space d = false ->
  strip s = s.
Proof.
  intros Hhead Hlast Hc Hd. unfold strip.
  assert (lstrip s = s) as -> by (rewrite Hhead; simpl; by rewrite Hc).
  rewrite Hlast, rstrip_app; simpl; by rewrite Hd.
Qed.

Lemma join_head (c : ascii) (bs : list string) :
  bs <> [] -> Forall (fun b => exists r, b = String c r) bs ->
  exists r, String.concat newline bs = String c r.
Proof.
  intros Hne Hbs. destruct bs as [|b bs]; [done|].
  apply Forall_cons in Hbs as [[r ->] _]. destruct bs; by eexists.
Qed.

Lemma join_last (d : string) (bs : list string) :
  bs <> [] -> Forall (fun b => exists y, b = y +:+ d) bs ->
  exists y, String.concat newline bs = y +:+ d.
Proof.
  induction bs as [|b [|b' bs] IH]; intros Hne Hbs; [done| |].
  - by apply Forall_cons in Hbs as [? _].
  - apply Forall_cons in Hbs as [_ Hbs]. destruct (IH ltac:(done) Hbs) as [y Hy].
    change (String.concat newline (b :: b' :: bs))
      with (b +:+ newline +:+ String.concat newline (b' :: bs)).
    rewrite Hy. exists (b +:+ newline +:+ y).
    apply la_inj. rewrite !la_app. by rewrite <- !app_assoc.
Qed.
End Lines.


(** ** What the views print *)

Section Rendering.
Context {T : Terminal}.
Local Abbreviation la := list_ascii_of_string.

Lemma str_slice_to_length (s : string) (k : Z) :
  (0 <= k)%Z -> (Z.of_nat (String.length (str_slice_to s k)) <= k)%Z.
Proof.
  intros Hk. unfold str_slice_to. destruct (Z.leb_spec 0 k) as [_|]; [|lia].
  rewrite <- la_length, la_substring, length_take. lia.
Qed.

(** X16. A stack view in a window of [height >= 2] lines dumps the
    first [(height - 2) * 16] bytes of the stack it is sent and prints
    the lines of the dump in reverse order, the line of [sp] last, under a
    header that gives the number of bytes and [sp]: the dump takes at most
    [height - 2] lines, and [strip] removes nothing from it. *)
Theorem stack_view_shows (height header_width footer_width : Z) (msg data : pyval)
    (raw : string) (sp : Z) :
  (2 <= height)%Z ->
  py_getitem msg "data" = Ok data ->
  py_getitem data "data" = Ok (PyStr raw) ->
  py_getitem data "sp" = Ok (PyInt sp) ->
  exists lines,
    hexdump (str_slice_to raw ((height - 2) * 16)) 16 "." sp =
      Some (String.concat newline lines) /\
    Forall (fun l => "010"%char ∉ la l) lines /\
    (Z.of_nat (length lines) <= height - 2)%Z /\
    (forall l, last (reverse lines) = Some l -> exists rest, l = ADDR_FORMAT_64 sp +:+ rest) /\
    StackView_render height header_width footer_width msg =
      Some (print (format_header header_width "[stack]"
                     (Some ("[0x" +:+
                            format_0eq false 4
                              (Z.of_nat (String.length
                                           (str_slice_to raw ((height - 2) * 16)))) +:+
                            ":" +:+ ADDR_FORMAT_64 sp +:+ "]"))) +:+
            print (String.concat newline (reverse lines)) +:+
            format_footer footer_width).
Proof.
  intros Hheight Hmsg Hraw Hsp.
  set (shown := str_slice_to raw ((height - 2) * 16)).
  destruct (hexdump_by_lines shown sp) as (lines & Hdump & Hlen & Hlines & Hfirst).
  exists lines. split; [done|]. split; [|split; [|split]].
  - eapply Forall_impl; [done|]. by intros l (_ & _ & ?).
  - pose proof (str_slice_to_length raw ((height - 2) * 16) ltac:(lia)) as Hshown.
    fold shown in Hshown. rewrite Hlen.
    pose proof (Nat.div_mod_eq (String.length shown + 15) 16).
    pose proof (Nat.mod_upper_bound (String.length shown + 15) 16). lia.
  - intros l. rewrite last_reverse. apply Hfirst.
  - unfold StackView_render. rewrite Hmsg. cbn [ok mbind option_bind].
    rewrite Hraw, Hsp. cbn [ok mbind option_bind py_slice_to py_hexdump py_chars py_len].
    fold shown. rewrite Hdump. cbn [mbind option_bind].
    assert (strip (String.concat newline
                     (reverse (split_on "010" (String.concat newline lines)))) =
            String.concat newline (reverse lines)) as ->; [|done].
    destruct lines as [|l0 lines0] eqn:Hl; [done|]. rewrite <- Hl in *.
    assert (lines <> []) as Hne by (by rewrite Hl).
    rewrite split_on_join.
    + assert (reverse lines <> []) as Hrev.
      { intros Hnil. apply (f_equal length) in Hnil. rewrite length_reverse, Hl in Hnil.
        done. }
      apply Forall_reverse in Hlines.
      destruct (join_head "0" (reverse lines) Hrev) as [r Hr].
      { eapply Forall_impl; [done|]. by intros l (? & _ & _). }
      destruct (join_last "|" (reverse lines) Hrev) as [y Hy].
      { eapply Forall_impl; [done|]. by intros l (_ & ? & _). }
      by apply (strip_edges _ r y "0" "|").
    + done.
    + eapply Forall_impl; [done|]. by intros l (_ & _ & ?).
Qed.

(** X17. A disassembly view in a window of [height >= 2] lines prints
    the beginning of the text it is sent, highlighted and without its
    trailing whitespace: at most [height - 2] lines of it (one when
    [height = 2]), and the whole text when that has no more lines. *)
Theorem disasm_view_shows (height header_width footer_width : Z) (msg : pyval)
    (text : string) :
  (2 <= height)%Z ->
  py_getitem msg "data" = Ok (PyStr text) ->
  exists shown,
    DisasmView_render height header_width footer_width msg =
      Some (print (format_header header_width "[code]" None) +:+
            print (rstrip (pygmentize shown)) +:+
            format_footer footer_width) /\
    (exists rest, text = shown +:+ rest) /\
    (Z.of_nat (length (split_on "010" shown)) <= Z.max 1 (height - 2))%Z /\
    ((Z.of_nat (length (split_on "010" text)) <= height - 2)%Z -> shown = text).
Proof.
  intros Hheight Hmsg.
  exists (String.concat newline (take (Z.to_nat (height - 2)) (split_on "010" text))).
  assert (slice_to (split_on "010" text) (height - 2) =
          take (Z.to_nat (height - 2)) (split_on "010" text)) as Hslice.
  { unfold slice_to. destruct (Z.leb_spec 0 (height - 2)); [done|lia]. }
  split; [|split; [|split]].
  - unfold DisasmView_render. rewrite Hmsg. cbn [ok]. cbv zeta. by rewrite Hslice.
  - destruct (join_app_prefix (take (Z.to_nat (height - 2)) (split_on "010" text))
                (drop (Z.to_nat (height - 2)) (split_on "010" text))) as [rest Hrest].
    rewrite take_drop, join_split in Hrest. by exists rest.
  - destruct (take (Z.to_nat (height - 2)) (split_on "010" text)) as [|l ls] eqn:Htake.
    + simpl. lia.
    + rewrite split_on_join.
      * rewrite <- Htake, length_take. lia.
      * done.
      * rewrite <- Htake. apply Forall_take, split_on_no_sep.
  - intros Hfits. rewrite take_ge by lia. apply join_split.
Qed.

Lemma py_mul_print (k : Z) :
  (0 <= k)%Z -> print (py_mul newline k) = py_mul newline (k + 1).
Proof.
  intros Hk. unfold print, newline. apply la_inj. rewrite la_app, !la_py_mul.
  replace (Z.to_nat (k + 1)) with (S (Z.to_nat k)) by lia.
  simpl. by rewrite replicate_cons_app.
Qed.

(** X18. A backtrace view never cuts the backtrace.  For a backtrace
    that ends in a newline, as gdb writes it, and has no other whitespace
    at its ends, it prints the [n] lines whole, whatever the height, and
    then [height - n - 2] newlines when [n + 3 < height], which puts the
    footer on line [height] of the window; it adds nothing otherwise. *)
Theorem backtrace_view_fills (height header_width footer_width : Z) (msg : pyval)
    (text : string) :
  py_getitem msg "data" = Ok (PyStr (text +:+ newline)) ->
  strip text = text ->
  BacktraceView_render height header_width footer_width msg =
    Some (print (format_header header_width "[backtrace]" None) +:+
          print text +:+
          py_mul newline
            (if (Z.of_nat (length (split_on "010" text)) + 3 <? height)%Z
             then height - Z.of_nat (length (split_on "010" text)) - 2
             else 0) +:+
          format_footer footer_width).
Proof.
  intros Hmsg Hstrip. unfold BacktraceView_render. rewrite Hmsg. cbn [ok]. cbv zeta.
  rewrite split_on_app_nl, length_app, strip_nl, Hstrip. cbn [length].
  generalize (length (split_on "010" text)). intros n.
  destruct (Z.ltb_spec (Z.of_nat n + 3) height) as [Hroom|Hfull].
  - destruct (Z.ltb_spec (height - Z.of_nat (n + 1) - 2) 0) as [|_]; [lia|].
    destruct (Z.ltb_spec 0 (height - Z.of_nat (n + 1) - 2)) as [_|]; [|lia].
    rewrite py_mul_print by lia.
    by replace (height - Z.of_nat (n + 1) - 2 + 1) with (height - Z.of_nat n - 2) by lia.
  - destruct (Z.ltb_spec (height - Z.of_nat (n + 1) - 2) 0) as [|Hpad]; [done|].
    destruct (Z.ltb_spec 0 (height - Z.of_nat (n + 1) - 2)) as [|]; [lia|done].
Qed.
End Rendering.

(** ** The views at work *)

(** The stack event of [Sim], in a window of 24 lines and 80 columns. *)
Lemma stack_view_shows_witness :
  exists lines,
    hexdump (str_slice_to "AAAAAAAA" ((24 - 2) * 16)) 16 "." 0x7FFFFFFFE000 =
      Some (String.concat newline lines) /\
    Forall (fun l => "010"%char ∉ list_ascii_of_string l) lines /\
    (Z.of_nat (length lines) <= 24 - 2)%Z /\
    (forall l, last (reverse lines) = Some l ->
       exists rest, l = ADDR_FORMAT_64 0x7FFFFFFFE000 +:+ rest) /\
    StackView_render (T := monochrome) 24 80 80 Sim.stack_event =
      Some (print (format_header (T := monochrome) 80 "[stack]"
                     (Some ("[0x" +:+
                            format_0eq false 4
                              (Z.of_nat (String.length
                                           (str_slice_to "AAAAAAAA" ((24 - 2) * 16)))) +:+
                            ":" +:+ ADDR_FORMAT_64 0x7FFFFFFFE000 +:+ "]"))) +:+
            print (String.concat newline (reverse lines)) +:+
            format_footer (T := monochrome) 80).
Proof.
  apply (stack_view_shows (T := monochrome) 24 80 80 Sim.stack_event
           (PyDict [("data", PyStr "AAAAAAAA"); ("sp", PyInt 0x7FFFFFFFE000)])
           "AAAAAAAA" 0x7FFFFFFFE000); [lia|reflexivity|reflexivity|reflexivity].
Defined.

(** The disassembly event of [Sim], in the same window. *)
Lemma disasm_view_shows_witness :
  exists shown,
    DisasmView_render (T := monochrome) 24 80 80 Sim.disasm_event =
      Some (print (format_header (T := monochrome) 80 "[code]" None) +:+
            print (rstrip (pygmentize (T := monochrome) shown)) +:+
            format_footer (T := monochrome) 80) /\
    (exists rest, "=> 0x400545: push rbp" = shown +:+ rest) /\
    (Z.of_nat (length (split_on "010" shown)) <= Z.max 1 (24 - 2))%Z /\
    ((Z.of_nat (length (split_on "010" "=> 0x400545: push rbp")) <= 24 - 2)%Z ->
     shown = "=> 0x400545: push rbp").
Proof.
  apply (disasm_view_shows (T := monochrome) 24 80 80 Sim.disasm_event
           "=> 0x400545: push rbp"); [lia|reflexivity].
Defined.

(** A backtrace of two frames, in the same window: 20 newlines follow
    it. *)
Lemma backtrace_view_fills_witness :
  BacktraceView_render (T := monochrome) 24 80 80
    (update "bt" (PyStr (("#0 main ()" +:+ newline +:+ "#1 start ()") +:+ newline))) =
    Some (print (format_header (T := monochrome) 80 "[backtrace]" None) +:+
          print ("#0 main ()" +:+ newline +:+ "#1 start ()") +:+
          py_mul newline 20 +:+
          format_footer (T := monochrome) 80).
Proof.
  apply (backtrace_view_fills (T := monochrome) 24 80 80
           (update "bt" (PyStr (("#0 main ()" +:+ newline +:+ "#1 start ()") +:+ newline)))
           ("#0 main ()" +:+ newline +:+ "#1 start ()")); reflexivity.
Defined.

(** ** The register view *)

Section RegisterView.
Context {T : Terminal} {B : Builtins}.

Section Entry.
Variable fmt : format_entry.
Variables (lf : string -> string) (lm vm : option (string -> string))
  (vf : pyval -> option string) (lc vc vcm : string).
Hypothesis Hlf : label_format fmt = Some lf.
Hypothesis Hlm : label_mod fmt = Some lm.
Hypothesis Hlc : label_colour fmt = Some lc.
Hypothesis Hvf : value_format fmt = Some vf.
Hypothesis Hvm : value_mod fmt = Some vm.
Hypothesis Hvc : value_colour fmt = Some vc.
Hypothesis Hvcm : value_colour_mod fmt = Some vcm.

Local Abbreviation modify m text :=
  (match m with Some f => f text | None => text end).

Lemma format_reg_cases (data last_regs : pyval) (f : list (string * pyval)) (reg : string) :
  format_reg fmt data last_regs f reg =
  match py_getitem data reg with
  | Raise _ => None
  | Ok val =>
      match
        match val with
        | PyStr s => Some (colored s vc [])
        | _ =>
            if py_eq last_regs PyNone
            then option_map (fun text => colored (modify vm text) vcm []) (vf val)
            else match py_getitem last_regs reg with
                 | Ok last =>
                     option_map (fun text => colored (modify vm text)
                                               (if negb (py_eq val last) then vcm else vc) [])
                                (vf val)
                 | Raise _ => None
                 end
        end
      with
      | Some shown =>
          Some (py_setitem (py_setitem f (reg +:+ "l") (PyStr (colored (modify lm (lf reg)) lc [])))
                           reg (PyStr shown))
      | None => None
      end
  end.
Proof.
  unfold format_reg. rewrite Hlf, Hlm, Hlc, Hvf, Hvm, Hvc, Hvcm. simpl.
  destruct (py_getitem data reg) as [val|]; [|done]. simpl.
  destruct val; try done;
    (destruct (py_eq last_regs PyNone); simpl;
     [by destruct (vf _)|];
     destruct (py_getitem last_regs reg) as [last|]; [|done]; simpl;
     destruct (negb _); simpl; by destruct (vf _)).
Qed.

Lemma reg_label_ne (reg : string) : reg <> reg +:+ "l".
Proof.
  intros Heq. apply (f_equal String.length) in Heq.
  rewrite <- !la_length, la_app, length_app in Heq. simpl in Heq. lia.
Qed.

Lemma format_reg_keeps data last_regs f f' reg k :
  format_reg fmt data last_regs f reg = Some f' ->
  k <> reg -> k <> reg +:+ "l" -> assoc k f' = assoc k f.
Proof.
  rewrite format_reg_cases. intros Hf Hk Hkl.
  destruct (py_getitem data reg); [|done].
  destruct (match _ with PyStr _ => _ | _ => _ end); [|done].
  injection Hf as <-. by rewrite !assoc_setitem_ne.
Qed.

Lemma format_reg_value data last_regs f f' reg :
  format_reg fmt data last_regs f reg = Some f' ->
  exists val,
    py_getitem data reg = Ok val /\
    match val with
    | PyStr s => assoc reg f' = Some (PyStr (colored s vc []))
    | _ =>
        exists text,
          vf val = Some text /\
          assoc reg f' =
            Some (PyStr (colored (modify vm text)
                           (if modified last_regs reg val then vcm else vc) []))
    end.
Proof.
  rewrite format_reg_cases. intros Hf.
  destruct (py_getitem data reg) as [val|]; [|done]. exists val. split; [done|].
  unfold modified.
  destruct val; try (injection Hf as <-; by rewrite assoc_setitem_eq);
    (destruct (py_eq last_regs PyNone); cbn [orb];
     [destruct (vf _) as [text|]; [|done]; injection Hf as <-;
      exists text; by rewrite assoc_setitem_eq|];
     destruct (py_getitem last_regs reg) as [last|]; [|done];
     destruct (vf _) as [text|]; [|done]; injection Hf as <-;
     exists text; by rewrite assoc_setitem_eq).
Qed.

Lemma format_reg_returns data last_regs f reg val :
  py_getitem data reg = Ok val ->
  match val with
  | PyStr _ => True
  | _ => is_Some (vf val) /\ (last_regs = PyNone \/ exists last, py_getitem last_regs reg = Ok last)
  end ->
  exists f',
    format_reg fmt data last_regs f reg = Some f' /\
    forall k, is_Some (assoc k f) \/ k ∈ format_keys [reg] -> is_Some (assoc k f').
Proof.
  intros Hval Hok. rewrite format_reg_cases, Hval.
  assert (forall shown k,
            is_Some (assoc k f) \/ k ∈ format_keys [reg] ->
            is_Some (assoc k (py_setitem
                                (py_setitem f (reg +:+ "l")
                                   (PyStr (colored (modify lm (lf reg)) lc [])))
                                reg (PyStr shown)))) as Hkeys.
  { intros shown k Hk. destruct (decide (k = reg)) as [->|Hreg].
    { by rewrite assoc_setitem_eq. }
    rewrite assoc_setitem_ne by done.
    destruct (decide (k = reg +:+ "l")) as [->|Hlabel].
    { by rewrite assoc_setitem_eq. }
    rewrite assoc_setitem_ne by done.
    destruct Hk as [Hk|Hk]; [done|].
    simpl in Hk. apply elem_of_cons in Hk as [->|Hk]; [done|].
    apply elem_of_cons in Hk as [->|Hk]; [done|]. by apply elem_of_nil in Hk. }
  assert (forall shown : option string,
            is_Some shown ->
            exists f',
              match shown with
              | Some shown =>
                  Some (py_setitem
                          (py_setitem f (reg +:+ "l")
                             (PyStr (colored (modify lm (lf reg)) lc [])))
                          reg (PyStr shown))
              | None => None
              end = Some f' /\
              forall k, is_Some (assoc k f) \/ k ∈ format_keys [reg] ->
                        is_Some (assoc k f')) as Hshown.
  { intros shown [text ->]. eexists. split; [reflexivity|apply Hkeys]. }
  apply Hshown.
  destruct val; try done;
    (destruct Hok as [[text Htext] Hlast]; rewrite Htext;
     destruct Hlast as [->|[last Hlast]]; [done|];
     rewrite Hlast; by destruct (py_eq last_regs PyNone)).
Qed.

Lemma format_regs_keeps data last_regs names : forall f f' k,
  format_regs fmt data last_regs f names = Some f' ->
  k ∉ format_keys names -> assoc k f' = assoc k f.
Proof.
  induction names as [|reg names IH]; intros f f' k Hf Hk; simpl in Hf.
  - by injection Hf as <-.
  - destruct (format_reg fmt data last_regs f reg) as [f1|] eqn:Hreg; [|done].
    simpl in Hf. simpl in Hk.
    apply not_elem_of_cons in Hk as [Hlabel Hk]. apply not_elem_of_cons in Hk as [Hreg' Hk].
    rewrite (IH f1 f' k Hf Hk). by apply (format_reg_keeps data last_regs f f1 reg).
Qed.

Lemma format_regs_value data last_regs names : forall f f' reg,
  format_regs fmt data last_regs f names = Some f' ->
  NoDup (format_keys names) -> reg ∈ names ->
  exists f1 f2,
    format_reg fmt data last_regs f1 reg = Some f2 /\ assoc reg f' = assoc reg f2.
Proof.
  induction names as [|r names IH]; intros f f' reg Hf Hnd Hin; simpl in Hf.
  - by apply elem_of_nil in Hin.
  - destruct (format_reg fmt data last_regs f r) as [f1|] eqn:Hreg; [|done].
    simpl in Hf. simpl in Hnd.
    apply NoDup_cons in Hnd as [_ Hnd]. apply NoDup_cons in Hnd as [Hr Hnd].
    apply elem_of_cons in Hin as [->|Hin].
    + exists f, f1. split; [done|]. by apply (format_regs_keeps data last_regs names f1).
    + by apply (IH f1).
Qed.

Lemma format_regs_returns data last_regs names :
  (forall reg, reg ∈ names ->
     exists val,
       py_getitem data reg = Ok val /\
       match val with
       | PyStr _ => True
       | _ => is_Some (vf val) /\
              (last_regs = PyNone \/ exists last, py_getitem last_regs reg = Ok last)
       end) ->
  forall f, exists f',
    format_regs fmt data last_regs f names = Some f' /\
    forall k, is_Some (assoc k f) \/ k ∈ format_keys names -> is_Some (assoc k f').
Proof.
  induction names as [|reg names IH]; intros Hnames f.
  - exists f. split; [done|]. intros k [Hk|Hk]; [done|]. by apply elem_of_nil in Hk.
  - destruct (Hnames reg ltac:(left)) as (val & Hval & Hok).
    destruct (format_reg_returns data last_regs f reg val Hval Hok) as (f1 & Hf1 & Hkeys1).
    destruct (IH (fun r Hr => Hnames r ltac:(by right)) f1) as (f' & Hf' & Hkeys).
    exists f'. split; [simpl; by rewrite Hf1|].
    intros k Hk. apply Hkeys.
    change (format_keys (reg :: names)) with (format_keys [reg] ++ format_keys names) in Hk.
    rewrite elem_of_app in Hk. destruct Hk as [Hk|[Hk|Hk]]; [left|left|right]; auto.
Qed.
End Entry.

Local Abbreviation entry e := (with_defaults FORMAT_DEFAULTS e).
Local Abbreviation names e := (default [] (regs e)).
Local Abbreviation all_names := (get_registers_regs ++ ["eflags"]).

Lemma NoDup_eqb (l : list string) :
  (fix check (l : list string) : bool :=
     match l with
     | [] => true
     | x :: rest => negb (existsb (String.eqb x) rest) && check rest
     end) l = true ->
  NoDup l.
Proof.
  induction l as [|x l IH]; intros Hcheck; [constructor|].
  apply andb_true_iff in Hcheck as [Hx Hrest]. constructor; [|by apply IH].
  intros Hin. apply negb_true_iff in Hx.
  assert (existsb (String.eqb x) l = true) as Hex; [|congruence].
  apply existsb_exists. exists x. split; [by apply list_elem_of_In|apply String.eqb_refl].
Qed.

(** The view sets each of its 48 keys once. *)
Lemma format_keys_NoDup : NoDup (format_keys all_names).
Proof. apply NoDup_eqb. vm_compute. reflexivity. Qed.

Lemma format_keys_app (a b : list string) :
  format_keys (a ++ b) = format_keys a ++ format_keys b.
Proof. apply flat_map_app. Qed.

Lemma format_keys_elem (reg : string) (l : list string) :
  reg ∈ l -> reg ∈ format_keys l.
Proof.
  induction 1 as [reg l|reg r l _ IH]; simpl.
  - right. left.
  - right. right. done.
Qed.

Lemma format_all_x64 (data last_regs : pyval) (f : list (string * pyval)) :
  format_all FORMAT_INFO_x64 data last_regs f =
  match format_regs (entry x64_general) data last_regs f (names x64_general) with
  | Some f1 =>
      match format_regs (entry x64_segment) data last_regs f1 (names x64_segment) with
      | Some f2 => format_regs (entry x64_flags) data last_regs f2 (names x64_flags)
      | None => None
      end
  | None => None
  end.
Proof.
  unfold FORMAT_INFO_x64. cbn [format_all].
  change (regs (entry x64_general)) with (Some (names x64_general)).
  change (regs (entry x64_segment)) with (Some (names x64_segment)).
  change (regs (entry x64_flags)) with (Some (names x64_flags)).
  unfold mbind, option_bind.
  destruct (format_regs (entry x64_general) _ _ _ _) as [f1|]; [|done].
  destruct (format_regs (entry x64_segment) _ _ _ _) as [f2|]; [|done].
  by destruct (format_regs (entry x64_flags) _ _ _ _).
Qed.

Lemma keys_apart :
  (forall k, k ∈ format_keys (names x64_general) ->
     (k ∉ format_keys (names x64_segment)) /\ (k ∉ format_keys (names x64_flags))) /\
  (forall k, k ∈ format_keys (names x64_segment) -> (k ∉ format_keys (names x64_flags))) /\
  NoDup (format_keys (names x64_general)) /\
  NoDup (format_keys (names x64_segment)) /\
  NoDup (format_keys (names x64_flags)).
Proof.
  pose proof format_keys_NoDup as Hnd.
  change all_names with (names x64_general ++ names x64_segment ++ names x64_flags) in Hnd.
  rewrite !format_keys_app in Hnd.
  apply NoDup_app in Hnd as (Hg & Hgs & Hnd). apply NoDup_app in Hnd as (Hs & Hsf & Hf).
  split; [|split; [|split; [|split]]]; try done.
  intros k Hk. split; intros Hin; apply (Hgs k Hk), elem_of_app; [by left|by right].
Qed.

(** X20. What the register view shows for a register of an entry of
    [FORMAT_INFO]: a string, such as ['N/A'], as it is and in the colour
    of values; any other value in the format of the entry, in the colour
    of modified values when there are no earlier registers or the
    earlier value differs, in the colour of values otherwise.  No later
    step of the loop overwrites it. *)
Theorem register_values_are_coloured (data last_regs : pyval)
    (formatted : list (string * pyval)) :
  format_all FORMAT_INFO_x64 data last_regs [] = Some formatted ->
  forall fmt registers reg,
    fmt ∈ FORMAT_INFO_x64 -> regs fmt = Some registers -> reg ∈ registers ->
    exists val show,
      py_getitem data reg = Ok val /\
      value_format (with_defaults FORMAT_DEFAULTS fmt) = Some show /\
      match val with
      | PyStr s => assoc reg formatted = Some (PyStr (colored s COLOURS_value []))
      | _ =>
          exists text,
            show val = Some text /\
            assoc reg formatted =
              Some (PyStr (colored text
                             (if modified last_regs reg val
                              then COLOURS_modified else COLOURS_value) []))
      end.
Proof.
  intros Hall fmt registers reg Hfmt Hregs Hreg. rewrite format_all_x64 in Hall.
  destruct (format_regs (entry x64_general) _ _ _ _) as [f1|] eqn:Hf1; [|done].
  destruct (format_regs (entry x64_segment) _ _ _ _) as [f2|] eqn:Hf2; [|done].
  destruct keys_apart as (Hgeneral & Hsegment & Hndg & Hnds & Hndf).
  assert (forall e f f' show,
            value_format (entry e) = Some show ->
            label_format (entry e) = Some (default id (label_format (entry e))) ->
            label_mod (entry e) = Some (Some upper) ->
            label_colour (entry e) = Some COLOURS_label ->
            value_mod (entry e) = Some None ->
            value_colour (entry e) = Some COLOURS_value ->
            value_colour_mod (entry e) = Some COLOURS_modified ->
            format_regs (entry e) data last_regs f (names e) = Some f' ->
            NoDup (format_keys (names e)) -> reg ∈ names e ->
            assoc reg formatted = assoc reg f' ->
            exists val show,
              py_getitem data reg = Ok val /\
              value_format (entry e) = Some show /\
              match val with
              | PyStr s => assoc reg formatted = Some (PyStr (colored s COLOURS_value []))
              | _ =>
                  exists text,
                    show val = Some text /\
                    assoc reg formatted =
                      Some (PyStr (colored text
                                     (if modified last_regs reg val
                                      then COLOURS_modified else COLOURS_value) []))
              end) as Hentry.
  { intros e f f' show Hshow Hlf Hlm Hlc Hvm Hvc Hvcm Hf Hnd Hin Hkept.
    destruct (format_regs_value (entry e) _ _ _ _ _ _ _ Hlf Hlm Hlc Hshow Hvm Hvc Hvcm
                data last_regs (names e) f f' reg Hf Hnd Hin) as (fa & fb & Hfa & Hfb).
    destruct (format_reg_value (entry e) _ _ _ _ _ _ _ Hlf Hlm Hlc Hshow Hvm Hvc Hvcm
                data last_regs fa fb reg Hfa) as (val & Hval & Hshown).
    exists val, show. split; [done|]. split; [done|].
    rewrite Hkept, Hfb. by destruct val. }
  apply elem_of_cons in Hfmt as [->|Hfmt]; [|apply elem_of_cons in Hfmt as [->|Hfmt];
    [|apply elem_of_cons in Hfmt as [->|Hfmt]; [|by apply elem_of_nil in Hfmt]]];
    injection Hregs as <-.
  - apply (Hentry x64_general [] f1 (format_int ADDR_FORMAT_64)); try done.
    destruct (Hgeneral reg (format_keys_elem _ _ Hreg)) as [Hs Hf].
    rewrite (format_regs_keeps (entry x64_flags) _ _ _ _ _ _ _ eq_refl eq_refl eq_refl
               eq_refl eq_refl eq_refl eq_refl data last_regs _ f2 formatted reg Hall Hf).
    by rewrite (format_regs_keeps (entry x64_segment) _ _ _ _ _ _ _ eq_refl eq_refl eq_refl
                  eq_refl eq_refl eq_refl eq_refl data last_regs _ f1 f2 reg Hf2 Hs).
  - apply (Hentry x64_segment f1 f2 (format_int SEGM_FORMAT_16)); try done.
    pose proof (Hsegment reg (format_keys_elem _ _ Hreg)) as Hf.
    by rewrite (format_regs_keeps (entry x64_flags) _ _ _ _ _ _ _ eq_refl eq_refl eq_refl
                  eq_refl eq_refl eq_refl eq_refl data last_regs _ f2 formatted reg Hall Hf).
  - by apply (Hentry x64_flags f2 formatted (fun v => Some (py_str v))).
Qed.

Lemma format_map_mono (f0 f : list (string * pyval)) :
  (forall k, is_Some (assoc k f0) -> is_Some (assoc k f)) ->
  forall template field,
    is_Some (format_map template field f0) -> is_Some (format_map template field f).
Proof.
  intros Hkeys. induction template as [|c t IH]; intros [name|]; simpl; try done.
  - destruct (Ascii.eqb c "}"); [|apply IH].
    intros Hsome. destruct (assoc name f0) as [v0|] eqn:H0; [|by destruct Hsome].
    destruct (Hkeys name) as [v ->]; [by rewrite H0|].
    destruct (format_map t None f0) as [text0|] eqn:Ht0; [|by destruct Hsome].
    destruct (IH None) as [text ->]; [by rewrite Ht0|]. done.
  - destruct (Ascii.eqb c "{"); [apply IH|]. destruct (Ascii.eqb c "}"); [done|].
    intros Hsome. destruct (format_map t None f0) as [text0|] eqn:Ht0; [|by destruct Hsome].
    destruct (IH None) as [text ->]; [by rewrite Ht0|]. done.
Qed.

Lemma assoc_keys (k : string) (v : pyval) (l : list string) :
  is_Some (assoc k (map (fun k => (k, v)) l)) -> k ∈ l.
Proof.
  induction l as [|x l IH]; simpl; [by intros []|].
  destruct (String.eqb k x) eqn:Hk.
  - apply String.eqb_eq in Hk as ->. left.
  - right. by apply IH.
Qed.

(** The fields of both templates are among the keys that the view sets. *)
Lemma templates_fit (vertical : bool) :
  is_Some (format_map (if vertical then TEMPLATE_V else TEMPLATE_H) None
             (map (fun k => (k, PyNone)) (format_keys all_names))).
Proof. destruct vertical; vm_compute; by eexists. Qed.

(** X19. The view knows every register that the command reads, and
    nothing else: a register event made by [get_registers] is rendered
    by [RegisterView.render] without [KeyError], [TypeError] or
    [ValueError], with either template, the first time and after any
    earlier such event, whatever the debugger answered then and whatever
    it answers now; the view then remembers the registers of the
    event. *)
Theorem register_event_renders {socket : Type} {G : Gdb} (vertical : bool)
    (header_width footer_width : Z) (w : @World socket) (regs last_regs : pyval) :
  fst (get_registers w) = Ok (Some regs) ->
  (last_regs = PyNone \/
   exists (G0 : Gdb) (w0 : @World socket),
     fst (get_registers (G := G0) w0) = Ok (Some last_regs)) ->
  exists formatted text,
    format_all FORMAT_INFO_x64 regs last_regs [] = Some formatted /\
    format_map (if vertical then TEMPLATE_V else TEMPLATE_H) None formatted = Some text /\
    RegisterView_render vertical last_regs header_width footer_width
      (update "register" regs) =
    Some (print (format_header header_width "[regs]" None) +:+ text +:+
          format_footer footer_width,
          regs).
Proof.
  intros Hregs Hlast.
  assert (forall (G' : Gdb) (w : @World socket) regs,
            fst (get_registers (G := G') w) = Ok (Some regs) ->
            forall reg, reg ∈ all_names ->
              exists val, py_getitem regs reg = Ok val /\
                          ((exists n, val = PyInt n) \/ (exists s, val = PyStr s)))
    as Hread.
  { clear. intros G' w regs Hregs reg Hreg.
    destruct (get_registers_spec (G := G') w) as (lg & _ & Hspec).
    destruct (eval_str "$eflags") as [flags|]; [|congruence].
    destruct Hspec as (vals & Hvals & Hflags & Hnames).
    rewrite Hregs in Hvals. injection Hvals as ->.
    apply elem_of_app in Hreg as [Hreg|Hreg].
    - specialize (Hnames reg Hreg). simpl. rewrite Hnames.
      destruct (eval_int _); eexists; (split; [done|]); [left|right]; by eexists.
    - apply elem_of_cons in Hreg as [->|Hreg]; [|by apply elem_of_nil in Hreg].
      simpl. rewrite Hflags. eexists. split; [done|]. right. by eexists. }
  assert (forall reg, reg ∈ all_names ->
            last_regs = PyNone \/ exists last, py_getitem last_regs reg = Ok last) as Hbefore.
  { intros reg Hreg. destruct Hlast as [->|(G0 & w0 & Hw0)]; [by left|right].
    destruct (Hread G0 w0 last_regs Hw0 reg Hreg) as (val & Hval & _). by exists val. }
  assert (forall e show f,
            value_format (entry e) = Some show ->
            label_format (entry e) = Some (default id (label_format (entry e))) ->
            label_mod (entry e) = Some (Some upper) ->
            label_colour (entry e) = Some COLOURS_label ->
            value_mod (entry e) = Some None ->
            value_colour (entry e) = Some COLOURS_value ->
            value_colour_mod (entry e) = Some COLOURS_modified ->
            (forall n, is_Some (show (PyInt n))) ->
            (forall reg, reg ∈ names e -> reg ∈ all_names) ->
            exists f',
              format_regs (entry e) regs last_regs f (names e) = Some f' /\
              forall k, is_Some (assoc k f) \/ k ∈ format_keys (names e) ->
                        is_Some (assoc k f')) as Hentry.
  { intros e show f Hshow Hlf Hlm Hlc Hvm Hvc Hvcm Hint Hin.
    apply (format_regs_returns (entry e) _ _ _ _ _ _ _ Hlf Hlm Hlc Hshow Hvm Hvc Hvcm).
    intros reg Hreg. destruct (Hread G w regs Hregs reg (Hin reg Hreg)) as (val & Hval & Hkind).
    exists val. split; [done|].
    destruct Hkind as [[n ->]|[s ->]]; [|done]. split; [apply Hint|by apply Hbefore, Hin]. }
  destruct (Hentry x64_general (format_int ADDR_FORMAT_64) []) as (f1 & Hf1 & Hk1);
    try done.
  { intros reg Hreg. apply elem_of_app. left.
    change get_registers_regs with (names x64_general ++ names x64_segment).
    apply elem_of_app. by left. }
  destruct (Hentry x64_segment (format_int SEGM_FORMAT_16) f1) as (f2 & Hf2 & Hk2);
    try done.
  { intros reg Hreg. apply elem_of_app. left.
    change get_registers_regs with (names x64_general ++ names x64_segment).
    apply elem_of_app. by right. }
  destruct (Hentry x64_flags (fun v => Some (py_str v)) f2) as (f3 & Hf3 & Hk3);
    try done.
  { intros reg Hreg. apply elem_of_app. by right. }
  assert (forall k, is_Some (assoc k (map (fun k => (k, PyNone)) (format_keys all_names))) ->
                    is_Some (assoc k f3)) as Hkeys.
  { intros k Hk. apply assoc_keys in Hk.
    change all_names with (names x64_general ++ names x64_segment ++ names x64_flags) in Hk.
    rewrite !format_keys_app, !elem_of_app in Hk.
    apply Hk3. destruct Hk as [Hk|[Hk|Hk]]; [left|left|right; done].
    - apply Hk2. left. apply Hk1. by right.
    - apply Hk2. by right. }
  destruct (format_map_mono _ f3 Hkeys _ None (templates_fit vertical)) as [text Htext].
  assert (format_all FORMAT_INFO_x64 regs last_regs [] = Some f3) as Hall
    by (by rewrite format_all_x64, Hf1, Hf2, Hf3).
  exists f3, text. split; [done|]. split; [done|].
  unfold RegisterView_render. cbv zeta.
  change (py_getitem (update "register" regs) "data") with (Ok regs).
  unfold mbind, option_bind, ok. by rewrite Hall, Htext.
Qed.
End RegisterView.


(** The registers of [Trial.gdb], rendered after those of the earlier
    stop [Trial.earlier], where [rsp] and [rbx] were different. *)
Lemma register_event_renders_witness :
  exists formatted text,
    format_all (T := monochrome) (FORMAT_INFO_x64 (B := printed)) Trial.regs
      Trial.earlier_regs [] = Some formatted /\
    format_map (B := printed) TEMPLATE_H None formatted = Some text /\
    RegisterView_render (T := monochrome) (B := printed) false Trial.earlier_regs 80 80
      (update "register" Trial.regs) =
    Some (print (format_header (T := monochrome) 80 "[regs]" None) +:+ text +:+
          format_footer (T := monochrome) 80,
          Trial.regs).
Proof.
  apply (register_event_renders (T := monochrome) (B := printed) (socket := Sim.socket)
           false 80 80 Sim.startup Trial.regs Trial.earlier_regs);
    [vm_compute; reflexivity|].
  right. exists Trial.earlier, Sim.startup. vm_compute. reflexivity.
Defined.

(** [rsp] among the registers of [Trial.gdb], rendered for the first
    time. *)
Lemma register_values_are_coloured_witness :
  exists val show,
    py_getitem Trial.regs "rsp" = Ok val /\
    value_format (with_defaults FORMAT_DEFAULTS x64_general) = Some show /\
    match val with
    | PyStr s =>
        assoc "rsp"
          (default [] (format_all (T := monochrome)
                         (FORMAT_INFO_x64 (B := printed)) Trial.regs PyNone [])) =
        Some (PyStr (colored (Terminal := monochrome) s COLOURS_value []))
    | _ =>
        exists text,
          show val = Some text /\
          assoc "rsp"
            (default [] (format_all (T := monochrome)
                           (FORMAT_INFO_x64 (B := printed)) Trial.regs PyNone [])) =
            Some (PyStr (colored (Terminal := monochrome) text
                           (if modified PyNone "rsp" val
                            then COLOURS_modified else COLOURS_value) []))
    end.
Proof.
  apply (register_values_are_coloured (T := monochrome) (B := printed) Trial.regs PyNone
           (default [] (format_all (T := monochrome)
                          (FORMAT_INFO_x64 (B := printed)) Trial.regs PyNone []))
           ltac:(vm_compute; reflexivity) x64_general
           ["rax"; "rbx"; "rcx"; "rdx"; "rbp"; "rsp"; "rdi"; "rsi"; "rip"; "r8";
            "r9"; "r10"; "r11"; "r12"; "r13"; "r14"; "r15"] "rsp");
    [left|reflexivity|do 5 right; left].
Defined.

(** ** Stopping the command *)

Section Stopping.
Context {Th : Threading}.

(** [stop] on a running command whose thread has made its lock: it sets
    the flag, joins the thread once, for ten seconds at most, reports a
    thread that is still alive without doing anything to it, and
    returns. *)
Lemma stop_joins_once (cmd : VoltronCommand) (t : ServerThread) :
  running cmd = true -> thread cmd = Some t -> lock t = Some tt ->
  let asked := {| lock := lock t; _should_exit := Some true; alive := alive t |} in
  stop cmd =
    (Ok tt,
     {| running := false;
        thread := Some (snd (thread_join asked 10));
        hooked := false;
        output := (output cmd ++ ["Stopping voltron"]) ++
                  (if alive (snd (thread_join asked 10))
                   then ["Failed to stop voltron :<"] else []);
        waited := waited cmd + fst (thread_join asked 10) |}) /\
  0 <= fst (thread_join asked 10) <= 10.
Proof.
  intros Hrunning Hthread Hlock asked. split; [|by apply thread_join_returns].
  subst asked. unfold stop, set_should_exit. rewrite Hrunning, Hthread, Hlock.
  by destruct (thread_join _ 10).
Qed.

(** [stop] on a running command whose thread has no lock, [run] not
    having come to it: [set_should_exit] raises, and the command stays
    [running] with its handler disconnected. *)
Lemma stop_without_lock (cmd : VoltronCommand) (t : ServerThread) :
  running cmd = true -> thread cmd = Some t -> lock t = None ->
  stop cmd =
    (Raise (AttributeError "lock"),
     {| running := true; thread := Some t; hooked := false;
        output := output cmd ++ ["Stopping voltron"];
        waited := waited cmd |}).
Proof.
  intros Hrunning Hthread Hlock. unfold stop, set_should_exit.
  by rewrite Hrunning, Hthread, Hlock.
Qed.
End Stopping.

(** C8. [voltron stop] after a [voltron start] whose thread ended in
    [Server(SOCK)]: the command is running, and [stop] raises
    [AttributeError] instead of returning, the thread having no [lock];
    the command is left running with its handler disconnected, so that a
    later [voltron start] answers that it is running already. *)
Theorem stop_after_failed_start_raises :
  running Trial.failed_start = true /\
  fst (stop Trial.failed_start) = Raise (AttributeError "lock") /\
  running (snd (stop Trial.failed_start)) = true /\
  hooked (snd (stop Trial.failed_start)) = false /\
  output (start (snd (stop Trial.failed_start))) =
    ["Starting voltron"; "Stopping voltron"; "Already running"].
Proof. repeat split; reflexivity. Qed.

(** The same after a [voltron start] whose thread has reached its loop:
    [stop] returns, at once for this thread, which ends when asked to. *)
Example stop_after_start_returns :
  stop Trial.started =
    (Ok tt,
     {| running := false;
        thread := Some {| lock := Some tt; _should_exit := Some true; alive := false |};
        hooked := false;
        output := ["Starting voltron"; "Stopping voltron"];
        waited := 0 |}).
Proof. reflexivity. Qed.
